(** * Ingestion engine of the insights API: rate-limit monitor, retrying
      client and baseline/tail refresh

    Shallow embedding of
    - [src/api/app/services/meta_client.py]: [AsyncRateLimitMonitor] and
      [MetaClient._request_with_retry];
    - [src/api/app/services/refresher.py]: [_determine_refresh_mode],
      [_upsert_daily_ads] and [sync_account_data].

    Python integers are unbounded and become [Z]; [str] becomes [string];
    a [dict] whose iteration order is observable becomes an association
    list kept in insertion order, the other dicts become [gmap]s; a raised
    exception becomes a constructor of the result. *)

From Stdlib Require Import ZArith List Bool Ascii String Lia.
From stdpp Require Import base option gmap strings.
From Equations Require Import Equations.
Import ListNotations.

Local Open Scope string_scope.
Local Open Scope Z_scope.

Set Warnings "-register-all".

(* ===================================================================== *)
(** * Calendar dates ([datetime]) *)
(* ===================================================================== *)

(** A [datetime.date] is represented by its proleptic Gregorian ordinal
    (day 1 is 0001-01-01), so that [d - timedelta(days=n)] is [d - n] and
    date comparison is [Z] comparison.  The conversions between ordinals,
    (year, month, day) triples and text follow CPython's [datetime]. *)

Definition _is_leap (year : Z) : bool :=
  (year mod 4 =? 0) && (negb (year mod 100 =? 0) || (year mod 400 =? 0)).

Definition _DAYS_IN_MONTH (month : Z) : Z :=
  match month with
  | 1 => 31 | 2 => 28 | 3 => 31 | 4 => 30 | 5 => 31 | 6 => 30
  | 7 => 31 | 8 => 31 | 9 => 30 | 10 => 31 | 11 => 30 | 12 => 31
  | _ => 0
  end.

Definition _DAYS_BEFORE_MONTH (month : Z) : Z :=
  match month with
  | 1 => 0 | 2 => 31 | 3 => 59 | 4 => 90 | 5 => 120 | 6 => 151
  | 7 => 181 | 8 => 212 | 9 => 243 | 10 => 273 | 11 => 304 | 12 => 334
  | _ => 0
  end.

Definition _days_before_year (year : Z) : Z :=
  let y := year - 1 in y * 365 + y / 4 - y / 100 + y / 400.

Definition _days_in_month (year month : Z) : Z :=
  if (month =? 2) && _is_leap year then 29 else _DAYS_IN_MONTH month.

Definition _days_before_month (year month : Z) : Z :=
  _DAYS_BEFORE_MONTH month + (if (2 <? month) && _is_leap year then 1 else 0).

Definition _ymd2ord (year month day : Z) : Z :=
  _days_before_year year + _days_before_month year month + day.

(** Month and day of the [n]-th day (from 0) of a year. *)
Definition month_day (leapyear : bool) (n : Z) : Z * Z :=
  let month := Z.shiftr (n + 50) 5 in
  let preceding :=
    _DAYS_BEFORE_MONTH month + (if (2 <? month) && leapyear then 1 else 0) in
  if n <? preceding then
    let month := month - 1 in
    let preceding :=
      preceding
      - (_DAYS_IN_MONTH month + (if (month =? 2) && leapyear then 1 else 0)) in
    (month, n - preceding + 1)
  else (month, n - preceding + 1).

Definition _ord2ymd (ordinal : Z) : Z * Z * Z :=
  let n := ordinal - 1 in
  let n400 := n / 146097 in
  let n := n mod 146097 in
  let n100 := n / 36524 in
  let n := n mod 36524 in
  let n4 := n / 1461 in
  let n := n mod 1461 in
  let n1 := n / 365 in
  let n := n mod 365 in
  let year := n400 * 400 + 1 + (n100 * 100 + n4 * 4 + n1) in
  if (n1 =? 4) || (n100 =? 4) then (year - 1, 12, 31)
  else
    let leapyear := (n1 =? 3) && (negb (n4 =? 24) || (n100 =? 3)) in
    let '(month, day) := month_day leapyear n in
    (year, month, day).

(** [date.min] and [date.max] as ordinals. *)
Definition MINORD : Z := 1.
Definition MAXORD : Z := 3652059.

Definition valid_ord (o : Z) : bool := (MINORD <=? o) && (o <=? MAXORD).

(** ** Text form *)

Definition digit_char (d : Z) : ascii := ascii_of_N (Z.to_N (48 + d)).

Definition is_digit (c : ascii) : bool :=
  (48 <=? Z.of_N (N_of_ascii c)) && (Z.of_N (N_of_ascii c) <=? 57).

Definition digit_val (c : ascii) : Z := Z.of_N (N_of_ascii c) - 48.

Definition in_range (lo hi : Z) (c : ascii) : bool :=
  is_digit c && (lo <=? digit_val c) && (digit_val c <=? hi).

(** ["%04d"] and ["%02d"] on the values a date can hold. *)
Definition pad4 (n : Z) : string :=
  String (digit_char (n / 1000 mod 10))
    (String (digit_char (n / 100 mod 10))
      (String (digit_char (n / 10 mod 10))
        (String (digit_char (n mod 10)) EmptyString))).

Definition pad2 (n : Z) : string :=
  String (digit_char (n / 10 mod 10)) (String (digit_char (n mod 10)) EmptyString).

Definition format_ymd (t : Z * Z * Z) : string :=
  let '(y, m, d) := t in pad4 y ++ "-" ++ pad2 m ++ "-" ++ pad2 d.

(** [d.isoformat()] and [d.strftime('%Y-%m-%d')]: both print the year on
    four digits for the years from 1000 on. *)
Definition isoformat (o : Z) : string := format_ymd (_ord2ymd o).

Definition strftime_ymd (o : Z) : string := isoformat o.

(** The directive [%m]: [1[0-2]|0[1-9]|[1-9]], here followed by ["-"];
    what follows the ["-"] is returned. *)
Definition parse_month (s : string) : option (Z * string) :=
  match s with
  | String c1 (String c2 rest2) =>
      if Ascii.eqb c2 "-" then
        if in_range 1 9 c1 then Some (digit_val c1, rest2) else None
      else
        match rest2 with
        | String c3 rest3 =>
            if Ascii.eqb c3 "-" then
              if Ascii.eqb c1 "1" && in_range 0 2 c2 then Some (10 + digit_val c2, rest3)
              else if Ascii.eqb c1 "0" && in_range 1 9 c2 then Some (digit_val c2, rest3)
              else None
            else None
        | EmptyString => None
        end
  | _ => None
  end.

(** The directive [%d]: [3[0-1]|[1-2]\d|0[1-9]|[1-9]| [1-9]], the first
    alternative that matches wins; what is left over is returned. *)
Definition parse_day (s : string) : option (Z * string) :=
  match s with
  | String c1 rest1 =>
      match rest1 with
      | String c2 rest2 =>
          if Ascii.eqb c1 "3" && in_range 0 1 c2 then Some (30 + digit_val c2, rest2)
          else if in_range 1 2 c1 && is_digit c2
               then Some (10 * digit_val c1 + digit_val c2, rest2)
          else if Ascii.eqb c1 "0" && in_range 1 9 c2 then Some (digit_val c2, rest2)
          else if in_range 1 9 c1 then Some (digit_val c1, rest1)
          else if Ascii.eqb c1 " " && in_range 1 9 c2 then Some (digit_val c2, rest2)
          else None
      | EmptyString => if in_range 1 9 c1 then Some (digit_val c1, rest1) else None
      end
  | EmptyString => None
  end.

(** [datetime.strptime(s, '%Y-%m-%d')]: [None] stands for [ValueError]
    (no match, unconverted data, year 0, or a day the month does not have). *)
Definition strptime_ymd (s : string) : option Z :=
  match s with
  | String y1 (String y2 (String y3 (String y4 (String sep rest)))) =>
      if is_digit y1 && is_digit y2 && is_digit y3 && is_digit y4 && Ascii.eqb sep "-"
      then
        let year :=
          1000 * digit_val y1 + 100 * digit_val y2 + 10 * digit_val y3 + digit_val y4 in
        match parse_month rest with
        | Some (month, rest) =>
            match parse_day rest with
            | Some (day, EmptyString) =>
                if (1 <=? year) && (day <=? _days_in_month year month)
                then Some (_ymd2ord year month day)
                else None
            | _ => None
            end
        | None => None
        end
      else None
  | _ => None
  end.

(* ===================================================================== *)
(** * Rows, baselines and the merge ([refresher.py]) *)
(* ===================================================================== *)

Definition BASELINE_DAYS : Z := 90.
Definition TAIL_BACKFILL_DAYS : Z := 3.
Definition CHUNK_SIZE_DAYS : Z := 30.

(** A row of daily insights as returned by the provider (a JSON object):
    the fields the refresh reads or writes, each absent ([None]) or a
    string, and the remaining columns. *)
Record ad := mk_ad {
  ad_id : option string;
  date_start : option string;
  date : option string;
  account_name : option string;
  account_id : option string;
  columns : list (string * string)
}.

#[global] Instance ad_eq_dec : EqDecision ad.
Proof. solve_decision. Defined.

(** Python truth value of [d.get(k)]: [None] and the empty string are false. *)
Definition truthy (v : option string) : bool :=
  match v with
  | Some s => negb (String.eqb s "")
  | None => false
  end.

(** [x or y] *)
Definition py_or (x y : option string) : option string :=
  if truthy x then x else y.

Definition key : Type := string * string.

(** The key [(ad_id, ad_date)] under which a row is indexed, when the test
    [if ad_id and ad_date] passes. *)
Definition key_of (a : ad) : option key :=
  let ad_id := ad_id a in
  let ad_date := py_or (date_start a) (date a) in
  if truthy ad_id && truthy ad_date then
    match ad_id, ad_date with
    | Some i, Some d => Some (i, d)
    | _, _ => None
    end
  else None.

(** [ads_index[key] = ad] on a dict in insertion order: the value of a key
    already there is replaced in place, a new key goes to the end. *)
Fixpoint dict_set {K V : Type} `{EqDecision K} (k : K) (v : V) (d : list (K * V))
  : list (K * V) :=
  match d with
  | [] => [(k, v)]
  | (k', v') :: d' =>
      if decide (k' = k) then (k', v) :: d' else (k', v') :: dict_set k v d'
  end.

(** One turn of either indexing loop. *)
Definition index_ad (ads_index : list (key * ad)) (a : ad) : list (key * ad) :=
  match key_of a with
  | Some k => dict_set k a ads_index
  | None => ads_index
  end.

(** [ads_index] after the loop over [existing_ads] and the loop over
    [new_ads]. *)
Definition build_index (existing_ads new_ads : list ad) : list (key * ad) :=
  fold_left index_ad new_ads (fold_left index_ad existing_ads []).

(** [cutoff_date]: [None] when [strptime] raises [ValueError] or the
    subtraction leaves the range of dates ([OverflowError]). *)
Definition cutoff_date (reference_date : string) : option string :=
  match strptime_ymd reference_date with
  | Some reference_dt =>
      if MINORD <=? reference_dt - BASELINE_DAYS
      then Some (strftime_ymd (reference_dt - BASELINE_DAYS))
      else None
  | None => None
  end.

(** The cleaning loop: [if ad_date >= cutoff_date: cleaned_ads.append(ad)],
    a comparison of strings. *)
Definition clean (cutoff : string) (ads_index : list (key * ad)) : list ad :=
  map snd (List.filter (fun e => String.leb cutoff (snd (fst e))) ads_index).

Definition _upsert_daily_ads (existing_ads new_ads : list ad) (reference_date : string)
  : option (list ad) :=
  let ads_index := build_index existing_ads new_ads in
  match cutoff_date reference_date with
  | Some cutoff => Some (clean cutoff ads_index)
  | None => None
  end.

Inductive refresh_mode := BASELINE | TAIL.

#[global] Instance refresh_mode_eq_dec : EqDecision refresh_mode.
Proof. solve_decision. Defined.

(** The stored raw dataset ([baseline_daily.json]). *)
Record metadata := mk_metadata {
  md_timestamp : string;
  md_reference_date : option string;
  md_mode : refresh_mode;
  md_days_fetched : Z;
  md_total_daily_rows : Z;
  md_unique_ads : Z;
  md_baseline_days : Z;
  md_tail_backfill_days : Z
}.

Record baseline_data := mk_baseline {
  bl_metadata : metadata;
  bl_daily_ads : list ad
}.

Definition _determine_refresh_mode (baseline : option baseline_data)
    (reference_date : string) : refresh_mode * Z :=
  match baseline with
  | None => (BASELINE, BASELINE_DAYS)
  | Some b =>
      let baseline_date := md_reference_date (bl_metadata b) in
      if negb (truthy baseline_date) then (BASELINE, BASELINE_DAYS)
      else
        match baseline_date ≫= strptime_ymd with
        | Some baseline_dt =>
            match strptime_ymd reference_date with
            | Some reference_dt =>
                let age_days := reference_dt - baseline_dt in
                if age_days <? 0 then (BASELINE, BASELINE_DAYS)
                else (TAIL, TAIL_BACKFILL_DAYS)
            | None => (BASELINE, BASELINE_DAYS)
            end
        | None => (BASELINE, BASELINE_DAYS)
        end
  end.

(* ===================================================================== *)
(** * One synchronisation run ([sync_account_data]) *)
(* ===================================================================== *)

(** A columnar shard as produced by [transform_to_columnar]: the two
    entries the run reads ([ads], [periods]) and the rest. *)
Record shard := mk_shard {
  sh_ads : list string;
  sh_periods : list string;
  sh_rest : string
}.

Record manifest := mk_manifest {
  mf_version : string;
  mf_ads_count : Z;
  mf_periods : list string;
  mf_refresh_mode : refresh_mode;
  mf_baseline_days : Z
}.

(** What a key of the durable store holds.  [O_unreadable] is any content
    that [json.loads] rejects or that lacks [daily_ads] or [metadata]. *)
Inductive object :=
| O_baseline (b : baseline_data)
| O_shard (s : shard)
| O_manifest (m : manifest)
| O_unreadable.

Inductive reason :=
| AccountNotFound
| NoOAuthToken
| DecryptFailed
| MetaApiFailed
| TransformFailed
| ValidationFailed (errors : list string)
| WriteFailed (filename : string).

(** The exceptions a run ends in.  [DatabaseError] is the exception of
    the final [db.commit()]. *)
Inductive exn :=
| RefreshError (r : reason)
| MetaAPIError
| StorageError
| OtherError
| DatabaseError.

Inductive result (A : Type) :=
| Ok (a : A)
| Raise (e : exn).
Arguments Ok {A} a.
Arguments Raise {A} e.

(** The collaborators of a run: the relational database, the token
    cipher, the clock, the provider client, the columnar transform, and
    whether a write to the store, a read of the store or the final
    [db.commit()] fails. *)
Record env := mk_env {
  db_ad_account : string -> string -> option string;
  db_oauth_token : string -> option string;
  fernet_decrypt : string -> option string;
  today : Z;
  now : string;
  get_insights_daily : string -> string -> string -> string -> option (list ad);
  enrich_ads_with_creatives : list ad -> string -> option (list ad);
  transform_to_columnar :
    list ad -> string -> string -> string -> option (shard * shard * shard);
  validate_columnar_format : shard -> shard -> shard -> list string;
  put_fails : string -> bool;
  get_fails : string -> bool;
  commit_fails : bool
}.

(** What a run reads and changes: the store, the provider calls issued
    (since, until), and the committed [last_refresh_at]. *)
Record world := mk_world {
  store : gmap string object;
  fetch_log : list (string * string);
  last_refresh_at : option string
}.

Definition M (A : Type) : Type := world -> result A * world.

Definition ret {A} (a : A) : M A := fun w => (Ok a, w).

Definition raise {A} (e : exn) : M A := fun w => (Raise e, w).

Definition bind {A B} (m : M A) (k : A -> M B) : M B :=
  fun w =>
    match m w with
    | (Ok a, w') => k a w'
    | (Raise e, w') => (Raise e, w')
    end.

Notation "x <- m ;; k" := (bind m (fun x => k))
  (at level 100, m at level 99, k at level 100, right associativity).
Notation "m ;;; k" := (bind m (fun _ => k))
  (at level 100, k at level 100, right associativity).

(** [try: m except caught: raise RefreshError(r)] *)
Definition except {A} (caught : exn -> bool) (r : reason) (m : M A) : M A :=
  fun w =>
    match m w with
    | (Raise e, w') => if caught e then (Raise (RefreshError r), w') else (Raise e, w')
    | ok => ok
    end.

Definition is_MetaAPIError (e : exn) : bool :=
  match e with MetaAPIError => true | _ => false end.

Definition is_StorageError (e : exn) : bool :=
  match e with StorageError => true | _ => false end.

Definition any_exception (e : exn) : bool := true.

Definition of_option {A} (e : exn) (o : option A) : M A :=
  match o with
  | Some a => ret a
  | None => raise e
  end.

Definition data_path (tenant_id ad_account_id : string) : string :=
  "tenants/" ++ tenant_id ++ "/accounts/" ++ ad_account_id ++ "/data".

Definition baseline_key (tenant_id ad_account_id : string) : string :=
  data_path tenant_id ad_account_id ++ "/baseline_daily.json".

Definition optimized_path (tenant_id ad_account_id : string) : string :=
  data_path tenant_id ad_account_id ++ "/optimized".

(** [_load_existing_baseline]: [None] when [storage.get_object] raises
    (the object is missing, or the read fails) and when the content is not
    a dataset. *)
Definition _load_existing_baseline (e : env) (tenant_id ad_account_id : string)
  : M (option baseline_data) :=
  fun w =>
    if get_fails e (baseline_key tenant_id ad_account_id) then (Ok None, w)
    else
      match store w !! baseline_key tenant_id ad_account_id with
      | Some (O_baseline b) => (Ok (Some b), w)
      | _ => (Ok None, w)
      end.

(** [storage.put_object] *)
Definition put_object (e : env) (k : string) (o : object) : M unit :=
  fun w =>
    if put_fails e k then (Raise StorageError, w)
    else (Ok tt, mk_world (<[k := o]> (store w)) (fetch_log w) (last_refresh_at w)).

(** [meta_client.get_insights_daily], seen from the run. *)
Definition call_get_insights_daily (e : env) (ad_account_id access_token : string)
    (since_date until_date : string) : M (list ad) :=
  fun w =>
    let w' := mk_world (store w) (fetch_log w ++ [(since_date, until_date)])
                (last_refresh_at w) in
    match get_insights_daily e ad_account_id access_token since_date until_date with
    | Some rows => (Ok rows, w')
    | None => (Raise MetaAPIError, w')
    end.

(** [ad_account.last_refresh_at = ...; db.commit()], outside every
    [try]: when the commit raises nothing is recorded. *)
Definition db_commit (e : env) (t : string) : M unit :=
  fun w =>
    if commit_fails e then (Raise DatabaseError, w)
    else (Ok tt, mk_world (store w) (fetch_log w) (Some t)).

(** The [while chunk_start <= end_date] loop. *)
Equations? fetch_chunks (e : env) (ad_account_id access_token : string)
    (chunk_start end_date : Z) (daily_insights : list ad) (w : world)
  : result (list ad) * world
  by wf (Z.to_nat (end_date - chunk_start + 1)) lt :=
  fetch_chunks e ad_account_id access_token chunk_start end_date daily_insights w
    with Z_le_dec chunk_start end_date => {
    | left _ =>
        let chunk_end := Z.min (chunk_start + (CHUNK_SIZE_DAYS - 1)) end_date in
        match call_get_insights_daily e ad_account_id access_token
                (isoformat chunk_start) (isoformat chunk_end) w with
        | (Ok chunk_data, w') =>
            fetch_chunks e ad_account_id access_token (chunk_end + 1) end_date
              (daily_insights ++ chunk_data) w'
        | (Raise err, w') => (Raise err, w')
        end
    | right _ => (Ok daily_insights, w) }.
Proof. subst chunk_end. unfold CHUNK_SIZE_DAYS. lia. Qed.

(** The dict a successful run returns. *)
Record outcome := mk_outcome {
  oc_status : string;
  oc_ad_account_id : string;
  oc_refresh_mode : refresh_mode;
  oc_days_fetched : Z;
  oc_unique_ads : Z;
  oc_files_written : list string;
  oc_refreshed_at : string;
  oc_date_range : string
}.

(** Step 7: one call, or the chunked loop when the window is longer than
    [CHUNK_SIZE_DAYS]; a [MetaAPIError] becomes a [RefreshError]. *)
Definition fetch_daily_insights (e : env) (ad_account_id access_token : string)
    (days_to_fetch : Z) : M (list ad) :=
  let reference_date := isoformat (today e - 1) in
  let since_date := isoformat (today e - days_to_fetch) in
  let until_date := reference_date in
  except is_MetaAPIError MetaApiFailed
    (if CHUNK_SIZE_DAYS <? days_to_fetch then
       let chunk_start := today e - days_to_fetch in
       let end_date := today e - 1 in
       fetch_chunks e ad_account_id access_token chunk_start end_date []
     else
       call_get_insights_daily e ad_account_id access_token since_date until_date).

(** Step 8: enrichment, whose failure is swallowed. *)
Definition enrich (e : env) (daily_insights : list ad) (access_token : string)
  : list ad :=
  match enrich_ads_with_creatives e daily_insights access_token with
  | Some enriched => enriched
  | None => daily_insights
  end.

(** Step 9: [ad['account_name'] = ...; ad['account_id'] = ...] *)
Definition tag_account (name ad_account_id : string) (a : ad) : ad :=
  mk_ad (ad_id a) (date_start a) (date a) (Some name) (Some ad_account_id) (columns a).

(** Step 10: upsert into the stored rows in TAIL mode, replace otherwise. *)
Definition merge_step (refresh_mode : refresh_mode)
    (existing_baseline : option baseline_data) (daily_insights : list ad)
    (reference_date : string) : M (list ad) :=
  match refresh_mode, existing_baseline with
  | TAIL, Some b =>
      of_option OtherError
        (_upsert_daily_ads (bl_daily_ads b) daily_insights reference_date)
  | _, _ => ret daily_insights
  end.

(** Step 14: the loop over the three shard files. *)
Fixpoint write_shards (e : env) (dir : string) (files : list (string * shard))
    (files_written : list string) : M (list string) :=
  match files with
  | [] => ret files_written
  | (filename, data) :: rest =>
      except is_StorageError (WriteFailed filename)
        (put_object e (dir ++ "/" ++ filename) (O_shard data)) ;;;
      write_shards e dir rest (files_written ++ [filename])
  end.

Definition sync_account_data (e : env) (ad_account_id tenant_id : string) : M outcome :=
  (* 1-3 *)
  ad_account_name <-
    of_option (RefreshError AccountNotFound) (db_ad_account e ad_account_id tenant_id) ;;
  oauth_token <- of_option (RefreshError NoOAuthToken) (db_oauth_token e tenant_id) ;;
  access_token <- of_option (RefreshError DecryptFailed) (fernet_decrypt e oauth_token) ;;
  (* 4-6 *)
  let reference_date := isoformat (today e - 1) in
  existing_baseline <- _load_existing_baseline e tenant_id ad_account_id ;;
  let '(refresh_mode, days_to_fetch) :=
    _determine_refresh_mode existing_baseline reference_date in
  let since_date := isoformat (today e - days_to_fetch) in
  let until_date := reference_date in
  (* 7-9 *)
  daily_insights <- fetch_daily_insights e ad_account_id access_token days_to_fetch ;;
  let daily_insights := enrich e daily_insights access_token in
  let daily_insights := map (tag_account ad_account_name ad_account_id) daily_insights in
  (* 10 *)
  all_daily_ads <- merge_step refresh_mode existing_baseline daily_insights reference_date ;;
  (* 11 *)
  shards <-
    except any_exception TransformFailed
      (of_option OtherError
         (transform_to_columnar e all_daily_ads reference_date ad_account_id
            ad_account_name)) ;;
  let '(meta_v1, agg_v1, summary_v1) := shards in
  (* 12 *)
  let validation_errors := validate_columnar_format e meta_v1 agg_v1 summary_v1 in
  (match validation_errors with
   | [] => ret tt
   | _ :: _ => raise (RefreshError (ValidationFailed validation_errors))
   end) ;;;
  (* 13 *)
  let baseline_data :=
    mk_baseline
      (mk_metadata (now e) (Some reference_date) refresh_mode days_to_fetch
         (Z.of_nat (length all_daily_ads)) (Z.of_nat (length (sh_ads agg_v1)))
         BASELINE_DAYS TAIL_BACKFILL_DAYS)
      all_daily_ads in
  except is_StorageError (WriteFailed "baseline_daily.json")
    (put_object e (baseline_key tenant_id ad_account_id) (O_baseline baseline_data)) ;;;
  let files_written := ["baseline_daily.json"] in
  (* 14 *)
  files_written <-
    write_shards e (optimized_path tenant_id ad_account_id)
      [("meta_v1.json", meta_v1); ("agg_v1.json", agg_v1); ("summary_v1.json", summary_v1)]
      files_written ;;
  (* 15 *)
  let manifest :=
    mk_manifest (now e) (Z.of_nat (length (sh_ads agg_v1))) (sh_periods agg_v1)
      refresh_mode BASELINE_DAYS in
  except is_StorageError (WriteFailed "manifest.json")
    (put_object e (optimized_path tenant_id ad_account_id ++ "/manifest.json")
       (O_manifest manifest)) ;;;
  let files_written := (files_written ++ ["manifest.json"])%list in
  (* 16 *)
  db_commit e (now e) ;;;
  ret (mk_outcome "success" ad_account_id refresh_mode days_to_fetch
         (Z.of_nat (length (sh_ads agg_v1))) files_written (now e)
         (since_date ++ " to " ++ until_date)).

(* ===================================================================== *)
(** * The rate-limit monitor ([AsyncRateLimitMonitor]) *)
(* ===================================================================== *)

(** A value produced by [json.loads].  Numbers are integers: the
    properties below depend on their order only.  An object lists its
    members in order, each name once. *)
Inductive json :=
| JNull
| JBool (b : bool)
| JNum (n : Z)
| JStr (s : string)
| JArr (items : list json)
| JObj (members : list (string * json)).

(** The value of a header: [H_absent] when [headers.get(name, '')] is the
    empty string, else the outcome of [json.loads] ([None] when it raises). *)
Inductive header :=
| H_absent
| H_text (parsed : option json).

Record headers := mk_headers {
  x_business_use_case_usage : header;
  x_ad_account_usage : header;
  x_fb_ads_insights_throttle : header
}.

(** A number in a comparison or in [max]; [bool] is a subclass of [int].
    [None] where Python raises [TypeError] against a number. *)
Definition as_num (v : json) : option Z :=
  match v with
  | JNum n => Some n
  | JBool b => Some (if b then 1 else 0)
  | _ => None
  end.

Fixpoint member (k : string) (members : list (string * json)) : option json :=
  match members with
  | [] => None
  | (k', v) :: rest => if String.eqb k' k then Some v else member k rest
  end.

(** [v.get(k, default)]; [None] is the [AttributeError] of a value that is
    not a dict. *)
Definition py_get (v : json) (k : string) (default_value : json) : option json :=
  match v with
  | JObj members => Some (default default_value (member k members))
  | _ => None
  end.

(** [for x in v]: a list yields its items, a dict its keys, a string its
    characters; [None] is the [TypeError] of a value that is not iterable. *)
Definition py_iter (v : json) : option (list json) :=
  match v with
  | JArr items => Some items
  | JObj members => Some (map (fun m => JStr (fst m)) members)
  | JStr s => Some (map (fun c => JStr (String c EmptyString)) (list_ascii_of_string s))
  | _ => None
  end.

(** A key of the [details] dict; [True == 1] and [False == 0] as keys. *)
Inductive dkey :=
| K_none
| K_num (n : Z)
| K_str (s : string).

#[global] Instance dkey_eq_dec : EqDecision dkey.
Proof. solve_decision. Defined.

(** [None] is the [TypeError] of an unhashable key. *)
Definition hashable (v : json) : option dkey :=
  match v with
  | JNull => Some K_none
  | JBool b => Some (K_num (if b then 1 else 0))
  | JNum n => Some (K_num n)
  | JStr s => Some (K_str s)
  | JArr _ | JObj _ => None
  end.

(** The dict [usage_info]. *)
Record usage_info := mk_usage_info {
  usage_percent : json;
  should_pause : bool;
  pause_seconds : json;
  details : list (dkey * (Z * Z * Z))
}.

Definition usage_info_0 : usage_info := mk_usage_info (JNum 0) false (JNum 0) [].

(** The body of [for usage in usages], up to the first exception; the
    flag tells whether the body completed.  On the integers of [json],
    [int(estimated_time * 60)] is [minutes * 60]; on a wait with a
    fraction the source rounds the product towards zero, down to 0 for a
    wait shorter than a second. *)
Definition buc_usage (info : usage_info) (usage : json) : usage_info * bool :=
  match py_get usage "call_count" (JNum 0),
        py_get usage "total_time" (JNum 0),
        py_get usage "total_cputime" (JNum 0),
        py_get usage "estimated_time_to_regain_access" (JNum 0) with
  | Some call_count, Some total_time, Some total_cputime, Some estimated_time =>
      match as_num call_count, as_num total_time, as_num total_cputime,
            as_num (usage_percent info) with
      | Some calls, Some time, Some cpu, Some percent =>
          let max_usage := Z.max (Z.max calls time) cpu in
          let info :=
            mk_usage_info (JNum (Z.max percent max_usage)) (should_pause info)
              (pause_seconds info) (details info) in
          match as_num estimated_time with
          | Some minutes =>
              let info :=
                if 0 <? minutes
                then mk_usage_info (usage_percent info) true (JNum (minutes * 60))
                       (details info)
                else info in
              match py_get usage "type" (JStr "unknown") ≫= hashable with
              | Some k =>
                  (mk_usage_info (usage_percent info) (should_pause info)
                     (pause_seconds info) (dict_set k (calls, time, cpu) (details info)),
                   true)
              | None => (info, false)
              end
          | None => (info, false)
          end
      | _, _, _, _ => (info, false)
      end
  | _, _, _, _ => (info, false)
  end.

Fixpoint buc_usages (info : usage_info) (usages : list json) : usage_info * bool :=
  match usages with
  | [] => (info, true)
  | usage :: rest =>
      let '(info, completed) := buc_usage info usage in
      if completed then buc_usages info rest else (info, false)
  end.

(** [for acc_key, usages in buc_data.items()] *)
Fixpoint buc_accounts (info : usage_info) (items : list (string * json))
  : usage_info * bool :=
  match items with
  | [] => (info, true)
  | (_, usages) :: rest =>
      match py_iter usages with
      | Some usages =>
          let '(info, completed) := buc_usages info usages in
          if completed then buc_accounts info rest else (info, false)
      | None => (info, false)
      end
  end.

Definition present (h : header) : bool :=
  match h with H_absent => false | H_text _ => true end.

(** The block for [x-business-use-case-usage]; an exception leaves what
    was already written to [usage_info]. *)
Definition parse_buc (h : header) (info : usage_info) : usage_info :=
  match h with
  | H_text (Some (JObj items)) => fst (buc_accounts info items)
  | _ => info
  end.

(** The block for [x-ad-account-usage], run when the first header is
    empty. *)
Definition parse_acc (buc_header acc_header : header) (info : usage_info) : usage_info :=
  if present acc_header && negb (present buc_header) then
    match acc_header with
    | H_text (Some (JObj members as usage_data)) =>
        let info :=
          mk_usage_info (default (JNum 0) (member "acc_id_util_pct" members))
            (should_pause info) (pause_seconds info) (details info) in
        match member "reset_time_duration" members with
        | Some duration =>
            mk_usage_info (usage_percent info) (should_pause info) duration (details info)
        | None => info
        end
    | _ => info
    end
  else info.

(** The block for [x-fb-ads-insights-throttle]. *)
Definition parse_throttle (h : header) (info : usage_info) : usage_info :=
  match h with
  | H_text (Some (JObj members)) =>
      let app_usage := default (JNum 0) (member "app_id_util_pct" members) in
      let acc_usage := default (JNum 0) (member "acc_id_util_pct" members) in
      match as_num (usage_percent info), as_num app_usage, as_num acc_usage with
      | Some percent, Some app, Some acc =>
          mk_usage_info (JNum (Z.max (Z.max percent app) acc)) (should_pause info)
            (pause_seconds info) (details info)
      | _, _, _ => info
      end
  | _ => info
  end.

(** The proactive pause decision; [None] is the [TypeError] of comparing a
    usage that is not a number with [80]. *)
Definition decide_pause (info : usage_info) : option usage_info :=
  match as_num (usage_percent info) with
  | Some percent =>
      if (80 <=? percent) && negb (should_pause info) then
        if 90 <=? percent
        then Some (mk_usage_info (usage_percent info) true (JNum 120) (details info))
        else Some (mk_usage_info (usage_percent info) true (JNum 60) (details info))
      else Some info
  | None => None
  end.

(** The headers alone determine the snapshot. *)
Definition parse_usage (h : headers) : option usage_info :=
  let info := parse_buc (x_business_use_case_usage h) usage_info_0 in
  let info := parse_acc (x_business_use_case_usage h) (x_ad_account_usage h) info in
  let info := parse_throttle (x_fb_ads_insights_throttle h) info in
  decide_pause info.

Record monitor := mk_monitor {
  usage_by_account : gmap string usage_info;
  global_usage : Z
}.

Definition monitor_0 : monitor := mk_monitor ∅ 0.

(** [parse_headers]: the snapshot returned and the monitor after the
    call; [None] when the call raises. *)
Definition parse_headers (m : monitor) (h : headers) (account_id : string)
  : option (usage_info * monitor) :=
  match parse_usage h with
  | Some info =>
      match as_num (usage_percent info) with
      | Some percent =>
          Some (info,
                mk_monitor (<[account_id := info]> (usage_by_account m))
                  (Z.max (global_usage m) percent))
      | None => None
      end
  | None => None
  end.

(** [check_and_throttle]: the pause slept (before jitter), if any, and the
    monitor after the call, where the stored snapshot has lost its flag. *)
Definition check_and_throttle (m : monitor) (account_id : string)
  : option json * monitor :=
  match usage_by_account m !! account_id with
  | Some usage =>
      if should_pause usage then
        (Some (pause_seconds usage),
         mk_monitor
           (<[account_id := mk_usage_info (usage_percent usage) false
                              (pause_seconds usage) (details usage)]>
              (usage_by_account m))
           (global_usage m))
      else (None, m)
  | None => (None, m)
  end.

Definition get_recommended_concurrency (m : monitor) : Z :=
  if 80 <=? global_usage m then 2
  else if 60 <=? global_usage m then 3
  else if 40 <=? global_usage m then 5
  else 8.

(* ===================================================================== *)
(** * The retrying client ([MetaClient._request_with_retry]) *)
(* ===================================================================== *)

(** What the transport does with one request. *)
Inductive reply :=
| Response (status_code : Z) (response_headers : headers) (body : option json)
| Raises_ConnectError
| Raises_ReadTimeout
| Raises_other.

Inductive client_exn :=
| X_MetaAPIError_after_attempts
| X_MetaAPIError_unexpected
| X_ValueError
| X_other.

Inductive client_result :=
| Returns (response_json : json)
| Raises (e : client_exn).

(** What a call does besides returning: proactive pauses, requests sent,
    and backoff sleeps (tagged with the attempt they follow; the delay is
    [base_delay * 2 ** (attempt - 1)] plus jitter). *)
Inductive event :=
| E_throttle (pause : json)
| E_request
| E_backoff (attempt : Z).

Record client_state := mk_client_state {
  rate_monitor : monitor;
  requests_sent : nat;
  events : list event
}.

Definition upper_char (c : ascii) : ascii :=
  let n := N_of_ascii c in
  if ((97 <=? n) && (n <=? 122))%N then ascii_of_N (n - 32) else c.

Fixpoint upper (s : string) : string :=
  match s with
  | EmptyString => EmptyString
  | String c rest => String (upper_char c) (upper rest)
  end.

(** [response.raise_for_status()] raises [HTTPStatusError] unless the
    status is a success (2xx). *)
Definition raise_for_status (status_code : Z) : bool :=
  negb ((200 <=? status_code) && (status_code <=? 299)).

(** What one turn of the [for] loop does before the next turn, if any. *)
Inductive turn :=
| Done (r : client_result)
| Caught.

(** The [try] block of one attempt; [Caught] when it raises one of
    [HTTPStatusError], [ConnectError], [ReadTimeout]. *)
Definition try_attempt (server : nat -> reply) (method account_id : string)
    (st : client_state) : turn * client_state :=
  let '(paused, mon) := check_and_throttle (rate_monitor st) account_id in
  let evs :=
    match paused with
    | Some pause => (events st ++ [E_throttle pause])%list
    | None => events st
    end in
  if negb (String.eqb (upper method) "GET") && negb (String.eqb (upper method) "POST")
  then (Done (Raises X_ValueError), mk_client_state mon (requests_sent st) evs)
  else
    let st := mk_client_state mon (S (requests_sent st)) (evs ++ [E_request])%list in
    match server (requests_sent st - 1)%nat with
    | Response status_code response_headers body =>
        match parse_headers (rate_monitor st) response_headers account_id with
        | Some (_, mon) =>
            let st := mk_client_state mon (requests_sent st) (events st) in
            let return_json :=
              match body with
              | Some j => Done (Returns j)
              | None => Done (Raises X_other)
              end in
            if (400 <=? status_code) && (status_code <? 500) && negb (status_code =? 429)
            then
              if raise_for_status status_code then (Caught, st) else (return_json, st)
            else
              if raise_for_status status_code then (Caught, st) else (return_json, st)
        | None => (Done (Raises X_other), st)
        end
    | Raises_ConnectError => (Caught, st)
    | Raises_ReadTimeout => (Caught, st)
    | Raises_other => (Done (Raises X_other), st)
    end.

(** The turns [attempt, attempt + 1, ...] of
    [for attempt in range(1, attempts + 1)], [remaining] of them. *)
Fixpoint retry_loop (server : nat -> reply) (method account_id : string)
    (attempts attempt : Z) (remaining : nat) (st : client_state)
  : client_result * client_state :=
  match remaining with
  | O => (Raises X_MetaAPIError_unexpected, st)
  | S remaining =>
      match try_attempt server method account_id st with
      | (Done r, st) => (r, st)
      | (Caught, st) =>
          if attempt =? attempts then (Raises X_MetaAPIError_after_attempts, st)
          else
            let st :=
              mk_client_state (rate_monitor st) (requests_sent st)
                (events st ++ [E_backoff attempt])%list in
            retry_loop server method account_id attempts (attempt + 1) remaining st
      end
  end.

Definition _request_with_retry (server : nat -> reply) (method : string)
    (attempts : Z) (account_id : string) (st : client_state)
  : client_result * client_state :=
  retry_loop server method account_id attempts 1 (Z.to_nat attempts) st.

Definition client_state_0 : client_state := mk_client_state monitor_0 0 [].

Definition no_headers : headers := mk_headers H_absent H_absent H_absent.

(* ===================================================================== *)
(** * Vocabulary of the statements *)
(* ===================================================================== *)

(** A (year, month, day) triple names a day of the calendar. *)
Definition valid_ymd (t : Z * Z * Z) : Prop :=
  let '(y, m, d) := t in 1 <= m <= 12 /\ 1 <= d <= _days_in_month y m.

(** Chronological order on triples. *)
Definition ymd_lt (t t' : Z * Z * Z) : Prop :=
  let '(y, m, d) := t in
  let '(y', m', d') := t' in
  y < y' \/ (y = y' /\ (m < m' \/ (m = m' /\ d < d'))).

(** What [month_day] must return for the [n]-th day of a year. *)
Definition month_day_ok (leapyear : bool) (n : Z) : bool :=
  let '(m, d) := month_day leapyear n in
  (1 <=? m) && (m <=? 12) && (1 <=? d)
  && (d <=? (if (m =? 2) && leapyear then 29 else _DAYS_IN_MONTH m))
  && (_DAYS_BEFORE_MONTH m + (if (2 <? m) && leapyear then 1 else 0) + d =? n + 1).

Definition days_of_year : list Z := map Z.of_nat (seq 0 365).

(** 1000-01-01, the first day whose year takes four digits unpadded. *)
Definition ORD_Y1000 : Z := _ymd2ord 1000 1 1.

(** The date under which a row is indexed: [date_start or date]. *)
Definition ad_date (a : ad) : option string := py_or (date_start a) (date a).

(** The prior dataset cannot seed a TAIL refresh on [reference_dt]: it is
    absent, carries no reference date, carries one that does not parse, or
    carries one after [reference_dt]. *)
Definition no_usable_baseline (baseline : option baseline_data) (reference_dt : Z) : Prop :=
  baseline = None
  \/ exists b, baseline = Some b
      /\ (truthy (md_reference_date (bl_metadata b)) = false
          \/ exists s, md_reference_date (bl_metadata b) = Some s
              /\ (strptime_ymd s = None
                  \/ exists baseline_dt, strptime_ymd s = Some baseline_dt
                      /\ reference_dt < baseline_dt)).

(** Rows of the examples. *)
Definition row (id day : string) (spend : string) : ad :=
  mk_ad (Some id) (Some day) None None None [("spend", spend)].

Definition row_jan_2 : ad := row "a1" "2024-01-02" "10".
Definition row_jan_1 : ad := row "a1" "2024-01-01" "10".

Definition row_no_id : ad := mk_ad None (Some "2024-03-30") None None None [].

Definition metadata_of (reference_date : option string) : metadata :=
  mk_metadata "2024-03-22T03:00:00+00:00" reference_date BASELINE 90 0 0 90 3.

(** Sub-windows that follow one another from [since] to [until] with no
    gap and no overlap, each of at most [CHUNK_SIZE_DAYS] days. *)
Fixpoint covers (windows : list (Z * Z)) (since until : Z) : Prop :=
  match windows with
  | [] => since = until + 1
  | (chunk_start, chunk_end) :: rest =>
      chunk_start = since
      /\ chunk_start <= chunk_end <= until
      /\ chunk_end - chunk_start < CHUNK_SIZE_DAYS
      /\ covers rest (chunk_end + 1) until
  end.

(** The two dates a sub-window is fetched with. *)
Definition window_dates (w : Z * Z) : string * string :=
  (isoformat (fst w), isoformat (snd w)).

(** The rows the provider returns for a sub-window. *)
Definition window_rows (e : env) (ad_account_id access_token : string) (w : Z * Z)
  : list ad :=
  default []
    (get_insights_daily e ad_account_id access_token (isoformat (fst w))
       (isoformat (snd w))).

(** A run of the examples: account [act_1] of tenant [t1], on 2024-04-02,
    with a provider that answers [rows] and a validation that reports
    [errors]. *)
Definition shard_0 : shard := mk_shard ["a1"] ["2024-04-01"] "".

Definition example_env (rows : string -> string -> option (list ad))
    (errors : list string) : env :=
  mk_env (fun _ _ => Some "Acme") (fun _ => Some "gAAAAA") (fun _ => Some "EAAB")
    738978 "2024-04-02T03:00:00+00:00"
    (fun _ _ since until => rows since until)
    (fun ads _ => Some ads)
    (fun _ _ _ _ => Some (shard_0, shard_0, shard_0))
    (fun _ _ _ => errors)
    (fun _ => false) (fun _ => false) false.

Definition world_0 : world := mk_world ∅ [] None.

(** A provider that returns one row per sub-window, dated at its start. *)
Definition one_row_per_window (since until : string) : option (list ad) :=
  Some [row "a1" since "10"].

(** A provider that returns the same row twice. *)
Definition duplicated_row (since until : string) : option (list ad) :=
  if String.eqb until "2024-04-01"
  then Some [row "a1" "2024-04-01" "10"; row "a1" "2024-04-01" "10"]
  else Some [].

(** The store holds a raw dataset for the account. *)
Definition raw_dataset_persisted (w : world) (tenant_id ad_account_id : string) : Prop :=
  exists b, store w !! baseline_key tenant_id ad_account_id = Some (O_baseline b).

(** The usage of a snapshot, as a number. *)
Definition percent_of (info : usage_info) : Z := default 0 (as_num (usage_percent info)).

(** The maximum usage over the snapshots the monitor stores. *)
Definition max_stored (m : monitor) : Z :=
  map_fold (fun _ info acc => Z.max (percent_of info) acc) 0 (usage_by_account m).

Definition max_of (l : list Z) : Z := fold_right Z.max 0 l.

(** The three usage fields of an entry of the detailed header. *)
Definition usage_fields (usage : json) : list Z :=
  omap (fun k => py_get usage k (JNum 0) ≫= as_num)
    ["call_count"; "total_time"; "total_cputime"].

(** All usage fields of the detailed header. *)
Definition buc_fields (items : list (string * json)) : list Z :=
  flat_map (fun item => flat_map usage_fields (default [] (py_iter (snd item)))) items.

(** The two fields of the throttle header, when it parses to numbers. *)
Definition throttle_fields (h : header) : list Z :=
  match h with
  | H_text (Some (JObj members)) =>
      match as_num (default (JNum 0) (member "app_id_util_pct" members)),
            as_num (default (JNum 0) (member "acc_id_util_pct" members)) with
      | Some app, Some acc => [app; acc]
      | _, _ => []
      end
  | _ => []
  end.

(** Headers of the examples. *)
Definition detailed_usage (calls : Z) : header :=
  H_text (Some (JObj [("act_1", JArr [JObj [("type", JStr "ads_insights");
                                            ("call_count", JNum calls);
                                            ("total_cputime", JNum 3);
                                            ("total_time", JNum 5)]])])).

Definition throttle_usage (app acc : Z) : header :=
  H_text (Some (JObj [("app_id_util_pct", JNum app); ("acc_id_util_pct", JNum acc)])).

(** The monitor asks for no pause on [account_id]. *)
Definition quiet (m : monitor) (account_id : string) : Prop :=
  forall info, usage_by_account m !! account_id = Some info -> should_pause info = false.

(** Backoff sleeps among the events of a call. *)
Definition is_backoff (ev : event) : bool :=
  match ev with E_backoff _ => true | _ => false end.

(** A server that gives the same answer, without usage headers, to every
    request. *)
Definition always (status_code : Z) : nat -> reply :=
  fun _ => Response status_code no_headers None.

(** What the blocks of [parse_headers] keep true of [usage_info]: the usage
    is a number, and a pause that is asked for lasts a whole number of
    seconds that is not negative. *)
Definition well_formed (info : usage_info) : Prop :=
  (exists p, as_num (usage_percent info) = Some p)
  /\ (should_pause info = true -> exists n, pause_seconds info = JNum n /\ 0 <= n).

(** The methods [_request_with_retry] sends: GET and POST, in any case. *)
Definition supported (method : string) : bool :=
  String.eqb (upper method) "GET" || String.eqb (upper method) "POST".

(** Backoff sleeps of a call so far. *)
Definition backoffs (st : client_state) : nat :=
  length (List.filter is_backoff (events st)).

(** The usage headers of a response are read without an exception. *)
Definition parses (h : headers) : bool :=
  match parse_headers monitor_0 h "global" with Some _ => true | None => false end.

(** A reply after which the client tries again: a connection error, a read
    timeout, or a response with an error status whose usage headers are
    read without an exception. *)
Definition transient (r : reply) : bool :=
  match r with
  | Response status_code response_headers _ =>
      parses response_headers && raise_for_status status_code
  | Raises_ConnectError | Raises_ReadTimeout => true
  | Raises_other => false
  end.

(** The prior dataset a run finds in the store, if any
    ([_load_existing_baseline] as a function of the store). *)
Definition existing_of (w : world) (tenant_id ad_account_id : string)
  : option baseline_data :=
  match store w !! baseline_key tenant_id ad_account_id with
  | Some (O_baseline b) => Some b
  | _ => None
  end.

(** The prior dataset a run loads: none when the read fails. *)
Definition loaded (e : env) (w : world) (tenant_id ad_account_id : string)
  : option baseline_data :=
  if get_fails e (baseline_key tenant_id ad_account_id) then None
  else existing_of w tenant_id ad_account_id.

(** The raw dataset a run builds at step 13 from the merged rows. *)
Definition new_baseline (e : env) (mode : refresh_mode) (days : Z) (merged : list ad)
    (agg_v1 : shard) : baseline_data :=
  mk_baseline
    (mk_metadata (now e) (Some (isoformat (today e - 1))) mode days
       (Z.of_nat (length merged)) (Z.of_nat (length (sh_ads agg_v1)))
       BASELINE_DAYS TAIL_BACKFILL_DAYS)
    merged.

(** The manifest a run builds at step 15. *)
Definition new_manifest (e : env) (mode : refresh_mode) (agg_v1 : shard) : manifest :=
  mk_manifest (now e) (Z.of_nat (length (sh_ads agg_v1))) (sh_periods agg_v1) mode
    BASELINE_DAYS.

(** The files of the optimized directory. *)
Definition shard_files : list string :=
  ["meta_v1.json"; "agg_v1.json"; "summary_v1.json"; "manifest.json"].

(** What a run has computed when it reaches the writes (steps 1 to 12). *)
Record prepared := mk_prepared {
  p_name : string;
  p_access_token : string;
  p_mode : refresh_mode;
  p_days : Z;
  p_rows : list ad;
  p_merged : list ad;
  p_meta : shard;
  p_agg : shard;
  p_summary : shard
}.

Definition prepares (e : env) (ad_account_id tenant_id : string) (w : world)
    (p : prepared) : Prop :=
  let reference_date := isoformat (today e - 1) in
  let existing := loaded e w tenant_id ad_account_id in
  db_ad_account e ad_account_id tenant_id = Some (p_name p)
  /\ (exists token, db_oauth_token e tenant_id = Some token
                    /\ fernet_decrypt e token = Some (p_access_token p))
  /\ _determine_refresh_mode existing reference_date = (p_mode p, p_days p)
  /\ (exists w1, fetch_daily_insights e ad_account_id (p_access_token p) (p_days p) w
                 = (Ok (p_rows p), w1))
  /\ (forall w1,
        merge_step (p_mode p) existing
          (map (tag_account (p_name p) ad_account_id)
             (enrich e (p_rows p) (p_access_token p)))
          reference_date w1 = (Ok (p_merged p), w1))
  /\ transform_to_columnar e (p_merged p) reference_date ad_account_id (p_name p)
     = Some (p_meta p, p_agg p, p_summary p)
  /\ validate_columnar_format e (p_meta p) (p_agg p) (p_summary p) = [].

(** The store after the five writes of a run. *)
Definition store_after (e : env) (ad_account_id tenant_id : string) (p : prepared)
    (s : gmap string object) : gmap string object :=
  let dir := optimized_path tenant_id ad_account_id in
  <[dir ++ "/manifest.json" := O_manifest (new_manifest e (p_mode p) (p_agg p))]>
    (<[dir ++ "/" ++ "summary_v1.json" := O_shard (p_summary p)]>
       (<[dir ++ "/" ++ "agg_v1.json" := O_shard (p_agg p)]>
          (<[dir ++ "/" ++ "meta_v1.json" := O_shard (p_meta p)]>
             (<[baseline_key tenant_id ad_account_id :=
                  O_baseline (new_baseline e (p_mode p) (p_days p) (p_merged p) (p_agg p))]>
                s)))).

(** The environment [e] with a store that refuses the keys [fails]. *)
Definition with_put_fails (e : env) (fails : string -> bool) : env :=
  mk_env (db_ad_account e) (db_oauth_token e) (fernet_decrypt e) (today e) (now e)
    (get_insights_daily e) (enrich_ads_with_creatives e) (transform_to_columnar e)
    (validate_columnar_format e) fails (get_fails e) (commit_fails e).

(** The environment [e] with a store whose reads of the keys [fails]
    raise. *)
Definition with_get_fails (e : env) (fails : string -> bool) : env :=
  mk_env (db_ad_account e) (db_oauth_token e) (fernet_decrypt e) (today e) (now e)
    (get_insights_daily e) (enrich_ads_with_creatives e) (transform_to_columnar e)
    (validate_columnar_format e) (put_fails e) fails (commit_fails e).

(** The environment [e] with a database whose final commit raises. *)
Definition with_commit_fails (e : env) : env :=
  mk_env (db_ad_account e) (db_oauth_token e) (fernet_decrypt e) (today e) (now e)
    (get_insights_daily e) (enrich_ads_with_creatives e) (transform_to_columnar e)
    (validate_columnar_format e) (put_fails e) (get_fails e) true.

(** The environment [e] on another day. *)
Definition on_day (e : env) (day : Z) (t : string) : env :=
  mk_env (db_ad_account e) (db_oauth_token e) (fernet_decrypt e) day t
    (get_insights_daily e) (enrich_ads_with_creatives e) (transform_to_columnar e)
    (validate_columnar_format e) (put_fails e) (get_fails e) (commit_fails e).

(* ===================================================================== *)
(** * Paginated listings ([get_ad_accounts], [get_insights_daily],
      [get_demographics]) *)
(* ===================================================================== *)

(** [bool(v)] *)
Definition py_truthy (v : json) : bool :=
  match v with
  | JNull => false
  | JBool b => b
  | JNum n => negb (n =? 0)
  | JStr s => negb (String.eqb s "")
  | JArr items => match items with [] => false | _ :: _ => true end
  | JObj members => match members with [] => false | _ :: _ => true end
  end.

(** [k in s] on strings. *)
Fixpoint is_substring (k s : string) : bool :=
  if String.prefix k s then true
  else match s with
       | EmptyString => false
       | String _ rest => is_substring k rest
       end.

(** [k in v] for a string [k]: a key of a dict, an item of a list, a
    substring of a string; [None] is the [TypeError] of the other values. *)
Definition py_contains (k : string) (v : json) : option bool :=
  match v with
  | JObj members => Some (match member k members with Some _ => true | None => false end)
  | JArr items =>
      Some (existsb (fun x => match x with JStr s => String.eqb s k | _ => false end) items)
  | JStr s => Some (is_substring k s)
  | _ => None
  end.

(** [v[k]] for a string [k]; [None] is the [KeyError] of a dict without
    the key, or the [TypeError] of a value that is not a dict. *)
Definition py_item (v : json) (k : string) : option json :=
  match v with
  | JObj members => member k members
  | _ => None
  end.

(** The outcome of a listing. *)
Inductive listing :=
| Listed (rows : list json)
| Listing_raises (e : client_exn).

(** [if "data" in response: all.extend(response["data"])]; [None] when it
    raises. *)
Definition extend_with_data (all : list json) (response : json) : option (list json) :=
  match py_contains "data" response with
  | Some true =>
      match py_item response "data" with
      | Some data =>
          match py_iter data with
          | Some items => Some (all ++ items)%list
          | None => None
          end
      | None => None
      end
  | Some false => Some all
  | None => None
  end.

(** What follows a page: [Some (Some next)] when
    ["paging" in response and "next" in response["paging"]] holds,
    [Some None] for the [break], [None] when the test raises. *)
Definition next_page (response : json) : option (option json) :=
  match py_contains "paging" response with
  | Some true =>
      match py_item response "paging" with
      | Some paging =>
          match py_contains "next" paging with
          | Some true =>
              match py_item paging "next" with
              | Some next => Some (Some next)
              | None => None
              end
          | Some false => Some None
          | None => None
          end
      | None => None
      end
  | Some false => Some None
  | None => None
  end.

Section Pagination.

Context {St : Type}.

(** [self._request_with_retry("GET", next_url, params=params, ...)] on the
    state of the client and of the provider; the flag tells whether
    [params] still holds the query or has been emptied. *)
Variable request : St -> json -> bool -> client_result * St.

(** The loop [while next_url and page_count < max_pages], with
    [remaining = max_pages - page_count]; the requests issued are
    logged. *)
Fixpoint paginate (remaining : nat) (next_url : json) (with_params : bool)
    (all : list json) (s : St) (log : list (json * bool))
  : listing * St * list (json * bool) :=
  match remaining with
  | O => (Listed all, s, log)
  | S remaining =>
      if py_truthy next_url then
        let log := (log ++ [(next_url, with_params)])%list in
        match request s next_url with_params with
        | (Raises e, s) => (Listing_raises e, s, log)
        | (Returns response, s) =>
            match extend_with_data all response with
            | Some all =>
                match next_page response with
                | Some (Some next) => paginate remaining next false all s log
                | Some None => (Listed all, s, log)
                | None => (Listing_raises X_other, s, log)
                end
            | None => (Listing_raises X_other, s, log)
            end
        end
      else (Listed all, s, log)
  end.

Definition get_ad_accounts_pages (base_url : string) (s : St)
  : listing * St * list (json * bool) :=
  paginate 50 (JStr (base_url ++ "/me/adaccounts")) true [] s [].

Definition get_insights_daily_pages (base_url ad_account_id : string) (s : St)
  : listing * St * list (json * bool) :=
  paginate 200 (JStr (base_url ++ "/" ++ ad_account_id ++ "/insights")) true [] s [].

Definition get_demographics_pages (base_url ad_account_id : string) (s : St)
  : listing * St * list (json * bool) :=
  paginate 50 (JStr (base_url ++ "/" ++ ad_account_id ++ "/insights")) true [] s [].

(** The provider serves [pages] one after the other from [url]: each is a
    dict with a list of rows under ["data"] and the URL of the next page
    under ["paging"]["next"]; after the last of them, the provider is in
    state [s_end] and the next page to ask for is [url_end]. *)
Fixpoint linked (s : St) (url : json) (with_params : bool) (pages : list (list json * json))
    (s_end : St) (url_end : json) : Prop :=
  match pages with
  | [] => s = s_end /\ url = url_end
  | (rows, next) :: rest =>
      py_truthy url = true
      /\ exists members paging s1,
           request s url with_params = (Returns (JObj members), s1)
           /\ member "data" members = Some (JArr rows)
           /\ member "paging" members = Some (JObj paging)
           /\ member "next" paging = Some next
           /\ linked s1 next false rest s_end url_end
  end.

End Pagination.

(** A page without a link to a next page. *)
Definition last_page (response : json) (rows : list json) : Prop :=
  exists members,
    response = JObj members
    /\ member "data" members = Some (JArr rows)
    /\ (member "paging" members = None
        \/ exists paging, member "paging" members = Some (JObj paging)
                          /\ member "next" paging = None).

(** The requests that fetch [pages] from [url]: only the first of a
    listing carries the query parameters. *)
Fixpoint requests_for (url : json) (with_params : bool) (pages : list (list json * json))
  : list (json * bool) :=
  match pages with
  | [] => []
  | (rows, next) :: rest => (url, with_params) :: requests_for next false rest
  end.

Definition flag_after (with_params : bool) (pages : list (list json * json)) : bool :=
  match pages with [] => with_params | _ :: _ => false end.

(** A provider with an endless listing: page [n] holds the row [n] and
    links to a next page. *)
Definition endless (n : nat) (url : json) (with_params : bool) : client_result * nat :=
  (Returns (JObj [("data", JArr [JNum (Z.of_nat n)]);
                  ("paging", JObj [("next", JStr "https://graph/next")])]),
   S n).

(** A provider with a listing of two pages. *)
Definition two_pages (n : nat) (url : json) (with_params : bool) : client_result * nat :=
  match n with
  | O => (Returns (JObj [("data", JArr [JStr "r1"; JStr "r2"]);
                         ("paging", JObj [("next", JStr "https://graph/p2")])]), 1%nat)
  | _ => (Returns (JObj [("data", JArr [JStr "r3"]);
                         ("paging", JObj [("cursors", JObj [])])]), S n)
  end.

(** A provider that fails on the second page. *)
Definition fails_on_second (n : nat) (url : json) (with_params : bool)
  : client_result * nat :=
  match n with
  | O => (Returns (JObj [("data", JArr [JStr "r1"; JStr "r2"]);
                         ("paging", JObj [("next", JStr "https://graph/p2")])]), 1%nat)
  | _ => (Raises X_MetaAPIError_after_attempts, S n)
  end.

(** [d.get(k)] on a dict in insertion order. *)
Fixpoint dict_get {K V : Type} `{EqDecision K} (k : K) (d : list (K * V)) : option V :=
  match d with
  | [] => None
  | (k', v) :: d' => if decide (k' = k) then Some v else dict_get k d'
  end.

(** The entries whose key passes a test. *)
Definition filter_keys {K V : Type} (P : K -> bool) (d : list (K * V)) : list (K * V) :=
  List.filter (fun e => P (fst e)) d.

(** The last row of a list that is indexed under [k]. *)
Fixpoint last_indexed (k : key) (ads : list ad) : option ad :=
  match ads with
  | [] => None
  | a :: rest =>
      match last_indexed k rest with
      | Some a' => Some a'
      | None => if decide (key_of a = Some k) then Some a else None
      end
  end.

(** The rows that either carry no key or carry one that passes a test. *)
Definition rows_passing (P : key -> bool) (ads : list ad) : list ad :=
  List.filter (fun a => match key_of a with Some k => P k | None => false end) ads.

(** Every entry is stored under the key of its row. *)
Definition keyed (d : list (key * ad)) : Prop :=
  forall k a, In (k, a) d -> key_of a = Some k.

(* ===================================================================== *)
(** * The background refresh job ([routers/accounts.py]) *)
(* ===================================================================== *)

Inductive JobStatus := QUEUED | RUNNING | OK | ERROR.

(** A Python [str]: its code points, in order. *)
Definition text := list N.

(** The columns of a [RefreshJob] that [_run_refresh_job] touches. *)
Record RefreshJob := mk_job {
  job_status : JobStatus;
  job_started_at : option string;
  job_finished_at : option string;
  job_error : option text
}.

(** The database calls of [_run_refresh_job], in the order of the source:
    [db.get] and [db.commit] of step 1, of step 3 and of the handler. *)
Inductive db_call :=
  Get_running | Commit_running | Get_ok | Commit_ok | Get_error | Commit_error.

(** How a call of [_run_refresh_job] ends: it returns; or the [await] is
    left by an exception that [except Exception] does not catch
    ([asyncio.CancelledError], when the task is cancelled), which leaves
    the function after [db.close()]; or one of its own database calls
    raises, after which the state of the session is SQLAlchemy's and is
    not described here. *)
Inductive job_end :=
| Job_returned (jobs : gmap string RefreshJob) (w : world)
| Job_interrupted (jobs : gmap string RefreshJob) (w : world)
| Job_db_raised (c : db_call).

(** [_run_refresh_job]: the job table and the world after the call.
    [raises] tells which database calls of the job raise; [interrupt] is
    the world that a cancelled run leaves behind, when the task is
    cancelled during the [await]; [str] is [str(e)] on the exception of
    the run, [t_start] and [t_end] are the two readings of [_utcnow()]. *)
Definition _run_refresh_job (e : env) (raises : db_call -> bool) (interrupt : option world)
    (str : exn -> text) (t_start t_end : string)
    (job_id fb_account_id tenant_id : string)
    (jobs : gmap string RefreshJob) (w : world) : job_end :=
  if raises Get_running then Job_db_raised Get_running else
  match jobs !! job_id with
  | None => Job_returned jobs w
  | Some job =>
      if raises Commit_running then Job_db_raised Commit_running else
      let jobs :=
        <[job_id := mk_job RUNNING (Some t_start) (job_finished_at job) (job_error job)]>
          jobs in
      match interrupt with
      | Some w => Job_interrupted jobs w
      | None =>
          match sync_account_data e fb_account_id tenant_id w with
          | (Ok _, w) =>
              if raises Get_ok then Job_db_raised Get_ok else
              match jobs !! job_id with
              | Some job =>
                  if raises Commit_ok then Job_db_raised Commit_ok else
                  Job_returned
                    (<[job_id := mk_job OK (job_started_at job) (Some t_end) (job_error job)]>
                       jobs) w
              | None => Job_returned jobs w
              end
          | (Raise err, w) =>
              if raises Get_error then Job_db_raised Get_error else
              match jobs !! job_id with
              | Some job =>
                  if raises Commit_error then Job_db_raised Commit_error else
                  Job_returned
                    (<[job_id := mk_job ERROR (job_started_at job) (Some t_end)
                                   (Some (firstn 1000 (str err)))]> jobs) w
              | None => Job_returned jobs w
              end
          end
      end
  end.

(* ===================================================================== *)
(** * Enrichment with creatives ([MetaClient.enrich_ads_with_creatives]) *)
(* ===================================================================== *)

(** The dict that [fetch_creatives_batch] stores for an ad. *)
Record creative_info := mk_creative {
  c_status : string;
  c_effective_status : string;
  c_format : string;
  c_media_url : string;
  c_creative_status : string
}.

Definition creative_items (c : creative_info) : list (string * string) :=
  [("status", c_status c); ("effective_status", c_effective_status c);
   ("format", c_format c); ("media_url", c_media_url c);
   ("creative_status", c_creative_status c)].

(** [ad.update(items)], for items that are not key fields of the row. *)
Definition ad_update (a : ad) (items : list (string * string)) : ad :=
  mk_ad (ad_id a) (date_start a) (date a) (account_name a) (account_id a)
    (fold_left (fun cols kv => dict_set (fst kv) (snd kv) cols) items (columns a)).

(** [d.setdefault(k, v)] *)
Definition setdefault (k v : string) (cols : list (string * string))
  : list (string * string) :=
  match dict_get k cols with
  | Some _ => cols
  | None => dict_set k v cols
  end.

(** The [else] branch: the four [ad.setdefault] calls. *)
Definition ad_defaults (a : ad) : ad :=
  mk_ad (ad_id a) (date_start a) (date a) (account_name a) (account_id a)
    (setdefault "media_url" ""
       (setdefault "format" "UNKNOWN"
          (setdefault "effective_status" "UNKNOWN"
             (setdefault "status" "UNKNOWN" (columns a))))).

(** [[l[i:i+n] for i in range(0, len(l), n)]] *)
Definition slices {A : Type} (n : nat) (l : list A) : list (list A) :=
  map (fun j => firstn n (skipn (j * n) l)) (seq 0 ((length l + n - 1) / n)).

(** [creative_data.update(result)] *)
Definition update_all (creative_data : gmap string creative_info)
    (result : list (string * creative_info)) : gmap string creative_info :=
  fold_left (fun data kv => <[fst kv := snd kv]> data) result creative_data.

(** The last loop, on one row. *)
Definition enrich_row (creative_data : gmap string creative_info) (a : ad) : ad :=
  match ad_id a with
  | Some id =>
      if truthy (Some id) then
        match creative_data !! id with
        | Some creative => ad_update a (creative_items creative)
        | None => ad_defaults a
        end
      else ad_defaults a
  | None => ad_defaults a
  end.

Section Enrichment.

(** [list(set(...))]: the order in which a set lists its elements. *)
Variable set_order : list string -> list string.

(** [fetch_creatives_batch], which catches every exception and returns a
    dict. *)
Variable fetch_creatives_batch : list string -> string -> list (string * creative_info).

Definition creative_batches (ads : list ad) : list (list string) :=
  let ad_ids := set_order (omap ad_id ads) in
  slices 50 ad_ids.

Definition fetch_all_creatives (batches : list (list string)) (access_token : string)
  : gmap string creative_info :=
  fold_left
    (fun creative_data chunk =>
       let results := map (fun batch => fetch_creatives_batch batch access_token) chunk in
       fold_left update_all results creative_data)
    (slices 25 batches) ∅.

Definition enrich_ads (ads : list ad) (access_token : string) : list ad :=
  match ads with
  | [] => ads
  | _ :: _ =>
      let creative_data := fetch_all_creatives (creative_batches ads) access_token in
      map (enrich_row creative_data) ads
  end.

End Enrichment.

(** The four fields every enriched row carries. *)
Definition display_fields : list string :=
  ["status"; "effective_status"; "format"; "media_url"].

(** [list(set(l))] lists the elements of [l], each once. *)
Definition lists_a_set (set_order : list string -> list string) : Prop :=
  forall l, List.NoDup (set_order l) /\ forall x, In x (set_order l) <-> In x l.

(* ===================================================================== *)
(** * One batch of creatives ([MetaClient.fetch_creatives_batch]) *)
(* ===================================================================== *)

(** The dict stored for an ad, with the values as the provider sent them. *)
Record creative_entry := mk_creative_entry {
  ce_status : json;
  ce_effective_status : json;
  ce_format : string;
  ce_media_url : json;
  ce_creative_status : json
}.

(** [v == 200] *)
Definition is_200 (v : json) : bool :=
  match v with
  | JNum n => n =? 200
  | _ => false
  end.

Section CreativesBatch.

(** [client.post(self.base_url, data=params)] for a batch of ids. *)
Variable post : list string -> string -> reply.

(** [json.loads] on a string; [None] when it raises. *)
Variable loads : string -> option json.

(** [f"{v}"] *)
Variable py_str : json -> string.

(** The [if]/[elif] chain that sets [format_type] and [media_url]; [None]
    when it raises. *)
Definition creative_format (creative : json) : option (string * json) :=
  video_id ← py_get creative "video_id" JNull;
  if py_truthy video_id
  then Some ("VIDEO", JStr ("https://www.facebook.com/watch/?v=" ++ py_str video_id))
  else
    image_url ← py_get creative "image_url" JNull;
    if py_truthy image_url then Some ("IMAGE", image_url)
    else
      permalink ← py_get creative "instagram_permalink_url" JNull;
      if py_truthy permalink then Some ("CAROUSEL", permalink)
      else
        spec ← py_get creative "object_story_spec" JNull;
        if py_truthy spec then
          story ← py_get creative "object_story_spec" (JObj []);
          video_data ← py_get story "video_data" JNull;
          if py_truthy video_data then Some ("VIDEO", JStr "")
          else
            link_data ← py_get story "link_data" (JObj []);
            image_hash ← py_get link_data "image_hash" JNull;
            if py_truthy image_hash then Some ("IMAGE", JStr "")
            else Some ("UNKNOWN", JStr "")
        else Some ("UNKNOWN", JStr "").

(** The loop [for i, resp in enumerate(batch_responses)]; [None] when a
    turn raises. *)
Fixpoint batch_loop (ad_ids : list string) (i : nat) (batch_responses : list json)
    (results : list (string * creative_entry)) : option (list (string * creative_entry)) :=
  match batch_responses with
  | [] => Some results
  | resp :: rest =>
      code ← py_get resp "code" JNull;
      if is_200 code then
        body ← py_item resp "body";
        ad_data ← match body with JStr s => loads s | _ => None end;
        ad_id ← nth_error ad_ids i;
        creative ← py_get ad_data "creative" (JObj []);
        format ← creative_format creative;
        status ← py_get ad_data "status" (JStr "UNKNOWN");
        effective_status ← py_get ad_data "effective_status" (JStr "UNKNOWN");
        creative_status ← py_get creative "status" (JStr "UNKNOWN");
        batch_loop ad_ids (S i) rest
          (dict_set ad_id
             (mk_creative_entry status effective_status (fst format) (snd format)
                creative_status)
             results)
      else batch_loop ad_ids (S i) rest results
  end.

(** [fetch_creatives_batch]: every exception of the [try] block is caught
    and turned into the empty dict. *)
Definition fetch_creatives_batch (ad_ids : list string) (access_token : string)
  : list (string * creative_entry) :=
  match ad_ids with
  | [] => []
  | _ :: _ =>
      let ad_ids := firstn 50 ad_ids in
      match post ad_ids access_token with
      | Response status_code _ body =>
          if negb (status_code =? 200) then []
          else
            match body ≫= py_iter with
            | Some batch_responses => default [] (batch_loop ad_ids 0 batch_responses [])
            | None => []
            end
      | _ => []
      end
  end.

End CreativesBatch.

(** A provider that answers a batch of two ads: a video, then an error. *)
Definition two_answers (ad_ids : list string) (access_token : string) : reply :=
  Response 200 no_headers
    (Some (JArr [JObj [("code", JNum 200); ("body", JStr "video")];
                 JObj [("code", JNum 400); ("body", JStr "error")]])).

Definition loads_example (s : string) : option json :=
  if String.eqb s "video"
  then Some (JObj [("status", JStr "ACTIVE");
                   ("creative", JObj [("video_id", JStr "7"); ("image_url", JStr "i.png")])])
  else None.

Definition str_example (v : json) : string :=
  match v with JStr s => s | _ => "" end.

(** The row that the two indexing loops leave under [k]: the last row of
    [new_ads] indexed under it, else the last one of [existing_ads]. *)
Definition last_write (k : key) (existing new : list ad) : option ad :=
  match last_indexed k new with
  | Some a => Some a
  | None => last_indexed k existing
  end.

(* ===================================================================== *)
(** * Dicts in insertion order *)
(* ===================================================================== *)

Section OrderedDict.
Context {K V : Type} `{EqDecision K}.
Implicit Types (k : K) (v : V) (d : list (K * V)).

Lemma dict_set_keys_present k v d :
  In k (map fst d) -> map fst (dict_set k v d) = map fst d.
Proof.
  induction d as [|[k' v'] d IH]; simpl; [tauto|].
  intros Hin. destruct (decide (k' = k)) as [->|Hne]; simpl; [reflexivity|].
  f_equal. apply IH. destruct Hin; [contradiction | assumption].
Qed.

Lemma dict_set_keys_fresh k v d :
  ~ In k (map fst d) -> dict_set k v d = (d ++ [(k, v)])%list.
Proof.
  induction d as [|[k' v'] d IH]; simpl; [reflexivity|].
  intros Hnot. destruct (decide (k' = k)) as [->|Hne].
  - exfalso. apply Hnot. now left.
  - f_equal. apply IH. intros Hin. apply Hnot. now right.
Qed.

Lemma dict_set_has_key k v d : In k (map fst (dict_set k v d)).
Proof.
  induction d as [|[k' v'] d IH]; simpl; [now left|].
  destruct (decide (k' = k)) as [->|Hne]; simpl; [now left | now right].
Qed.

Lemma dict_set_keeps_keys k k' v d :
  In k' (map fst d) -> In k' (map fst (dict_set k v d)).
Proof.
  induction d as [|[k0 v0] d IH]; simpl; [tauto|].
  destruct (decide (k0 = k)) as [->|Hne]; simpl; intros [?|?]; auto.
Qed.

Lemma dict_set_keys_inv k k' v d :
  In k' (map fst (dict_set k v d)) -> k' = k \/ In k' (map fst d).
Proof.
  induction d as [|[k0 v0] d IH]; simpl.
  - intros [?|[]]. now left.
  - destruct (decide (k0 = k)) as [->|Hne]; simpl; intros [Heq|Hin]; auto.
    destruct (IH Hin); auto.
Qed.

Lemma dict_set_NoDup k v d : List.NoDup (map fst d) -> List.NoDup (map fst (dict_set k v d)).
Proof.
  induction d as [|[k' v'] d IH]; simpl; intros Hnd.
  - constructor; [intros [] | constructor].
  - inversion Hnd as [|? ? Hnot Hnd']; subst.
    destruct (decide (k' = k)) as [->|Hne]; simpl; constructor; auto.
    intros Hin. apply dict_set_keys_inv in Hin as [->|Hin]; [congruence | auto].
Qed.

Lemma dict_set_entries k v d e :
  In e (dict_set k v d) -> e = (k, v) \/ In e d.
Proof.
  induction d as [|[k' v'] d IH]; simpl.
  - intros [<-|[]]. now left.
  - destruct (decide (k' = k)) as [->|Hne]; simpl; intros [<-|Hin]; auto.
    destruct (IH Hin); auto.
Qed.

Lemma dict_get_set k k' v d :
  dict_get k' (dict_set k v d) = if decide (k = k') then Some v else dict_get k' d.
Proof.
  induction d as [|[k0 v0] d IH]; simpl.
  - destruct (decide (k = k')); reflexivity.
  - destruct (decide (k0 = k)) as [->|Hne]; simpl.
    + destruct (decide (k = k')); reflexivity.
    + destruct (decide (k0 = k')) as [->|Hne'].
      * destruct (decide (k = k')); [congruence | reflexivity].
      * apply IH.
Qed.

Lemma dict_get_In k v d : List.NoDup (map fst d) -> In (k, v) d -> dict_get k d = Some v.
Proof.
  induction d as [|[k' v'] d IH]; simpl; [tauto|].
  intros Hnd [Heq|Hin].
  - inversion Heq; subst. destruct (decide (k = k)); [reflexivity | contradiction].
  - inversion Hnd as [|? ? Hnot Hnd']; subst.
    destruct (decide (k' = k)) as [->|Hne]; [|auto].
    exfalso. apply Hnot. change k with (fst (k, v)). now apply in_map.
Qed.

(** Two dicts with the same keys in the same order and the same value at
    each key are the same dict. *)
Lemma dict_ext d1 d2 :
  List.NoDup (map fst d1) ->
  map fst d1 = map fst d2 ->
  (forall k, dict_get k d1 = dict_get k d2) ->
  d1 = d2.
Proof.
  revert d2. induction d1 as [|[k1 v1] d1 IH]; intros [|[k2 v2] d2]; simpl;
    try discriminate; [reflexivity|].
  intros Hnd Hkeys Hget. inversion Hkeys; subst. inversion Hnd as [|? ? Hnot Hnd']; subst.
  pose proof (Hget k2) as Hk. destruct (decide (k2 = k2)); [|contradiction].
  inversion Hk; subst. f_equal. apply IH; auto.
  intros k. specialize (Hget k). destruct (decide (k2 = k)) as [->|Hne]; [|assumption].
  assert (Hnone : forall d, ~ In k (map fst d) -> dict_get k d = None).
  { clear. induction d as [|[k' v'] d IHd]; simpl; [reflexivity|].
    intros Hn. destruct (decide (k' = k)) as [->|?]; [exfalso; apply Hn; now left|].
    apply IHd. intros ?. apply Hn. now right. }
  rewrite !Hnone; auto. congruence.
Qed.

Lemma filter_keys_set (P : K -> bool) k v d :
  filter_keys P (dict_set k v d)
  = if P k then dict_set k v (filter_keys P d) else filter_keys P d.
Proof.
  unfold filter_keys. induction d as [|[k' v'] d IH]; simpl.
  - destruct (P k); reflexivity.
  - destruct (decide (k' = k)) as [->|Hne]; simpl.
    + destruct (P k); simpl; [|reflexivity].
      destruct (decide (k = k)); [reflexivity | contradiction].
    + rewrite IH. destruct (P k'), (P k); simpl; try reflexivity.
      destruct (decide (k' = k)); [contradiction | reflexivity].
Qed.

Lemma filter_keys_idem (P : K -> bool) d :
  filter_keys P (filter_keys P d) = filter_keys P d.
Proof.
  unfold filter_keys. induction d as [|[k v] d IH]; simpl; [reflexivity|].
  destruct (P k) eqn:E; simpl; [rewrite E; f_equal|]; exact IH.
Qed.

Lemma filter_keys_NoDup (P : K -> bool) d :
  List.NoDup (map fst d) -> List.NoDup (map fst (filter_keys P d)).
Proof.
  unfold filter_keys. induction d as [|[k v] d IH]; simpl; intros Hnd; [constructor|].
  inversion Hnd as [|? ? Hnot Hnd']; subst.
  destruct (P k); simpl; auto. constructor; auto.
  intros Hin. apply Hnot. apply in_map_iff in Hin as [e [He Hin]].
  apply filter_In in Hin as [Hin _]. subst. now apply in_map.
Qed.
End OrderedDict.

(* ===================================================================== *)
(** * The index built by [_upsert_daily_ads] *)
(* ===================================================================== *)

Lemma key_of_truthy a k :
  key_of a = Some k ->
  truthy (ad_id a) = true /\ truthy (py_or (date_start a) (date a)) = true.
Proof.
  unfold key_of. destruct (truthy (ad_id a)), (truthy (py_or (date_start a) (date a)));
    simpl; try discriminate. auto.
Qed.

Lemma key_of_None a :
  key_of a = None <->
  truthy (ad_id a) = false \/ truthy (py_or (date_start a) (date a)) = false.
Proof.
  unfold key_of.
  destruct (ad_id a) as [i|] eqn:Ei; destruct (py_or (date_start a) (date a)) as [d|] eqn:Ed;
    simpl; try (split; [auto | reflexivity]; fail).
  - destruct (negb (String.eqb i "")), (negb (String.eqb d "")); simpl;
      split; auto; try discriminate; intros [?|?]; discriminate.
  - destruct (negb (String.eqb i "")); simpl; split; auto.
Qed.

Lemma index_ad_keyed d a : keyed d -> keyed (index_ad d a).
Proof.
  unfold keyed, index_ad. intros Hd k b Hin.
  destruct (key_of a) as [ka|] eqn:Ea; [|eauto].
  apply dict_set_entries in Hin as [Heq|Hin]; [|eauto]. congruence.
Qed.

Lemma index_ad_NoDup d a : List.NoDup (map fst d) -> List.NoDup (map fst (index_ad d a)).
Proof.
  unfold index_ad. destruct (key_of a); [apply dict_set_NoDup | auto].
Qed.

Lemma index_fold_keyed ads d : keyed d -> keyed (fold_left index_ad ads d).
Proof.
  revert d. induction ads as [|a ads IH]; simpl; auto using index_ad_keyed.
Qed.

Lemma index_fold_NoDup ads d :
  List.NoDup (map fst d) -> List.NoDup (map fst (fold_left index_ad ads d)).
Proof.
  revert d. induction ads as [|a ads IH]; simpl; auto using index_ad_NoDup.
Qed.

Lemma build_index_keyed existing new : keyed (build_index existing new).
Proof.
  unfold build_index. do 2 apply index_fold_keyed. intros k a [].
Qed.

Lemma build_index_NoDup existing new : List.NoDup (map fst (build_index existing new)).
Proof.
  unfold build_index. do 2 apply index_fold_NoDup. constructor.
Qed.

Lemma filter_keys_keyed (P : key -> bool) d : keyed d -> keyed (filter_keys P d).
Proof.
  unfold keyed, filter_keys. intros Hd k a Hin. apply filter_In in Hin as [Hin _]. eauto.
Qed.

Lemma filter_keys_index_ad (P : key -> bool) d a :
  filter_keys P (index_ad d a)
  = match key_of a with
    | Some k => if P k then index_ad (filter_keys P d) a else filter_keys P d
    | None => filter_keys P d
    end.
Proof.
  unfold index_ad. destruct (key_of a) as [k|]; [|reflexivity].
  apply filter_keys_set.
Qed.

Lemma filter_keys_index_fold (P : key -> bool) ads d :
  filter_keys P (fold_left index_ad ads d)
  = fold_left index_ad (rows_passing P ads) (filter_keys P d).
Proof.
  revert d. induction ads as [|a ads IH]; intros d; simpl; [reflexivity|].
  rewrite IH, filter_keys_index_ad.
  destruct (key_of a) as [k|]; [destruct (P k)|]; reflexivity.
Qed.

(** Indexing the rows of a dict again rebuilds the dict. *)
Lemma reindex d d0 :
  keyed d -> List.NoDup (map fst (d0 ++ d)) ->
  fold_left index_ad (map snd d) d0 = (d0 ++ d)%list.
Proof.
  revert d0. induction d as [|[k a] d IH]; intros d0 Hk Hnd; simpl.
  - now rewrite app_nil_r.
  - unfold index_ad at 2. rewrite (Hk k a) by now left.
    rewrite dict_set_keys_fresh.
    + rewrite IH.
      * now rewrite <- app_assoc.
      * intros k' a' Hin. apply Hk. now right.
      * now rewrite <- app_assoc.
    + rewrite map_app in Hnd. simpl in Hnd. apply NoDup_remove_2 in Hnd.
      intros Hin. apply Hnd. apply in_or_app. now left.
Qed.

Lemma dict_get_index_fold k ads d :
  dict_get k (fold_left index_ad ads d)
  = match last_indexed k ads with
    | Some a => Some a
    | None => dict_get k d
    end.
Proof.
  revert d. induction ads as [|a ads IH]; intros d; simpl; [reflexivity|].
  rewrite IH. destruct (last_indexed k ads); [reflexivity|].
  unfold index_ad. destruct (decide (key_of a = Some k)) as [E|N].
  - rewrite E, dict_get_set. destruct (decide (k = k)); [reflexivity | contradiction].
  - destruct (key_of a) as [k'|]; [|reflexivity].
    rewrite dict_get_set. destruct (decide (k' = k)); [congruence | reflexivity].
Qed.

Lemma index_fold_keeps_keys k ads d :
  In k (map fst d) -> In k (map fst (fold_left index_ad ads d)).
Proof.
  revert d. induction ads as [|a ads IH]; intros d Hin; simpl; [assumption|].
  apply IH. unfold index_ad. destruct (key_of a); [now apply dict_set_keeps_keys | assumption].
Qed.

(** Rows whose keys are all in the dict leave its keys as they are. *)
Lemma index_fold_same_keys ads d :
  (forall a k, In a ads -> key_of a = Some k -> In k (map fst d)) ->
  map fst (fold_left index_ad ads d) = map fst d.
Proof.
  revert d. induction ads as [|a ads IH]; intros d Hin; simpl; [reflexivity|].
  assert (Ha : map fst (index_ad d a) = map fst d).
  { unfold index_ad. destruct (key_of a) as [k|] eqn:E; [|reflexivity].
    apply dict_set_keys_present. apply (Hin a); [now left | assumption]. }
  rewrite IH, Ha; [reflexivity|].
  intros b k Hb Hk. rewrite Ha. apply (Hin b); [now right | assumption].
Qed.

Lemma index_fold_has_keys ads d a k :
  In a ads -> key_of a = Some k -> In k (map fst (fold_left index_ad ads d)).
Proof.
  revert d. induction ads as [|b ads IH]; intros d Hin Hk; simpl; [destruct Hin|].
  destruct Hin as [->|Hin].
  - apply index_fold_keeps_keys. unfold index_ad. rewrite Hk. apply dict_set_has_key.
  - now apply IH.
Qed.

(** Overlaying the same rows a second time changes nothing. *)
Lemma index_fold_idem ads d :
  List.NoDup (map fst d) ->
  fold_left index_ad ads (fold_left index_ad ads d) = fold_left index_ad ads d.
Proof.
  intros Hnd. apply dict_ext.
  - now do 2 apply index_fold_NoDup.
  - apply index_fold_same_keys. intros a k Ha Hk. now apply index_fold_has_keys with a.
  - intros k. rewrite dict_get_index_fold.
    destruct (last_indexed k ads) eqn:E; [|reflexivity].
    now rewrite dict_get_index_fold, E.
Qed.

Lemma clean_as_filter cutoff d :
  clean cutoff d = map snd (filter_keys (fun k => String.leb cutoff (snd k)) d).
Proof. reflexivity. Qed.

(** The merge of a cleaned result with the rows that produced it. *)
Lemma clean_build_index_clean cutoff existing new :
  clean cutoff (build_index (clean cutoff (build_index existing new)) new)
  = clean cutoff (build_index existing new).
Proof.
  set (P := fun k : key => String.leb cutoff (snd k)).
  rewrite !clean_as_filter. fold P. f_equal.
  unfold build_index at 1.
  rewrite (reindex _ []); simpl.
  - rewrite filter_keys_index_fold, filter_keys_idem.
    unfold build_index. rewrite !filter_keys_index_fold.
    apply index_fold_idem, index_fold_NoDup. constructor.
  - apply filter_keys_keyed, build_index_keyed.
  - apply filter_keys_NoDup, build_index_NoDup.
Qed.

(* ===================================================================== *)
(** * The calendar *)
(* ===================================================================== *)

Lemma month_day_checked :
  forallb (fun n => month_day_ok true n && month_day_ok false n) days_of_year = true.
Proof. vm_compute. reflexivity. Qed.

Lemma month_day_spec leapyear n :
  0 <= n < 365 -> month_day_ok leapyear n = true.
Proof.
  intros Hn. pose proof month_day_checked as H.
  rewrite forallb_forall in H.
  specialize (H n). 
  assert (Hin : In n days_of_year).
  { unfold days_of_year. apply in_map_iff. exists (Z.to_nat n). split; [lia|].
    apply in_seq. lia. }
  apply H in Hin. apply andb_true_iff in Hin as [Ht Hf]. destruct leapyear; assumption.
Qed.

Lemma leap_flag a b c e :
  0 <= b <= 3 -> 0 <= c <= 24 -> 0 <= e <= 3 ->
  _is_leap (a * 400 + 1 + (b * 100 + c * 4 + e))
  = (e =? 3) && (negb (c =? 24) || (b =? 3)).
Proof.
  intros. unfold _is_leap.
  repeat match goal with
  | |- context [?x =? ?y] => 
      let E := fresh "E" in destruct (x =? y) eqn:E; 
      [apply Z.eqb_eq in E | apply Z.eqb_neq in E]
  end; simpl; try reflexivity; exfalso;
  Z.to_euclidean_division_equations; lia.
Qed.

Lemma days_before_year_normal a b c e :
  0 <= b <= 3 -> 0 <= c <= 24 -> 0 <= e <= 3 ->
  _days_before_year (a * 400 + 1 + (b * 100 + c * 4 + e))
  = 146097 * a + 36524 * b + 1461 * c + 365 * e.
Proof.
  intros. unfold _days_before_year.
  Z.to_euclidean_division_equations; lia.
Qed.

Lemma ord2ymd_spec n :
  1 <= n ->
  let '(y, m, d) := _ord2ymd n in
  1 <= y /\ 1 <= m <= 12 /\ 1 <= d <= _days_in_month y m /\ _ymd2ord y m d = n.
Proof.
  intros Hn. unfold _ord2ymd.
  set (N := n - 1).
  pose proof (Z.div_mod N 146097 ltac:(lia)) as H1.
  pose proof (Z.mod_pos_bound N 146097 ltac:(lia)) as B1.
  assert (A0 : 0 <= N / 146097) by (apply Z.div_pos; lia).
  set (a := N / 146097) in *. set (r1 := N mod 146097) in *.
  pose proof (Z.div_mod r1 36524 ltac:(lia)) as H2.
  pose proof (Z.mod_pos_bound r1 36524 ltac:(lia)) as B2.
  assert (B0 : 0 <= r1 / 36524) by (apply Z.div_pos; lia).
  set (b := r1 / 36524) in *. set (r2 := r1 mod 36524) in *.
  pose proof (Z.div_mod r2 1461 ltac:(lia)) as H3.
  pose proof (Z.mod_pos_bound r2 1461 ltac:(lia)) as B3.
  assert (C0 : 0 <= r2 / 1461) by (apply Z.div_pos; lia).
  set (c := r2 / 1461) in *. set (r3 := r2 mod 1461) in *.
  pose proof (Z.div_mod r3 365 ltac:(lia)) as H4.
  pose proof (Z.mod_pos_bound r3 365 ltac:(lia)) as B4.
  assert (E0 : 0 <= r3 / 365) by (apply Z.div_pos; lia).
  set (e := r3 / 365) in *. set (r4 := r3 mod 365) in *.
  clearbody a r1 b r2 c r3 e r4.
  destruct ((e =? 4) || (b =? 4)) eqn:Esp.
  - (* last day of a leap year *)
    assert (Hy : exists q, a * 400 + 1 + (b * 100 + c * 4 + e) - 1 = 4 * q
                 /\ (q mod 25 <> 0 \/ q mod 100 = 0) /\ 1 <= q
                 /\ 146097 * a + 36524 * b + 1461 * c + 365 * e = 1461 * q - (q / 25) + (q / 100) - 1
           /\ r4 = 0).
    { apply orb_true_iff in Esp as [E|E]; apply Z.eqb_eq in E.
      - exists (a * 100 + b * 25 + c + 1). 
        assert (c <= 23) by lia. assert (b <= 3) by lia.
        repeat split; try lia.
        + left. Z.to_euclidean_division_equations; lia.
        + Z.to_euclidean_division_equations; lia.
      - exists (a * 100 + 100). repeat split; try lia.
        + right. Z.to_euclidean_division_equations; lia.
        + Z.to_euclidean_division_equations; lia. }
    destruct Hy as (q & Hq & Hleap & Hq1 & Hdays & Hr4).
    rewrite Hq.
    assert (Hl : _is_leap (4 * q) = true).
    { unfold _is_leap.
      replace ((4 * q) mod 4) with 0 by (Z.to_euclidean_division_equations; lia).
      simpl. apply orb_true_iff. destruct Hleap as [Hl|Hl].
      - left. apply negb_true_iff, Z.eqb_neq. Z.to_euclidean_division_equations; lia.
      - right. apply Z.eqb_eq. Z.to_euclidean_division_equations; lia. }
    unfold _ymd2ord, _days_in_month, _days_before_month. rewrite Hl. simpl.
    repeat split; try lia.
    unfold _days_before_year. subst N. Z.to_euclidean_division_equations; lia.
  - apply orb_false_iff in Esp as [E4 B4']. apply Z.eqb_neq in E4, B4'.
    assert (Hb : 0 <= b <= 3) by lia.
    assert (Hc : 0 <= c <= 24) by lia.
    assert (He : 0 <= e <= 3) by lia.
    pose proof (month_day_spec ((e =? 3) && (negb (c =? 24) || (b =? 3))) r4 B4) as Hmd.
    unfold month_day_ok in Hmd.
    rewrite <- (leap_flag a b c e Hb Hc He) in *.
    set (y := a * 400 + 1 + (b * 100 + c * 4 + e)) in *.
    destruct (month_day (_is_leap y) r4) as [m d].
    repeat (apply andb_true_iff in Hmd as [Hmd ?]).
    unfold _ymd2ord, _days_in_month, _days_before_month.
    subst y. rewrite days_before_year_normal by assumption.
    repeat split; try lia.
Qed.

Lemma days_before_year_mono y y' :
  y <= y' -> _days_before_year y + 365 * (y' - y) <= _days_before_year y'.
Proof.
  intros. unfold _days_before_year. Z.to_euclidean_division_equations; lia.
Qed.

Lemma days_before_year_next y :
  _days_before_year (y + 1) = _days_before_year y + 365 + (if _is_leap y then 1 else 0).
Proof.
  unfold _days_before_year, _is_leap.
  replace (y + 1 - 1) with y by lia.
  destruct (y mod 4 =? 0) eqn:E4; destruct (y mod 100 =? 0) eqn:E100;
    destruct (y mod 400 =? 0) eqn:E400; simpl;
    rewrite ?Z.eqb_eq, ?Z.eqb_neq in *;
    Z.to_euclidean_division_equations; lia.
Qed.

Ltac leap_cases :=
  repeat match goal with
  | H : context [if _is_leap ?y then _ else _] |- _ =>
      let E := fresh "E" in destruct (_is_leap y) eqn:E
  | |- context [if _is_leap ?y then _ else _] =>
      let E := fresh "E" in destruct (_is_leap y) eqn:E
  end; lia.

Lemma month_cases m : 1 <= m <= 12 ->
  m = 1 \/ m = 2 \/ m = 3 \/ m = 4 \/ m = 5 \/ m = 6 \/ m = 7 \/ m = 8 \/ m = 9 \/
  m = 10 \/ m = 11 \/ m = 12.
Proof. lia. Qed.

Lemma within_year y m d :
  1 <= m <= 12 -> 1 <= d <= _days_in_month y m ->
  1 <= _days_before_month y m + d <= 365 + (if _is_leap y then 1 else 0).
Proof.
  intros Hm Hd. unfold _days_in_month, _days_before_month in *.
  destruct (_is_leap y);
    destruct (month_cases m Hm) as [->|[->|[->|[->|[->|[->|[->|[->|[->|[->|[->| ->]]]]]]]]]]];
    simpl in *; lia.
Qed.

Lemma month_before y m m' d :
  1 <= m -> m < m' -> m' <= 12 -> d <= _days_in_month y m ->
  _days_before_month y m + d <= _days_before_month y m'.
Proof.
  intros H1 Hlt H12 Hd. unfold _days_in_month, _days_before_month in *.
  assert (Hm : 1 <= m <= 12) by lia. assert (Hm' : 1 <= m' <= 12) by lia.
  destruct (_is_leap y);
    destruct (month_cases m Hm) as [->|[->|[->|[->|[->|[->|[->|[->|[->|[->|[->| ->]]]]]]]]]]];
    destruct (month_cases m' Hm') as [->|[->|[->|[->|[->|[->|[->|[->|[->|[->|[->| ->]]]]]]]]]]];
    simpl in *; lia.
Qed.

Lemma ymd2ord_lt t t' :
  valid_ymd t -> valid_ymd t' -> ymd_lt t t' ->
  (let '(y, m, d) := t in _ymd2ord y m d) < (let '(y, m, d) := t' in _ymd2ord y m d).
Proof.
  destruct t as [[y m] d], t' as [[y' m'] d']. simpl.
  intros [Hm Hd] [Hm' Hd'] Hlt. unfold _ymd2ord.
  pose proof (within_year y m d Hm Hd) as W.
  pose proof (within_year y' m' d' Hm' Hd') as W'.
  destruct Hlt as [Hy|[-> [Hmm|[-> Hdd]]]].
  - pose proof (days_before_year_next y) as S.
    pose proof (days_before_year_mono (y + 1) y' ltac:(lia)).
    leap_cases.
  - pose proof (month_before y' m m' d ltac:(lia) Hmm ltac:(lia) ltac:(lia)).
    leap_cases.
  - lia.
Qed.

Lemma ymd_lt_total t t' : ymd_lt t t' \/ t = t' \/ ymd_lt t' t.
Proof.
  destruct t as [[y m] d], t' as [[y' m'] d']. simpl.
  destruct (Z.compare_spec y y'), (Z.compare_spec m m'), (Z.compare_spec d d'); subst;
    try (left; lia); try (right; right; lia).
  right. left. reflexivity.
Qed.

Lemma ord2ymd_valid n : 1 <= n -> valid_ymd (_ord2ymd n).
Proof.
  intros Hn. pose proof (ord2ymd_spec n Hn) as H.
  destruct (_ord2ymd n) as [[y m] d]. simpl. tauto.
Qed.

Lemma ord2ymd_roundtrip n :
  1 <= n -> (let '(y, m, d) := _ord2ymd n in _ymd2ord y m d) = n.
Proof.
  intros Hn. pose proof (ord2ymd_spec n Hn) as H.
  destruct (_ord2ymd n) as [[y m] d]. tauto.
Qed.

(** [_ord2ymd] is strictly increasing. *)
Lemma ord2ymd_lt n n' : 1 <= n -> n < n' -> ymd_lt (_ord2ymd n) (_ord2ymd n').
Proof.
  intros Hn Hlt.
  pose proof (ord2ymd_roundtrip n Hn) as R.
  pose proof (ord2ymd_roundtrip n' ltac:(lia)) as R'.
  destruct (ymd_lt_total (_ord2ymd n) (_ord2ymd n')) as [H|[H|H]]; [assumption| |].
  - rewrite H in R. lia.
  - apply ymd2ord_lt in H; try (apply ord2ymd_valid; lia). lia.
Qed.

Lemma ord2ymd_year_bounds n :
  1 <= n <= MAXORD -> 1 <= fst (fst (_ord2ymd n)) <= 9999.
Proof.
  intros [Hn Hmax]. pose proof (ord2ymd_spec n Hn) as H.
  destruct (_ord2ymd n) as [[y m] d]. simpl. destruct H as (Hy & Hm & Hd & Ho).
  split; [assumption|].
  destruct (Z_le_gt_dec y 9999) as [|Hbig]; [assumption|exfalso].
  pose proof (days_before_year_mono 10000 y ltac:(lia)) as M.
  pose proof (within_year y m d Hm Hd) as W.
  unfold _ymd2ord in Ho. unfold MAXORD in Hmax.
  change (_days_before_year 10000) with 3652059 in M.
  leap_cases.
Qed.

Lemma digit_char_compare a b :
  0 <= a <= 9 -> 0 <= b <= 9 ->
  Ascii.compare (digit_char a) (digit_char b) = (a ?= b).
Proof.
  intros Ha Hb. unfold Ascii.compare, digit_char.
  rewrite !N_ascii_embedding by lia.
  rewrite Z2N.inj_compare by lia. apply Z.add_compare_mono_l.
Qed.

Lemma compare_pad2 m m' s s' :
  0 <= m <= 99 -> 0 <= m' <= 99 ->
  String.compare (pad2 m ++ s) (pad2 m' ++ s')
  = match m ?= m' with Eq => String.compare s s' | c => c end.
Proof.
  intros Hm Hm'. unfold pad2. simpl.
  rewrite !digit_char_compare by (Z.to_euclidean_division_equations; lia).
  destruct (Z.compare_spec (m / 10 mod 10) (m' / 10 mod 10));
    destruct (Z.compare_spec (m mod 10) (m' mod 10));
    destruct (Z.compare_spec m m'); try reflexivity; exfalso;
    Z.to_euclidean_division_equations; lia.
Qed.

Lemma pad4_as_pad2 y : pad4 y = pad2 (y / 100) ++ pad2 (y mod 100).
Proof.
  unfold pad4, pad2. simpl.
  replace (y / 100 / 10 mod 10) with (y / 1000 mod 10)
    by (Z.to_euclidean_division_equations; lia).
  replace (y / 100 mod 10) with ((y / 100) mod 10) by reflexivity.
  replace ((y mod 100) / 10 mod 10) with (y / 10 mod 10)
    by (Z.to_euclidean_division_equations; lia).
  replace ((y mod 100) mod 10) with (y mod 10)
    by (Z.to_euclidean_division_equations; lia).
  reflexivity.
Qed.

Lemma compare_pad4 y y' s s' :
  0 <= y <= 9999 -> 0 <= y' <= 9999 ->
  String.compare (pad4 y ++ s) (pad4 y' ++ s')
  = match y ?= y' with Eq => String.compare s s' | c => c end.
Proof.
  intros Hy Hy'. rewrite !pad4_as_pad2.
  change ((pad2 (y / 100) ++ pad2 (y mod 100)) ++ s)
    with (pad2 (y / 100) ++ (pad2 (y mod 100) ++ s)).
  change ((pad2 (y' / 100) ++ pad2 (y' mod 100)) ++ s')
    with (pad2 (y' / 100) ++ (pad2 (y' mod 100) ++ s')).
  rewrite !compare_pad2 by (Z.to_euclidean_division_equations; lia).
  destruct (Z.compare_spec (y / 100) (y' / 100));
    destruct (Z.compare_spec (y mod 100) (y' mod 100));
    destruct (Z.compare_spec y y'); try reflexivity; exfalso;
    Z.to_euclidean_division_equations; lia.
Qed.

Lemma format_ymd_leb t t' :
  0 <= fst (fst t) <= 9999 -> 0 <= fst (fst t') <= 9999 ->
  valid_ymd t -> valid_ymd t' ->
  String.leb (format_ymd t) (format_ymd t') = true <-> ~ ymd_lt t' t.
Proof.
  destruct t as [[y m] d], t' as [[y' m'] d']. simpl.
  intros Hy Hy' [Hm Hd] [Hm' Hd'].
  assert (Hd99 : 0 <= d <= 99).
  { unfold _days_in_month in Hd. destruct ((m =? 2) && _is_leap y); [lia|].
    destruct (month_cases m Hm) as [->|[->|[->|[->|[->|[->|[->|[->|[->|[->|[->| ->]]]]]]]]]]];
      simpl in Hd; lia. }
  assert (Hd99' : 0 <= d' <= 99).
  { unfold _days_in_month in Hd'. destruct ((m' =? 2) && _is_leap y'); [lia|].
    destruct (month_cases m' Hm') as [->|[->|[->|[->|[->|[->|[->|[->|[->|[->|[->| ->]]]]]]]]]]];
      simpl in Hd'; lia. }
  unfold String.leb.
  rewrite compare_pad4 by lia.
  change ("-" ++ pad2 m ++ "-" ++ pad2 d) with (String "-" (pad2 m ++ String "-" (pad2 d ++ ""))).
  change ("-" ++ pad2 m' ++ "-" ++ pad2 d') with (String "-" (pad2 m' ++ String "-" (pad2 d' ++ ""))).
  cbn [String.compare]. change (Ascii.compare "-" "-") with Eq. cbv iota.
  rewrite compare_pad2 by lia.
  cbn [String.compare]. change (Ascii.compare "-" "-") with Eq. cbv iota.
  rewrite compare_pad2 by lia. cbn [String.compare].
  destruct (Z.compare_spec y y'); destruct (Z.compare_spec m m');
    destruct (Z.compare_spec d d'); split; intros; try lia; try discriminate; reflexivity.
Qed.

(** Dates in ISO form compare as text the way they compare as dates. *)
Lemma isoformat_leb c o :
  1 <= c <= MAXORD -> 1 <= o <= MAXORD ->
  String.leb (isoformat c) (isoformat o) = (c <=? o).
Proof.
  intros Hc Ho. unfold isoformat.
  pose proof (format_ymd_leb (_ord2ymd c) (_ord2ymd o)) as F.
  pose proof (ord2ymd_year_bounds c Hc). pose proof (ord2ymd_year_bounds o Ho).
  specialize (F ltac:(lia) ltac:(lia) (ord2ymd_valid c ltac:(lia)) (ord2ymd_valid o ltac:(lia))).
  destruct (Z.leb_spec c o) as [Hle|Hgt].
  - apply F. intros Hlt.
    destruct (Z.eq_dec c o) as [->|Hne].
    + destruct (_ord2ymd o) as [[y m] d]. simpl in Hlt. lia.
    + pose proof (ord2ymd_lt c o ltac:(lia) ltac:(lia)) as L.
      destruct (_ord2ymd o) as [[y m] d], (_ord2ymd c) as [[y' m'] d']. simpl in *. lia.
  - destruct (String.leb _ _) eqn:E; [|reflexivity].
    exfalso. apply (proj1 F eq_refl). apply ord2ymd_lt; lia.
Qed.

(** ** What [strptime] returns *)

Lemma in_range_bounds lo hi c : in_range lo hi c = true -> lo <= digit_val c <= hi.
Proof. unfold in_range. intros H. apply andb_prop in H as [H1 H2]. apply andb_prop in H1 as [_ H1]. lia. Qed.

Lemma is_digit_bounds c : is_digit c = true -> 0 <= digit_val c <= 9.
Proof. unfold is_digit, digit_val. intros H. apply andb_prop in H as [H1 H2]. lia. Qed.

Lemma parse_month_range s m r : parse_month s = Some (m, r) -> 1 <= m <= 12.
Proof.
  unfold parse_month. destruct s as [|c1 [|c2 rest2]]; try discriminate.
  destruct (Ascii.eqb c2 "-").
  - destruct (in_range 1 9 c1) eqn:E; [|discriminate].
    intros [= <- <-]. apply in_range_bounds in E. lia.
  - destruct rest2 as [|c3 rest3]; [discriminate|].
    destruct (Ascii.eqb c3 "-"); [|discriminate].
    destruct (Ascii.eqb c1 "1" && in_range 0 2 c2) eqn:E1.
    + intros [= <- <-]. apply andb_prop in E1 as [_ E1]. apply in_range_bounds in E1. lia.
    + destruct (Ascii.eqb c1 "0" && in_range 1 9 c2) eqn:E2; [|discriminate].
      intros [= <- <-]. apply andb_prop in E2 as [_ E2]. apply in_range_bounds in E2. lia.
Qed.

Lemma parse_day_range s d r : parse_day s = Some (d, r) -> 1 <= d.
Proof.
  unfold parse_day. destruct s as [|c1 [|c2 rest2]]; try discriminate.
  - destruct (in_range 1 9 c1) eqn:E; [|discriminate].
    intros [= <- <-]. apply in_range_bounds in E. lia.
  - repeat match goal with
    | |- (if ?b then _ else _) = _ -> _ => let E := fresh "E" in destruct b eqn:E
    end; try discriminate; intros [= <- <-];
    repeat match goal with
    | H : _ && _ = true |- _ => apply andb_prop in H as [? ?]
    | H : in_range _ _ _ = true |- _ => apply in_range_bounds in H
    | H : is_digit _ = true |- _ => apply is_digit_bounds in H
    end; lia.
Qed.

Lemma strptime_ymd_range s o : strptime_ymd s = Some o -> 1 <= o <= MAXORD.
Proof.
  unfold strptime_ymd.
  destruct s as [|y1 [|y2 [|y3 [|y4 [|sep rest]]]]]; try discriminate.
  destruct (is_digit y1 && is_digit y2 && is_digit y3 && is_digit y4 && Ascii.eqb sep "-")
    eqn:E; [|discriminate].
  do 4 (apply andb_prop in E as [E ?]).
  repeat match goal with H : is_digit _ = true |- _ => apply is_digit_bounds in H end.
  set (year := 1000 * digit_val y1 + 100 * digit_val y2 + 10 * digit_val y3 + digit_val y4).
  assert (Hy : 0 <= year <= 9999) by (subst year; lia).
  clearbody year.
  destruct (parse_month rest) as [[month rest']|] eqn:Em; [|discriminate].
  destruct (parse_day rest') as [[day [|? ?]]|] eqn:Ed; try discriminate.
  destruct ((1 <=? year) && (day <=? _days_in_month year month)) eqn:Ev; [|discriminate].
  intros [= <-]. apply andb_prop in Ev as [Ey Edim].
  apply parse_month_range in Em. apply parse_day_range in Ed.
  pose proof (within_year year month day Em ltac:(lia)) as W.
  pose proof (days_before_year_mono 1 year ltac:(lia)) as L.
  pose proof (days_before_year_next year) as S.
  pose proof (days_before_year_mono (year + 1) 10000 ltac:(lia)) as U.
  change (_days_before_year 1) with 0 in L.
  change (_days_before_year 10000) with 3652059 in U.
  unfold _ymd2ord, MAXORD. leap_cases.
Qed.

(** ** Membership in the cleaned result *)

Lemma clean_In cutoff d a :
  In a (clean cutoff d) <-> exists k, In (k, a) d /\ String.leb cutoff (snd k) = true.
Proof.
  unfold clean. rewrite in_map_iff. split.
  - intros [[k a'] [Heq Hin]]. simpl in Heq. subst a'.
    apply filter_In in Hin as [Hin Hleb]. exists k. auto.
  - intros [k [Hin Hleb]]. exists (k, a). split; [reflexivity|].
    apply filter_In. auto.
Qed.

Lemma key_of_date a k : key_of a = Some k -> ad_date a = Some (snd k).
Proof.
  unfold key_of, ad_date.
  destruct (truthy (ad_id a) && truthy (py_or (date_start a) (date a))); [|discriminate].
  destruct (ad_id a), (py_or (date_start a) (date a)); try discriminate.
  now intros [= <-].
Qed.


(** ** The chunked fetch *)

Lemma fetch_chunks_covers (e : env) (ad_account_id access_token : string)
    (chunk_start end_date : Z) (daily_insights : list ad) (w : world) :
  (forall since until,
     get_insights_daily e ad_account_id access_token since until <> None) ->
  chunk_start <= end_date + 1 ->
  exists windows,
    fetch_chunks e ad_account_id access_token chunk_start end_date daily_insights w
    = (Ok (daily_insights
           ++ flat_map (window_rows e ad_account_id access_token) windows)%list,
       mk_world (store w) (fetch_log w ++ map window_dates windows)%list
         (last_refresh_at w))
    /\ covers windows chunk_start end_date
    /\ Z.of_nat (length windows)
       = (end_date - chunk_start + CHUNK_SIZE_DAYS) / CHUNK_SIZE_DAYS.
Proof.
  intros Hok.
  funelim (fetch_chunks e ad_account_id access_token chunk_start end_date daily_insights w);
    intros Hle.
  - set (chunk_end := Z.min (chunk_start + (CHUNK_SIZE_DAYS - 1)) end_date) in *.
    unfold call_get_insights_daily in *.
    destruct (get_insights_daily e ad_account_id access_token (isoformat chunk_start)
                (isoformat chunk_end)) as [chunk_data|] eqn:Eget;
      [|exfalso; eapply Hok; eassumption].
    clear Heqcall.
    match goal with
    | IH : result (list ad) -> _ |- _ =>
        destruct (IH (Ok chunk_data)
                    (mk_world (store w)
                       (fetch_log w ++ [(isoformat chunk_start, isoformat chunk_end)])%list
                       (last_refresh_at w))
                    chunk_data Hok)
          as (windows & Hrun & Hcov & Hlen)
    end.
    { subst chunk_end. unfold CHUNK_SIZE_DAYS. lia. }
    exists ((chunk_start, chunk_end) :: windows). split; [|split].
    + rewrite Hrun. simpl. unfold window_rows at 2. simpl. rewrite Eget. simpl.
      rewrite <- !app_assoc. reflexivity.
    + simpl. repeat split; try assumption; subst chunk_end; unfold CHUNK_SIZE_DAYS; lia.
    + simpl length. rewrite Nat2Z.inj_succ, Hlen. subst chunk_end.
      unfold CHUNK_SIZE_DAYS in *.
      destruct (Z.min_spec (chunk_start + (30 - 1)) end_date) as [[? ->]|[? ->]];
        Z.to_euclidean_division_equations; lia.
  - exists []. simpl. rewrite !app_nil_r. destruct w. split; [reflexivity|].
    split; [lia|]. unfold CHUNK_SIZE_DAYS. Z.to_euclidean_division_equations; lia.
Qed.

(* ===================================================================== *)
(** * The merge: idempotence, key-less rows, retention *)
(* ===================================================================== *)

(** C6. [upsert] is idempotent: merging the rows [new] into the result of
    merging them into [existing], with the same reference date, gives that
    result again (and raises when the first merge raises). *)
Theorem upsert_idempotent (existing new : list ad) (reference_date : string) :
  (_upsert_daily_ads existing new reference_date
     ≫= fun merged => _upsert_daily_ads merged new reference_date)
  = _upsert_daily_ads existing new reference_date.
Proof.
  unfold _upsert_daily_ads. destruct (cutoff_date reference_date) as [cutoff|] eqn:E;
    simpl; [|reflexivity].
  f_equal. apply clean_build_index_clean.
Qed.

(** C10. Every row that [_upsert_daily_ads] returns has a non-empty
    [ad_id] and a non-empty date ([date_start or date]); a row of either
    input list that lacks one of the two is not in the result. *)
Theorem upsert_excludes_keyless (existing new : list ad) (reference_date : string)
    (merged : list ad) :
  _upsert_daily_ads existing new reference_date = Some merged ->
  (forall a, In a merged -> truthy (ad_id a) = true /\ truthy (ad_date a) = true)
  /\ (forall a, In a (existing ++ new)%list ->
        truthy (ad_id a) = false \/ truthy (ad_date a) = false ->
        ~ In a merged).
Proof.
  unfold _upsert_daily_ads. destruct (cutoff_date reference_date) as [cutoff|]; [|discriminate].
  intros [= <-].
  assert (Hkeyed : forall a, In a (clean cutoff (build_index existing new)) ->
                             truthy (ad_id a) = true /\ truthy (ad_date a) = true).
  { intros a Hin. apply clean_In in Hin as [k [Hin _]].
    apply build_index_keyed in Hin. now apply key_of_truthy in Hin. }
  split; [exact Hkeyed|].
  intros a _ Hlacks Hin. apply Hkeyed in Hin as [Hid Hdate].
  destruct Hlacks; congruence.
Qed.

Lemma upsert_excludes_keyless_witness :
  _upsert_daily_ads [row_no_id] [row_jan_2] "2024-04-01" = Some [row_jan_2]
  /\ (forall a, In a [row_jan_2] -> truthy (ad_id a) = true /\ truthy (ad_date a) = true)
  /\ (forall a, In a ([row_no_id] ++ [row_jan_2])%list ->
        truthy (ad_id a) = false \/ truthy (ad_date a) = false ->
        ~ In a [row_jan_2]).
Proof.
  split; [reflexivity|].
  apply (upsert_excludes_keyless [row_no_id] [row_jan_2] "2024-04-01"). reflexivity.
Defined.

Lemma dict_get_Some_In {K V : Type} `{EqDecision K} (k : K) (v : V) (d : list (K * V)) :
  dict_get k d = Some v -> In (k, v) d.
Proof.
  induction d as [|[k' v'] d IH]; simpl; [discriminate|].
  destruct (decide (k' = k)) as [->|Hne]; [intros [= ->]; now left | right; auto].
Qed.

Lemma build_index_get k existing new :
  dict_get k (build_index existing new) = last_write k existing new.
Proof.
  unfold build_index, last_write. rewrite !dict_get_index_fold. simpl.
  now destruct (last_indexed k new), (last_indexed k existing).
Qed.

Lemma build_index_entry k a existing new :
  In (k, a) (build_index existing new) <-> last_write k existing new = Some a.
Proof.
  rewrite <- build_index_get. split.
  - apply dict_get_In, build_index_NoDup.
  - apply dict_get_Some_In.
Qed.

Lemma build_index_has_key existing new a k :
  In a (existing ++ new)%list -> key_of a = Some k ->
  exists a', last_write k existing new = Some a'.
Proof.
  intros Hin Hk.
  assert (Hkey : In k (map fst (build_index existing new))).
  { unfold build_index. apply in_app_or in Hin as [Hin|Hin].
    - apply index_fold_keeps_keys. now apply index_fold_has_keys with a.
    - now apply index_fold_has_keys with a. }
  apply in_map_iff in Hkey as [[k' a'] [Heq Hentry]]. simpl in Heq. subst k'.
  exists a'. now apply build_index_entry.
Qed.

(** C7. With a reference date that parses (and whose cut-off falls in a
    year of four digits), [_upsert_daily_ads] returns, and it prunes by
    date and by nothing else.  No row of the result is dated before the
    reference date minus 90 days.  For every row of either input list that
    carries a key and whose date is the ISO form of a day: when that day is
    not before the cut-off its key is kept, the result holding the last row
    written under that key; when it is before, neither the row nor any row
    with its key is in the result; and the row itself is in the result if
    and only if its day is not before the cut-off and it is the last row
    written under its key. *)
Theorem upsert_prunes_before_cutoff (existing new : list ad) (reference_date : string)
    (reference_dt : Z) :
  strptime_ymd reference_date = Some reference_dt ->
  ORD_Y1000 <= reference_dt - BASELINE_DAYS ->
  exists merged,
    _upsert_daily_ads existing new reference_date = Some merged
    /\ (forall a day,
          In a merged ->
          1 <= day <= MAXORD ->
          ad_date a = Some (isoformat day) ->
          reference_dt - BASELINE_DAYS <= day)
    /\ (forall a k day,
          In a (existing ++ new)%list ->
          key_of a = Some k ->
          1 <= day <= MAXORD ->
          ad_date a = Some (isoformat day) ->
          (reference_dt - BASELINE_DAYS <= day ->
           exists a', last_write k existing new = Some a'
                      /\ In a' merged /\ key_of a' = Some k)
          /\ (day < reference_dt - BASELINE_DAYS ->
              ~ In a merged /\ forall a', In a' merged -> key_of a' <> Some k)
          /\ (In a merged <->
              reference_dt - BASELINE_DAYS <= day /\ last_write k existing new = Some a)).
Proof.
  intros Hparse Hyear. pose proof (strptime_ymd_range _ _ Hparse) as Hrange.
  assert (Hcut : 1 <= reference_dt - BASELINE_DAYS <= MAXORD).
  { unfold ORD_Y1000, BASELINE_DAYS in *.
    change (_ymd2ord 1000 1 1) with 364878 in Hyear. lia. }
  unfold _upsert_daily_ads, cutoff_date. rewrite Hparse.
  destruct (Z.leb_spec MINORD (reference_dt - BASELINE_DAYS)) as [_|Hlt];
    [|unfold MINORD in Hlt; lia].
  eexists. split; [reflexivity|]. unfold strftime_ymd.
  set (cutoff := reference_dt - BASELINE_DAYS) in *.
  assert (Hkept : forall a k day,
             key_of a = Some k -> 1 <= day <= MAXORD -> ad_date a = Some (isoformat day) ->
             (In a (clean (isoformat cutoff) (build_index existing new))
              <-> cutoff <= day /\ last_write k existing new = Some a)).
  { intros a k day Hk Hday Hdate.
    pose proof (key_of_date _ _ Hk) as Hd. rewrite Hdate in Hd. injection Hd as Hd.
    rewrite clean_In. split.
    - intros [k' [Hin Hleb]].
      pose proof (build_index_keyed _ _ _ _ Hin) as Hk'.
      assert (k' = k) by congruence. subst k'.
      rewrite <- Hd, isoformat_leb in Hleb by assumption.
      split; [lia | now apply build_index_entry].
    - intros [Hle Hlast]. exists k. split; [now apply build_index_entry|].
      rewrite <- Hd, isoformat_leb by assumption. lia. }
  assert (Hinv : forall a day,
             In a (clean (isoformat cutoff) (build_index existing new)) ->
             1 <= day <= MAXORD -> ad_date a = Some (isoformat day) -> cutoff <= day).
  { intros a day Hin Hday Hdate. pose proof Hin as Hin'.
    apply clean_In in Hin' as [k [Hentry _]].
    pose proof (build_index_keyed _ _ _ _ Hentry) as Hk.
    now apply (Hkept a k day Hk Hday Hdate) in Hin as [Hle _]. }
  split; [exact Hinv|].
  intros a k day Hin Hk Hday Hdate.
  pose proof (key_of_date _ _ Hk) as Hd. rewrite Hdate in Hd. injection Hd as Hd.
  split; [|split].
  - intros Hle. destruct (build_index_has_key existing new a k Hin Hk) as [a' Hlast].
    exists a'. split; [exact Hlast|].
    assert (Hk' : key_of a' = Some k)
      by (apply build_index_entry in Hlast; exact (build_index_keyed _ _ _ _ Hlast)).
    split; [|exact Hk'].
    apply (Hkept a' k day Hk' Hday); [|auto].
    rewrite (key_of_date _ _ Hk'). now rewrite Hd.
  - intros Hold. split.
    + intros Hmerged. apply (Hinv a day Hmerged Hday) in Hdate. lia.
    + intros a' Hmerged Hk'.
      assert (Hdate' : ad_date a' = Some (isoformat day))
        by (rewrite (key_of_date _ _ Hk'); now rewrite Hd).
      apply (Hinv a' day Hmerged Hday) in Hdate'. lia.
  - exact (Hkept a k day Hk Hday Hdate).
Qed.

Lemma upsert_prunes_before_cutoff_witness :
  strptime_ymd "2024-04-01" = Some 738977
  /\ ORD_Y1000 <= 738977 - BASELINE_DAYS
  /\ exists merged,
       _upsert_daily_ads [] [row_jan_2; row_jan_1] "2024-04-01" = Some merged
       /\ In row_jan_2 merged /\ ~ In row_jan_1 merged.
Proof.
  split; [reflexivity|]. split; [vm_compute; discriminate|].
  destruct (upsert_prunes_before_cutoff [] [row_jan_2; row_jan_1] "2024-04-01" 738977)
    as (merged & Hm & _ & Hrows); [reflexivity | vm_compute; discriminate |].
  exists merged. split; [exact Hm|]. split.
  - apply (Hrows row_jan_2 ("a1", "2024-01-02") 738887);
      [now left | reflexivity | vm_compute; intuition discriminate | reflexivity |].
    split; [vm_compute; discriminate | reflexivity].
  - apply (Hrows row_jan_1 ("a1", "2024-01-01") 738886);
      [right; now left | reflexivity | vm_compute; intuition discriminate | reflexivity |].
    vm_compute. reflexivity.
Defined.

(* ===================================================================== *)
(** * The mode decision and the chunked fetch *)
(* ===================================================================== *)

(** C8. For a reference date that parses, [_determine_refresh_mode]
    returns [(BASELINE, 90)] exactly when the prior dataset is absent, has
    no reference date, has one that does not parse, or has one strictly
    after the reference date; in every other case it returns [(TAIL, 3)]. *)
Theorem determine_refresh_mode_cases (baseline : option baseline_data)
    (reference_date : string) (reference_dt : Z) :
  strptime_ymd reference_date = Some reference_dt ->
  (no_usable_baseline baseline reference_dt ->
   _determine_refresh_mode baseline reference_date = (BASELINE, 90))
  /\ (~ no_usable_baseline baseline reference_dt ->
      _determine_refresh_mode baseline reference_date = (TAIL, 3)).
Proof.
  intros Href. unfold _determine_refresh_mode, no_usable_baseline. rewrite Href.
  destruct baseline as [b|]; [|split; [reflexivity | intros N; exfalso; auto]].
  destruct (md_reference_date (bl_metadata b)) as [s|] eqn:Edate; simpl.
  - destruct (negb (String.eqb s "")) eqn:Etruthy; simpl.
    + destruct (strptime_ymd s) as [baseline_dt|] eqn:Eparse.
      * destruct (Z.ltb_spec (reference_dt - baseline_dt) 0) as [Hlt|Hge].
        -- split; [reflexivity|]. intros N. exfalso. apply N. right.
           exists b. split; [reflexivity|]. right. exists s. split; [exact Edate|].
           right. exists baseline_dt. split; [exact Eparse | lia].
        -- split; [|reflexivity].
           intros [Hnone|(b' & Hb' & [Hfalse|(s' & Hs' & [Hfail|(dt & Hdt & Hlt)])])];
             [discriminate Hnone| | |]; injection Hb' as <-; rewrite Edate in *.
           ++ simpl in Hfalse. congruence.
           ++ injection Hs' as <-. congruence.
           ++ injection Hs' as <-. rewrite Eparse in Hdt. injection Hdt as <-. lia.
      * split; [reflexivity|]. intros N. exfalso. apply N. right.
        exists b. split; [reflexivity|]. right. exists s. auto.
    + split; [reflexivity|]. intros N. exfalso. apply N. right.
      exists b. split; [reflexivity|]. left. rewrite Edate. simpl. exact Etruthy.
  - split; [reflexivity|]. intros N. exfalso. apply N. right.
    exists b. split; [reflexivity|]. left. rewrite Edate. reflexivity.
Qed.

Lemma determine_refresh_mode_cases_witness :
  strptime_ymd "2024-04-01" = Some 738977
  /\ _determine_refresh_mode None "2024-04-01" = (BASELINE, 90)
  /\ _determine_refresh_mode
       (Some (mk_baseline (metadata_of (Some "2024-03-22")) [])) "2024-04-01"
     = (TAIL, 3)
  /\ _determine_refresh_mode
       (Some (mk_baseline (metadata_of (Some "2024-04-02")) [])) "2024-04-01"
     = (BASELINE, 90).
Proof.
  split; [reflexivity|]. split; [|split].
  - apply (determine_refresh_mode_cases None "2024-04-01" 738977); [reflexivity|].
    left. reflexivity.
  - apply (determine_refresh_mode_cases _ "2024-04-01" 738977); [reflexivity|].
    intros [Hnone|(b & [= <-] & [Hfalse|(s & [= <-] & [Hfail|(dt & Hdt & Hlt)])])];
      [discriminate Hnone | discriminate Hfalse | discriminate Hfail |].
    vm_compute in Hdt. injection Hdt as <-. lia.
  - apply (determine_refresh_mode_cases _ "2024-04-01" 738977); [reflexivity|].
    right. eexists. split; [reflexivity|]. right. eexists. split; [reflexivity|].
    right. exists 738978. split; [reflexivity | lia].
Defined.

(** C9. When the window is longer than the chunk size and every call to
    the provider succeeds, the fetch issues sub-fetches whose date ranges
    follow one another without gap or overlap from [today - days] to
    yesterday, none longer than 30 days, and returns their rows in order;
    for a window of 90 days there are exactly 3 of them. *)
Theorem chunked_fetch_covers_window (e : env) (ad_account_id access_token : string)
    (days_to_fetch : Z) (w : world) :
  CHUNK_SIZE_DAYS < days_to_fetch ->
  (forall since until,
     get_insights_daily e ad_account_id access_token since until <> None) ->
  exists windows w',
    fetch_daily_insights e ad_account_id access_token days_to_fetch w
    = (Ok (flat_map (window_rows e ad_account_id access_token) windows), w')
    /\ fetch_log w' = (fetch_log w ++ map window_dates windows)%list
    /\ store w' = store w
    /\ covers windows (today e - days_to_fetch) (today e - 1)
    /\ (days_to_fetch = 90 -> length windows = 3%nat).
Proof.
  intros Hdays Hok. unfold fetch_daily_insights, except.
  destruct (Z.ltb_spec CHUNK_SIZE_DAYS days_to_fetch) as [_|Hle]; [|lia].
  destruct (fetch_chunks_covers e ad_account_id access_token (today e - days_to_fetch)
              (today e - 1) [] w Hok) as (windows & Hrun & Hcov & Hlen).
  { unfold CHUNK_SIZE_DAYS in Hdays. lia. }
  rewrite Hrun. simpl. eexists windows, _. split; [reflexivity|].
  repeat split; try assumption.
  intros ->. unfold CHUNK_SIZE_DAYS in Hlen.
  replace (today e - 1 - (today e - 90) + 30) with 119 in Hlen by lia.
  change (119 / 30) with 3 in Hlen. lia.
Qed.

Lemma chunked_fetch_covers_window_witness :
  CHUNK_SIZE_DAYS < 90
  /\ (forall since until,
        get_insights_daily (example_env one_row_per_window []) "act_1" "EAAB" since until
        <> None)
  /\ exists windows w',
       fetch_daily_insights (example_env one_row_per_window []) "act_1" "EAAB" 90 world_0
       = (Ok (flat_map (window_rows (example_env one_row_per_window []) "act_1" "EAAB")
                windows), w')
       /\ fetch_log w' = (fetch_log world_0 ++ map window_dates windows)%list
       /\ store w' = store world_0
       /\ covers windows (738978 - 90) (738978 - 1)
       /\ (90 = 90 -> length windows = 3%nat).
Proof.
  split; [reflexivity|]. split; [intros since until; discriminate|].
  apply (chunked_fetch_covers_window (example_env one_row_per_window []) "act_1" "EAAB"
           90 world_0); [reflexivity | intros since until; discriminate].
Defined.

(** The sub-windows of the 90 days before 2024-04-02. *)
Example chunked_fetch_2024_04_02 :
  fetch_log
    (snd (fetch_daily_insights (example_env one_row_per_window []) "act_1" "EAAB" 90
            world_0))
  = [("2024-01-03", "2024-02-01"); ("2024-02-02", "2024-03-02");
     ("2024-03-03", "2024-04-01")].
Proof. vm_compute. reflexivity. Qed.

(* ===================================================================== *)
(** * One run: what is written, and when *)
(* ===================================================================== *)

Lemma append_inv_head (p a b : string) : p ++ a = p ++ b -> a = b.
Proof.
  induction p as [|c p IH]; intros H; [assumption|].
  change (String c (p ++ a) = String c (p ++ b)) in H. injection H as H. auto.
Qed.

Lemma append_assoc (a b c : string) : (a ++ b) ++ c = a ++ (b ++ c).
Proof.
  induction a as [|x a IH]; [reflexivity|].
  change (String x ((a ++ b) ++ c) = String x (a ++ (b ++ c))). f_equal. exact IH.
Qed.

Lemma baseline_key_not_optimized tenant_id ad_account_id filename :
  baseline_key tenant_id ad_account_id
  <> optimized_path tenant_id ad_account_id ++ "/" ++ filename.
Proof.
  unfold baseline_key, optimized_path. rewrite append_assoc. intros H.
  apply append_inv_head in H. vm_compute in H. discriminate.
Qed.

Lemma fetch_chunks_store e ad_account_id access_token chunk_start end_date daily_insights w :
  store (snd (fetch_chunks e ad_account_id access_token chunk_start end_date
                daily_insights w)) = store w
  /\ last_refresh_at (snd (fetch_chunks e ad_account_id access_token chunk_start end_date
                daily_insights w)) = last_refresh_at w.
Proof.
  funelim (fetch_chunks e ad_account_id access_token chunk_start end_date daily_insights w);
    [|split; reflexivity].
  clear Heqcall. unfold call_get_insights_daily in *.
  destruct (get_insights_daily e ad_account_id access_token _ _) as [chunk_data|];
    [|split; reflexivity].
  match goal with
  | IH : result (list ad) -> _ |- context [fetch_chunks _ _ _ _ _ _ ?w'] =>
      exact (IH (Ok chunk_data) w' chunk_data)
  end.
Qed.

Lemma fetch_daily_insights_store e ad_account_id access_token days_to_fetch w :
  store (snd (fetch_daily_insights e ad_account_id access_token days_to_fetch w)) = store w
  /\ last_refresh_at (snd (fetch_daily_insights e ad_account_id access_token days_to_fetch w))
     = last_refresh_at w.
Proof.
  unfold fetch_daily_insights, except.
  destruct (CHUNK_SIZE_DAYS <? days_to_fetch).
  - pose proof (fetch_chunks_store e ad_account_id access_token (today e - days_to_fetch)
                  (today e - 1) [] w) as H.
    destruct (fetch_chunks _ _ _ _ _ _ _) as [[rows|err] w']; simpl in *; [assumption|].
    destruct (is_MetaAPIError err); assumption.
  - unfold call_get_insights_daily.
    destruct (get_insights_daily _ _ _ _ _); simpl; split; reflexivity.
Qed.

Lemma determine_refresh_mode_range baseline reference_date :
  _determine_refresh_mode baseline reference_date = (BASELINE, BASELINE_DAYS)
  \/ _determine_refresh_mode baseline reference_date = (TAIL, TAIL_BACKFILL_DAYS).
Proof.
  unfold _determine_refresh_mode.
  repeat match goal with
  | |- context [match ?x with _ => _ end] => destruct x
  end; auto.
Qed.

Lemma fetch_chunks_raises e ad_account_id access_token chunk_start end_date daily_insights
    w err w' :
  fetch_chunks e ad_account_id access_token chunk_start end_date daily_insights w
  = (Raise err, w') ->
  err = MetaAPIError.
Proof.
  funelim (fetch_chunks e ad_account_id access_token chunk_start end_date daily_insights w);
    [|discriminate].
  clear Heqcall. unfold call_get_insights_daily in *.
  destruct (get_insights_daily e ad_account_id access_token _ _) as [chunk_data|].
  - match goal with
    | IH : result (list ad) -> _ |- context [fetch_chunks _ _ _ _ _ _ ?w1] =>
        exact (IH (Ok chunk_data) w1 chunk_data err w')
    end.
  - now intros [= <- _].
Qed.

Lemma fetch_daily_insights_raises e ad_account_id access_token days_to_fetch w err w' :
  fetch_daily_insights e ad_account_id access_token days_to_fetch w = (Raise err, w') ->
  err = RefreshError MetaApiFailed.
Proof.
  unfold fetch_daily_insights, except.
  destruct (CHUNK_SIZE_DAYS <? days_to_fetch).
  - destruct (fetch_chunks _ _ _ _ _ _ _) as [[rows|err0] w0] eqn:E; [discriminate|].
    apply fetch_chunks_raises in E as ->. simpl. now intros [= <- _].
  - unfold call_get_insights_daily.
    destruct (get_insights_daily _ _ _ _ _); [discriminate|]. simpl. now intros [= <- _].
Qed.



Lemma bind_inv {A B} (m : M A) (k : A -> M B) w r w' :
  bind m k w = (r, w') ->
  (exists a w1, m w = (Ok a, w1) /\ k a w1 = (r, w'))
  \/ (exists err, m w = (Raise err, w') /\ r = Raise err).
Proof.
  unfold bind. destruct (m w) as [[a|err] w1]; intros H.
  - left. eauto.
  - right. injection H as <- <-. eauto.
Qed.

Lemma of_option_inv {A} (err : exn) (o : option A) w r w' :
  of_option err o w = (r, w') ->
  w' = w /\ ((exists a, o = Some a /\ r = Ok a) \/ (o = None /\ r = Raise err)).
Proof.
  destruct o as [a|]; simpl; intros [= <- <-]; split; eauto.
Qed.

Lemma load_existing_baseline_inv e tenant_id ad_account_id w r w' :
  _load_existing_baseline e tenant_id ad_account_id w = (r, w') ->
  w' = w /\ exists existing, r = Ok existing.
Proof.
  unfold _load_existing_baseline.
  destruct (get_fails e _); [intros [= <- <-]; eauto|].
  destruct (store w !! _) as [[]|]; intros [= <- <-]; eauto.
Qed.

Lemma db_commit_inv e t w r w' :
  db_commit e t w = (r, w') ->
  (r = Raise DatabaseError /\ w' = w)
  \/ (r = Ok tt /\ w' = mk_world (store w) (fetch_log w) (Some t)).
Proof.
  unfold db_commit. destruct (commit_fails e); intros [= <- <-]; auto.
Qed.

Lemma merge_step_inv mode existing daily_insights reference_date w r w' :
  merge_step mode existing daily_insights reference_date w = (r, w') ->
  w' = w
  /\ (r = Raise OtherError
      \/ (exists merged, r = Ok merged
                          /\ (mode = BASELINE -> merged = daily_insights))).
Proof.
  unfold merge_step. destruct mode, existing as [b|]; simpl;
    try (intros [= <- <-]; split; [reflexivity|]; right; eauto; fail).
  intros H. apply of_option_inv in H as [-> [(merged & _ & ->)|[_ ->]]]; split; auto.
  right. exists merged. split; [reflexivity | discriminate].
Qed.

Lemma transform_inv (o : option (shard * shard * shard)) w r w' :
  except any_exception TransformFailed (of_option OtherError o) w = (r, w') ->
  w' = w /\ (r = Raise (RefreshError TransformFailed) \/ exists shards, r = Ok shards).
Proof.
  unfold except. destruct o as [shards|]; simpl; intros [= <- <-]; eauto.
Qed.

Lemma put_object_inv e k o w r w' :
  put_object e k o w = (r, w') ->
  (r = Raise StorageError /\ w' = w)
  \/ (r = Ok tt
      /\ w' = mk_world (<[k := o]> (store w)) (fetch_log w) (last_refresh_at w)).
Proof.
  unfold put_object. destruct (put_fails e k); intros [= <- <-]; auto.
Qed.

Lemma guarded_put_inv e filename k o w r w' :
  except is_StorageError (WriteFailed filename) (put_object e k o) w = (r, w') ->
  (r = Raise (RefreshError (WriteFailed filename)) /\ w' = w)
  \/ (r = Ok tt
      /\ w' = mk_world (<[k := o]> (store w)) (fetch_log w) (last_refresh_at w)).
Proof.
  unfold except.
  destruct (put_object e k o w) as [r0 w0] eqn:E.
  apply put_object_inv in E as [[-> ->]|[-> ->]]; simpl; intros [= <- <-]; auto.
Qed.

Lemma write_shards_inv e dir files files_written w r w' :
  write_shards e dir files files_written w = (r, w') ->
  (exists filename, r = Raise (RefreshError (WriteFailed filename)))
  \/ (r = Ok (files_written ++ map fst files)%list
      /\ fetch_log w' = fetch_log w /\ last_refresh_at w' = last_refresh_at w
      /\ forall k, (forall filename, k <> dir ++ "/" ++ filename) ->
                   store w' !! k = store w !! k).
Proof.
  revert files_written w. induction files as [|[filename data] files IH];
    intros files_written w; simpl.
  - intros [= <- <-]. right. rewrite app_nil_r. auto.
  - intros H. apply bind_inv in H as [(u & w1 & Hput & Hrest)|(err & Hput & ->)].
    + apply guarded_put_inv in Hput as [[[=] _]|[_ ->]].
      apply IH in Hrest as [Hraise|(-> & Hlog & Hlast & Hstore)]; [now left|].
      right. rewrite <- app_assoc. simpl in *. repeat split; try assumption.
      intros k Hk. rewrite Hstore by assumption. apply lookup_insert_ne. apply not_eq_sym, Hk.
    + apply guarded_put_inv in Hput as [[[= ->] _]|[[=] _]]. left. eauto.
Qed.


(** One [of_option] step of a run whose outcome is [H]; a run that stops
    there is dismissed by [tac]. *)
Ltac option_step H x Hx tac :=
  let w1 := fresh "w" in
  let H1 := fresh "Hstep" in
  let err := fresh "err" in
  apply bind_inv in H as [(x & w1 & H1 & H)|(err & H1 & H)];
  [ apply of_option_inv in H1 as [-> [(? & Hx & [= <-])|[_ [=]]]]
  | apply of_option_inv in H1 as [_ [(? & _ & [=])|[_ [= ->]]]]; tac ].


Lemma keyed_keys d :
  keyed d -> map key_of (map snd d) = map (fun e => Some (fst e)) d.
Proof.
  induction d as [|[k a] d IH]; intros Hk; simpl; [reflexivity|].
  rewrite (Hk k a) by now left. f_equal. apply IH. intros k' a' Hin. apply Hk. now right.
Qed.

(** The rows that [_upsert_daily_ads] returns have pairwise distinct keys. *)
Lemma upsert_keys_NoDup existing new reference_date merged :
  _upsert_daily_ads existing new reference_date = Some merged ->
  List.NoDup (map key_of merged).
Proof.
  unfold _upsert_daily_ads. destruct (cutoff_date reference_date) as [cutoff|]; [|discriminate].
  intros [= <-]. rewrite clean_as_filter, keyed_keys.
  - rewrite <- (map_map fst Some). apply Finite.Injective_map_NoDup.
    + intros x y [= ->]. reflexivity.
    + apply filter_keys_NoDup, build_index_NoDup.
  - apply filter_keys_keyed, build_index_keyed.
Qed.


(** C2 (counterexample). A run that aborts on a validation error has not
    persisted the raw dataset. *)
Lemma validation_abort_precedes_raw_write :
  ~ (forall e ad_account_id tenant_id w errors w',
       sync_account_data e ad_account_id tenant_id w
       = (Raise (RefreshError (ValidationFailed errors)), w') ->
       errors <> [] ->
       raw_dataset_persisted w' tenant_id ad_account_id).
Proof.
  intros Hclaim.
  destruct (sync_account_data (example_env one_row_per_window ["agg_v1: no ads"]) "act_1"
              "t1" world_0) as [r w'] eqn:Erun.
  pose proof Erun as Erun'. vm_compute in Erun'. injection Erun' as <- <-.
  apply Hclaim in Erun; [|discriminate].
  destruct Erun as [b Hb]. vm_compute in Hb. discriminate Hb.
Qed.

(** C2 (amended). A run that aborts on a validation error has written
    nothing: the error list is not empty, no shard file is written, and the
    merged raw dataset has not been persisted either, because validation
    (step 12) precedes the write of the raw dataset (step 13); the store
    and [last_refresh_at] are as they were before the run. *)
Theorem validation_abort_writes_nothing (e : env) (ad_account_id tenant_id : string)
    (w w' : world) (errors : list string) :
  sync_account_data e ad_account_id tenant_id w
  = (Raise (RefreshError (ValidationFailed errors)), w') ->
  errors <> [] /\ store w' = store w /\ last_refresh_at w' = last_refresh_at w.
Proof.
  intros Hrun. unfold sync_account_data in Hrun.
  option_step Hrun name Hname ltac:(discriminate Hrun).
  option_step Hrun token Htoken ltac:(discriminate Hrun).
  option_step Hrun access_token Haccess ltac:(discriminate Hrun).
  apply bind_inv in Hrun as [(existing & w1 & Hload & Hrun)|(err & Hload & Hrun)];
    [apply load_existing_baseline_inv in Hload as [-> _]
    |apply load_existing_baseline_inv in Hload as [_ [? [=]]]].
  destruct (_determine_refresh_mode existing _) as [mode days].
  apply bind_inv in Hrun as [(rows & w1 & Hfetch & Hrun)|(err & Hfetch & Hrun)];
    [|apply fetch_daily_insights_raises in Hfetch as ->; discriminate Hrun].
  pose proof (fetch_daily_insights_store e ad_account_id access_token days w) as [Hs Hl].
  rewrite Hfetch in Hs, Hl. simpl in Hs, Hl.
  apply bind_inv in Hrun as [(merged & w2 & Hmerge & Hrun)|(err & Hmerge & Hrun)];
    [apply merge_step_inv in Hmerge as [-> _]
    |apply merge_step_inv in Hmerge as [_ [[= ->]|(? & [=] & _)]]; discriminate Hrun].
  apply bind_inv in Hrun as [(shards & w2 & Htrans & Hrun)|(err & Htrans & Hrun)];
    [apply transform_inv in Htrans as [-> _]
    |apply transform_inv in Htrans as [_ [[= ->]|(? & [=])]]; discriminate Hrun].
  destruct shards as [[meta_v1 agg_v1] summary_v1].
  apply bind_inv in Hrun as [(u & w2 & Hval & Hrun)|(err & Hval & Hrun)].
  - exfalso.
    apply bind_inv in Hrun as [(u1 & w3 & Hput & Hrun)|(err & Hput & Hrun)];
      [|apply guarded_put_inv in Hput as [[[= ->] _]|[[=] _]]; discriminate Hrun].
    apply bind_inv in Hrun as [(files & w4 & Hshards & Hrun)|(err & Hshards & Hrun)];
      [|apply write_shards_inv in Hshards as [[? [= ->]]|([=] & _)]; discriminate Hrun].
    apply bind_inv in Hrun as [(u2 & w5 & Hput2 & Hrun)|(err & Hput2 & Hrun)];
      [|apply guarded_put_inv in Hput2 as [[[= ->] _]|[[=] _]]; discriminate Hrun].
    apply bind_inv in Hrun as [(u3 & w6 & Hcommit & Hrun)|(err & Hcommit & Hrun)];
      [discriminate Hrun
      |apply db_commit_inv in Hcommit as [[[= ->] _]|[[=] _]]; discriminate Hrun].
  - destruct (validate_columnar_format e meta_v1 agg_v1 summary_v1) as [|x xs] eqn:Ev;
      [discriminate Hval|].
    injection Hval as Herr Hw. subst err w'. injection Hrun as Herrors. subst errors.
    repeat split; [discriminate | assumption | assumption].
Qed.

Lemma validation_abort_writes_nothing_witness :
  let run :=
    sync_account_data (example_env one_row_per_window ["agg_v1: no ads"]) "act_1" "t1"
      world_0 in
  fst run = Raise (RefreshError (ValidationFailed ["agg_v1: no ads"]))
  /\ ["agg_v1: no ads"] <> []
  /\ store (snd run) = store world_0
  /\ last_refresh_at (snd run) = last_refresh_at world_0.
Proof.
  intros run. split; [vm_compute; reflexivity|].
  apply (validation_abort_writes_nothing
           (example_env one_row_per_window ["agg_v1: no ads"]) "act_1" "t1" world_0
           (snd run)).
  vm_compute. reflexivity.
Defined.

(** C3 (counterexample). A BASELINE run whose fetch returns the same row
    twice persists both copies: the persisted rows have a duplicate key and
    are not the result of any [_upsert_daily_ads]. *)
Lemma baseline_run_persists_duplicates :
  exists out w' b,
    sync_account_data (example_env duplicated_row []) "act_1" "t1" world_0 = (Ok out, w')
    /\ oc_refresh_mode out = BASELINE
    /\ store w' !! baseline_key "t1" "act_1" = Some (O_baseline b)
    /\ ~ List.NoDup (map key_of (bl_daily_ads b))
    /\ forall existing fetched reference_date,
         _upsert_daily_ads existing fetched reference_date <> Some (bl_daily_ads b).
Proof.
  destruct (sync_account_data (example_env duplicated_row []) "act_1" "t1" world_0)
    as [r w'] eqn:Erun.
  vm_compute in Erun. injection Erun as <- <-.
  eexists _, _, _. split; [reflexivity|]. split; [reflexivity|].
  split; [vm_compute; reflexivity|].
  assert (Hdup : ~ List.NoDup
                     (map key_of
                        [tag_account "Acme" "act_1" (row "a1" "2024-04-01" "10");
                         tag_account "Acme" "act_1" (row "a1" "2024-04-01" "10")])).
  { intros Hnd. inversion Hnd as [|? ? Hnot _]. apply Hnot. now left. }
  split; [exact Hdup|].
  intros existing fetched reference_date Hup. apply upsert_keys_NoDup in Hup. exact (Hdup Hup).
Qed.

(** C3 (amended). A run that succeeds in BASELINE mode has fetched the
    window of 90 days and persists, as the rows of the raw dataset, the
    fetched rows themselves after enrichment and account tagging: they do
    not go through [_upsert_daily_ads], so nothing is merged, de-duplicated
    or pruned. *)
Theorem baseline_run_persists_fetched_rows (e : env) (ad_account_id tenant_id : string)
    (w w' : world) (out : outcome) :
  sync_account_data e ad_account_id tenant_id w = (Ok out, w') ->
  oc_refresh_mode out = BASELINE ->
  exists name token access_token rows w1 md,
    db_ad_account e ad_account_id tenant_id = Some name
    /\ db_oauth_token e tenant_id = Some token
    /\ fernet_decrypt e token = Some access_token
    /\ fetch_daily_insights e ad_account_id access_token BASELINE_DAYS w = (Ok rows, w1)
    /\ store w' !! baseline_key tenant_id ad_account_id
       = Some (O_baseline
                 (mk_baseline md
                    (map (tag_account name ad_account_id) (enrich e rows access_token)))).
Proof.
  intros Hrun Hmode. unfold sync_account_data in Hrun.
  option_step Hrun name Hname ltac:(discriminate Hrun).
  option_step Hrun token Htoken ltac:(discriminate Hrun).
  option_step Hrun access_token Haccess ltac:(discriminate Hrun).
  apply bind_inv in Hrun as [(existing & w1 & Hload & Hrun)|(err & Hload & Hrun)];
    [apply load_existing_baseline_inv in Hload as [-> _] | discriminate Hrun].
  pose proof (determine_refresh_mode_range existing (isoformat (today e - 1))) as Hrange.
  destruct (_determine_refresh_mode existing _) as [mode days].
  apply bind_inv in Hrun as [(rows & w1 & Hfetch & Hrun)|(err & Hfetch & Hrun)];
    [|discriminate Hrun].
  apply bind_inv in Hrun as [(merged & w2 & Hmerge & Hrun)|(err & Hmerge & Hrun)];
    [apply merge_step_inv in Hmerge as [-> Hmerged] | discriminate Hrun].
  apply bind_inv in Hrun as [(shards & w2 & Htrans & Hrun)|(err & Htrans & Hrun)];
    [apply transform_inv in Htrans as [-> _] | discriminate Hrun].
  destruct shards as [[meta_v1 agg_v1] summary_v1].
  apply bind_inv in Hrun as [(u & w2 & Hval & Hrun)|(err & Hval & Hrun)];
    [|discriminate Hrun].
  destruct (validate_columnar_format e meta_v1 agg_v1 summary_v1); [|discriminate Hval].
  injection Hval as _ <-.
  apply bind_inv in Hrun as [(u1 & w3 & Hput & Hrun)|(err & Hput & Hrun)];
    [|discriminate Hrun].
  apply guarded_put_inv in Hput as [[[=] _]|[_ ->]].
  apply bind_inv in Hrun as [(files & w4 & Hshards & Hrun)|(err & Hshards & Hrun)];
    [|discriminate Hrun].
  apply write_shards_inv in Hshards as [[? [=]]|(_ & _ & _ & Hkept)].
  apply bind_inv in Hrun as [(u2 & w5 & Hput2 & Hrun)|(err & Hput2 & Hrun)];
    [|discriminate Hrun].
  apply guarded_put_inv in Hput2 as [[[=] _]|[_ ->]].
  apply bind_inv in Hrun as [(u3 & w6 & Hcommit & Hrun)|(err & Hcommit & Hrun)];
    [|discriminate Hrun].
  apply db_commit_inv in Hcommit as [[[=] _]|[_ ->]].
  injection Hrun as <- <-. simpl in Hmode. subst mode.
  assert (days = BASELINE_DAYS) as -> by (destruct Hrange as [[= ->]|[=]]; reflexivity).
  destruct Hmerged as [[=]|(merged' & [= <-] & Hsame)].
  specialize (Hsame eq_refl). subst merged.
  eexists name, token, access_token, rows, w1, _. repeat split; try assumption.
  simpl. rewrite lookup_insert_ne
    by (apply not_eq_sym, (baseline_key_not_optimized tenant_id ad_account_id "manifest.json")).
  rewrite Hkept by (intros filename; apply baseline_key_not_optimized).
  simpl. apply lookup_insert_eq.
Qed.

Lemma baseline_run_persists_fetched_rows_witness :
  let run := sync_account_data (example_env duplicated_row []) "act_1" "t1" world_0 in
  exists out,
    fst run = Ok out
    /\ oc_refresh_mode out = BASELINE
    /\ exists md,
         store (snd run) !! baseline_key "t1" "act_1"
         = Some (O_baseline
                   (mk_baseline md
                      [tag_account "Acme" "act_1" (row "a1" "2024-04-01" "10");
                       tag_account "Acme" "act_1" (row "a1" "2024-04-01" "10")])).
Proof.
  intros run.
  destruct run as [r w'] eqn:Erun. subst run.
  pose proof Erun as Eval. vm_compute in Eval. injection Eval as Er Ew.
  rewrite <- Er in Erun.
  eexists. split; [symmetry; exact Er|]. split; [reflexivity|].
  destruct (baseline_run_persists_fetched_rows _ _ _ _ _ _ Erun eq_refl)
    as (name & token & access_token & rows & w1 & md & Hname & Htoken & Haccess & Hfetch & Hstore).
  injection Hname as <-. injection Htoken as <-. injection Haccess as <-.
  vm_compute in Hfetch. injection Hfetch as <- _.
  exists md. exact Hstore.
Defined.

(* ===================================================================== *)
(** * The rate-limit monitor *)
(* ===================================================================== *)

Lemma max_stored_le (m : monitor) (g : Z) :
  max_stored m <= g <->
  0 <= g /\ forall k info, usage_by_account m !! k = Some info -> percent_of info <= g.
Proof.
  unfold max_stored. revert g.
  apply (map_fold_weak_ind
           (fun r (um : gmap string usage_info) =>
              forall g, r <= g <->
                        0 <= g /\ forall k info, um !! k = Some info -> percent_of info <= g)).
  - intros g. split; [intros H; split; [assumption|]|tauto].
    intros k info Hk. rewrite lookup_empty in Hk. discriminate.
  - intros k info um r Hnone IH g. rewrite Z.max_lub_iff, IH. split.
    + intros (Hinfo & Hg & Hall). split; [assumption|].
      intros k' info' Hk'. destruct (decide (k = k')) as [->|Hne].
      * rewrite lookup_insert_eq in Hk'. now injection Hk' as <-.
      * rewrite lookup_insert_ne in Hk' by assumption. eauto.
    + intros (Hg & Hall). split; [|split; [assumption|]].
      * apply (Hall k). apply lookup_insert_eq.
      * intros k' info' Hk'. apply (Hall k').
        rewrite lookup_insert_ne; [assumption|]. intros ->. congruence.
Qed.

(** C4 (counterexample). Two responses for the same account, the first at
    95 % and the second at 10 %: the only stored snapshot is at 10 %, and
    [global_usage] is still 95. *)
Lemma global_usage_keeps_old_maximum :
  exists info1 m1 info2 m2,
    parse_headers monitor_0 (mk_headers (detailed_usage 95) H_absent H_absent) "act_1"
    = Some (info1, m1)
    /\ parse_headers m1 (mk_headers (detailed_usage 10) H_absent H_absent) "act_1"
       = Some (info2, m2)
    /\ max_stored m1 = 95 /\ global_usage m1 = 95
    /\ max_stored m2 = 10 /\ global_usage m2 = 95
    /\ global_usage m2 <> max_stored m2.
Proof.
  eexists _, _, _, _. split; [vm_compute; reflexivity|]. split; [vm_compute; reflexivity|].
  repeat split; try (vm_compute; reflexivity). vm_compute. discriminate.
Qed.

(** C4 (amended). After every call to [parse_headers] that returns, the
    snapshot of the resource key is replaced by the new one and
    [global_usage] is the maximum of its previous value and the usage of
    that snapshot: a high-water mark that never decreases.  It therefore
    stays an upper bound of the maximum over the stored snapshots, and
    keeps the old maximum when the snapshot that held it is overwritten by
    a lower one. *)
Theorem parse_headers_running_maximum (m m' : monitor) (h : headers) (account_id : string)
    (info : usage_info) :
  parse_headers m h account_id = Some (info, m') ->
  usage_by_account m' = <[account_id := info]> (usage_by_account m)
  /\ global_usage m' = Z.max (global_usage m) (percent_of info)
  /\ global_usage m <= global_usage m'
  /\ (max_stored m <= global_usage m -> max_stored m' <= global_usage m').
Proof.
  unfold parse_headers. destruct (parse_usage h) as [info0|]; [|discriminate].
  destruct (as_num (usage_percent info0)) as [percent|] eqn:Ep; [|discriminate].
  intros [= <- <-]. simpl. unfold percent_of. rewrite Ep. simpl.
  split; [reflexivity|]. split; [reflexivity|]. split; [lia|].
  rewrite !max_stored_le. simpl. intros [Hg Hall]. split; [lia|].
  intros k info Hk. destruct (decide (account_id = k)) as [->|Hne].
  - rewrite lookup_insert_eq in Hk. injection Hk as <-. unfold percent_of. rewrite Ep. simpl. lia.
  - rewrite lookup_insert_ne in Hk by assumption. specialize (Hall k info Hk). lia.
Qed.

Lemma parse_headers_running_maximum_witness :
  exists info m',
    parse_headers (mk_monitor {["act_1" := mk_usage_info (JNum 95) false (JNum 0) []]} 95)
      (mk_headers (detailed_usage 10) H_absent H_absent) "act_1" = Some (info, m')
    /\ global_usage m' = 95 /\ percent_of info = 10 /\ max_stored m' <= global_usage m'.
Proof.
  destruct (parse_headers
              (mk_monitor {["act_1" := mk_usage_info (JNum 95) false (JNum 0) []]} 95)
              (mk_headers (detailed_usage 10) H_absent H_absent) "act_1")
    as [[info m']|] eqn:E; [|vm_compute in E; discriminate E].
  exists info, m'. split; [reflexivity|].
  destruct (parse_headers_running_maximum _ _ _ _ _ E) as (Hstore & Hglobal & Hmono & Hbound).
  vm_compute in E. injection E as <- <-.
  split; [vm_compute; reflexivity|]. split; [vm_compute; reflexivity|].
  apply Hbound. vm_compute. discriminate.
Defined.

Lemma max_of_nonneg l : 0 <= max_of l.
Proof. induction l; simpl; lia. Qed.

Lemma max_of_app l1 l2 : max_of (l1 ++ l2) = Z.max (max_of l1) (max_of l2).
Proof.
  induction l1 as [|x l1 IH]; simpl.
  - pose proof (max_of_nonneg l2). lia.
  - unfold max_of in *. rewrite IH. lia.
Qed.

Lemma buc_usage_fields info usage info' p :
  as_num (usage_percent info) = Some p -> 0 <= p ->
  buc_usage info usage = (info', true) ->
  as_num (usage_percent info') = Some (Z.max p (max_of (usage_fields usage))).
Proof.
  intros Hp Hpos. unfold buc_usage, usage_fields.
  destruct usage as [| | | | |members]; try discriminate. simpl. rewrite Hp.
  destruct (as_num (default (JNum 0) (member "call_count" members))) as [calls|];
    [|discriminate].
  destruct (as_num (default (JNum 0) (member "total_time" members))) as [time|];
    [|discriminate].
  destruct (as_num (default (JNum 0) (member "total_cputime" members))) as [cpu|];
    [|discriminate].
  simpl.
  destruct (as_num (default (JNum 0) (member "estimated_time_to_regain_access" members)))
    as [minutes|]; [|discriminate].
  destruct (hashable (default (JStr "unknown") (member "type" members))); [|discriminate].
  intros [= <-]. destruct (0 <? minutes); simpl; f_equal; lia.
Qed.

Lemma buc_usages_fields usages : forall info info' p,
  as_num (usage_percent info) = Some p -> 0 <= p ->
  buc_usages info usages = (info', true) ->
  as_num (usage_percent info') = Some (Z.max p (max_of (flat_map usage_fields usages))).
Proof.
  induction usages as [|usage usages IH]; intros info info' p Hp Hpos; simpl.
  - intros [= <-]. rewrite Hp. f_equal. lia.
  - destruct (buc_usage info usage) as [info1 [|]] eqn:E; [|discriminate].
    intros Hrest. pose proof (buc_usage_fields _ _ _ _ Hp Hpos E) as Hp1.
    rewrite (IH _ _ _ Hp1 ltac:(lia) Hrest), max_of_app. f_equal. lia.
Qed.

Lemma buc_accounts_fields items : forall info info' p,
  as_num (usage_percent info) = Some p -> 0 <= p ->
  buc_accounts info items = (info', true) ->
  as_num (usage_percent info') = Some (Z.max p (max_of (buc_fields items))).
Proof.
  induction items as [|[acc_key usages] items IH]; intros info info' p Hp Hpos; simpl.
  - intros [= <-]. rewrite Hp. f_equal. lia.
  - destruct (py_iter usages) as [l|]; [|discriminate]. simpl.
    destruct (buc_usages info l) as [info1 [|]] eqn:E; [|discriminate].
    intros Hrest. pose proof (buc_usages_fields _ _ _ _ Hp Hpos E) as Hp1.
    unfold buc_fields in *. simpl.
    rewrite (IH _ _ _ Hp1 ltac:(lia) Hrest), max_of_app. f_equal. lia.
Qed.

Lemma parse_throttle_fields h info p :
  as_num (usage_percent info) = Some p -> 0 <= p ->
  as_num (usage_percent (parse_throttle h info))
  = Some (Z.max p (max_of (throttle_fields h))).
Proof.
  intros Hp Hpos. unfold parse_throttle, throttle_fields.
  destruct h as [|[[| | | | |members]|]]; simpl; try (rewrite Hp; f_equal; lia).
  rewrite Hp.
  destruct (as_num (default (JNum 0) (member "app_id_util_pct" members))) as [app|];
    [|simpl; rewrite Hp; f_equal; lia].
  destruct (as_num (default (JNum 0) (member "acc_id_util_pct" members))) as [acc|];
    simpl; [|rewrite Hp]; f_equal; lia.
Qed.

Lemma decide_pause_percent info p :
  as_num (usage_percent info) = Some p ->
  exists info', decide_pause info = Some info' /\ usage_percent info' = usage_percent info.
Proof.
  intros Hp. unfold decide_pause. rewrite Hp.
  destruct ((80 <=? p) && negb (should_pause info)); [destruct (90 <=? p)|]; eauto.
Qed.

(** C5 (counterexample). With the detailed header at 10 % and the
    throttle header at 95 %, the snapshot is at 95 % and asks for a pause:
    the throttle header is read although the detailed one parsed. *)
Lemma throttle_header_not_ignored :
  ~ (forall h items,
       x_business_use_case_usage h = H_text (Some (JObj items)) ->
       parse_usage h
       = parse_usage (mk_headers (x_business_use_case_usage h) H_absent H_absent)).
Proof.
  intros Hclaim.
  specialize (Hclaim (mk_headers (detailed_usage 10) H_absent (throttle_usage 95 20)) _
                eq_refl).
  vm_compute in Hclaim. discriminate Hclaim.
Qed.

(** C5 (amended). Whenever the detailed per-feature usage header is
    present, the single-account encoding is ignored: it contributes
    nothing to the result.  The endpoint-specific throttle encoding is
    still read; when the detailed header is processed to its end, the
    resulting [usage_percent] is the maximum across the fields of the
    detailed header and the fields of the throttle header (and 0). *)
Theorem detailed_header_masks_account_header (h : headers) :
  present (x_business_use_case_usage h) = true ->
  parse_usage h
  = parse_usage
      (mk_headers (x_business_use_case_usage h) H_absent (x_fb_ads_insights_throttle h))
  /\ forall items info,
       x_business_use_case_usage h = H_text (Some (JObj items)) ->
       buc_accounts usage_info_0 items = (info, true) ->
       exists snapshot,
         parse_usage h = Some snapshot
         /\ as_num (usage_percent snapshot)
            = Some (max_of (buc_fields items
                            ++ throttle_fields (x_fb_ads_insights_throttle h))).
Proof.
  intros Hpresent. unfold parse_usage. simpl.
  assert (Hacc : forall acc info,
            parse_acc (x_business_use_case_usage h) acc info = info).
  { intros acc info. unfold parse_acc. rewrite Hpresent, andb_false_r. reflexivity. }
  rewrite !Hacc. split; [reflexivity|].
  intros items info Hitems Hdone. rewrite Hitems. simpl. rewrite Hdone. simpl.
  pose proof (buc_accounts_fields items usage_info_0 info 0 eq_refl ltac:(lia) Hdone) as Hp.
  pose proof (max_of_nonneg (buc_fields items)) as Hpos.
  rewrite Z.max_r in Hp by assumption.
  pose proof (parse_throttle_fields (x_fb_ads_insights_throttle h) info _ Hp Hpos) as Ht.
  destruct (decide_pause_percent _ _ Ht) as (snapshot & Hsnap & Hsame).
  exists snapshot. split; [assumption|]. rewrite Hsame, Ht, max_of_app. reflexivity.
Qed.

Lemma detailed_header_masks_account_header_witness :
  present (detailed_usage 10) = true
  /\ parse_usage (mk_headers (detailed_usage 10) (throttle_usage 99 99) (throttle_usage 95 20))
     = parse_usage (mk_headers (detailed_usage 10) H_absent (throttle_usage 95 20))
  /\ exists snapshot,
       parse_usage (mk_headers (detailed_usage 10) (throttle_usage 99 99)
                      (throttle_usage 95 20)) = Some snapshot
       /\ as_num (usage_percent snapshot) = Some 95.
Proof.
  split; [reflexivity|].
  destruct (detailed_header_masks_account_header
              (mk_headers (detailed_usage 10) (throttle_usage 99 99) (throttle_usage 95 20))
              eq_refl) as [Hmask Hmax].
  split; [exact Hmask|].
  destruct (Hmax _ _ eq_refl eq_refl) as (snapshot & Hsnap & Hp).
  exists snapshot. split; [exact Hsnap | exact Hp].
Defined.

(* ===================================================================== *)
(** * The retrying client *)
(* ===================================================================== *)

Lemma check_and_throttle_quiet m account_id :
  quiet m account_id -> check_and_throttle m account_id = (None, m).
Proof.
  unfold quiet, check_and_throttle. intros Hq.
  destruct (usage_by_account m !! account_id) as [info|]; [|reflexivity].
  now rewrite (Hq info eq_refl).
Qed.

Lemma parse_no_headers m account_id :
  exists info m',
    parse_headers m no_headers account_id = Some (info, m') /\ quiet m' account_id.
Proof.
  eexists _, _. split; [reflexivity|].
  intros info. simpl. rewrite lookup_insert_eq. now intros [= <-].
Qed.

(** An attempt answered by an error status, whatever it is, ends in the
    [except] clause. *)
Lemma try_attempt_error_status status_code method account_id st :
  (method = "GET" \/ method = "POST") ->
  raise_for_status status_code = true ->
  quiet (rate_monitor st) account_id ->
  exists mon,
    try_attempt (always status_code) method account_id st
    = (Caught, mk_client_state mon (S (requests_sent st)) (events st ++ [E_request])%list)
    /\ quiet mon account_id.
Proof.
  intros Hmethod Hraise Hq. unfold try_attempt.
  rewrite (check_and_throttle_quiet _ _ Hq).
  assert (Hm : negb (String.eqb (upper method) "GET")
               && negb (String.eqb (upper method) "POST") = false)
    by (destruct Hmethod as [-> | ->]; reflexivity).
  rewrite Hm. cbn [requests_sent rate_monitor events always].
  destruct (parse_no_headers (rate_monitor st) account_id) as (info & mon & Hparse & Hquiet).
  rewrite Hparse, Hraise. exists mon. split; [|assumption].
  destruct ((400 <=? status_code) && (status_code <? 500) && negb (status_code =? 429));
    reflexivity.
Qed.

Lemma retry_loop_S server method account_id attempts attempt remaining st :
  retry_loop server method account_id attempts attempt (S remaining) st
  = match try_attempt server method account_id st with
    | (Done r, st) => (r, st)
    | (Caught, st) =>
        if attempt =? attempts then (Raises X_MetaAPIError_after_attempts, st)
        else
          retry_loop server method account_id attempts (attempt + 1) remaining
            (mk_client_state (rate_monitor st) (requests_sent st)
               (events st ++ [E_backoff attempt])%list)
    end.
Proof. reflexivity. Qed.

Lemma retry_loop_error_status status_code method account_id attempts :
  (method = "GET" \/ method = "POST") ->
  raise_for_status status_code = true ->
  forall remaining attempt st,
    (0 < remaining)%nat ->
    attempt + Z.of_nat remaining = attempts + 1 ->
    quiet (rate_monitor st) account_id ->
    let run := retry_loop (always status_code) method account_id attempts attempt remaining st in
    fst run = Raises X_MetaAPIError_after_attempts
    /\ requests_sent (snd run) = (requests_sent st + remaining)%nat
    /\ length (List.filter is_backoff (events (snd run)))
       = (length (List.filter is_backoff (events st)) + remaining - 1)%nat.
Proof.
  intros Hmethod Hraise. induction remaining as [|remaining IH]; intros attempt st Hpos Hsum Hq;
    [lia|].
  cbv zeta. rewrite retry_loop_S.
  destruct (try_attempt_error_status status_code method account_id st Hmethod Hraise Hq)
    as (mon & -> & Hquiet).
  destruct (Z.eqb_spec attempt attempts) as [->|Hne].
  - assert (remaining = 0%nat) as -> by lia. simpl.
    rewrite List.filter_app, List.length_app. simpl. split; [reflexivity|]. split; lia.
  - specialize (IH (attempt + 1)
                  (mk_client_state mon (S (requests_sent st))
                     ((events st ++ [E_request]) ++ [E_backoff attempt])%list)
                  ltac:(lia) ltac:(lia) Hquiet).
    cbv zeta in IH. destruct IH as (Hr & Hn & Hb).
    cbn [rate_monitor requests_sent events].
    split; [exact Hr|]. split.
    + rewrite Hn. simpl. lia.
    + rewrite Hb. simpl. rewrite !List.filter_app, !List.length_app. simpl. lia.
Qed.

(** A server that answers an error status to every request, for any
    status that [raise_for_status] rejects (404 as well as 500 or 429):
    the client uses its whole budget, with a backoff sleep between two
    attempts. *)
Lemma error_status_uses_whole_budget status_code method account_id attempts :
  (method = "GET" \/ method = "POST") ->
  raise_for_status status_code = true ->
  1 <= attempts ->
  let run :=
    _request_with_retry (always status_code) method attempts account_id client_state_0 in
  fst run = Raises X_MetaAPIError_after_attempts
  /\ requests_sent (snd run) = Z.to_nat attempts
  /\ length (List.filter is_backoff (events (snd run))) = (Z.to_nat attempts - 1)%nat.
Proof.
  intros Hmethod Hraise Hpos. unfold _request_with_retry.
  apply (retry_loop_error_status status_code method account_id attempts Hmethod Hraise
           (Z.to_nat attempts) 1 client_state_0); [lia | lia |].
  intros info Hinfo. simpl in Hinfo. rewrite lookup_empty in Hinfo. discriminate.
Qed.

(** C1 (code bug). Against a server that answers 404 to every request,
    with [attempts = 4], the client does not stop after the first attempt:
    it sends 4 requests, sleeps 3 backoffs and raises the error of an
    exhausted budget, exactly as it does against a server that answers
    500. *)
Theorem client_error_404_is_retried :
  let run := _request_with_retry (always 404) "GET" 4 "global" client_state_0 in
  fst run = Raises X_MetaAPIError_after_attempts
  /\ requests_sent (snd run) = 4%nat
  /\ events (snd run)
     = [E_request; E_backoff 1; E_request; E_backoff 2; E_request; E_backoff 3; E_request]
  /\ run = _request_with_retry (always 500) "GET" 4 "global" client_state_0.
Proof. vm_compute. repeat split; reflexivity. Qed.

(* ===================================================================== *)
(** * Further properties of the merge *)
(* ===================================================================== *)

(** X1. The rows that [_upsert_daily_ads] returns carry pairwise distinct
    keys [(ad_id, date)], whatever duplicates the two input lists hold. *)
Theorem upsert_result_has_distinct_keys (existing new : list ad) (reference_date : string)
    (merged : list ad) :
  _upsert_daily_ads existing new reference_date = Some merged ->
  List.NoDup (map key_of merged).
Proof. apply upsert_keys_NoDup. Qed.

Lemma upsert_result_has_distinct_keys_witness :
  _upsert_daily_ads [row "a1" "2024-03-01" "10"; row "a1" "2024-03-01" "11"]
    [row "a1" "2024-03-01" "15"; row "a2" "2024-03-01" "7"] "2024-04-01"
  = Some [row "a1" "2024-03-01" "15"; row "a2" "2024-03-01" "7"]
  /\ List.NoDup (map key_of [row "a1" "2024-03-01" "15"; row "a2" "2024-03-01" "7"]).
Proof.
  split; [reflexivity|].
  apply (upsert_result_has_distinct_keys
           [row "a1" "2024-03-01" "10"; row "a1" "2024-03-01" "11"]
           [row "a1" "2024-03-01" "15"; row "a2" "2024-03-01" "7"] "2024-04-01").
  reflexivity.
Defined.

(** X2. Key conflicts are resolved by the last write: a row of the result
    is, among the rows indexed under its key, the last one of [new_ads]
    when there is one, and otherwise the last one of [existing_ads]. *)
Theorem upsert_last_write_wins (existing new : list ad) (reference_date : string)
    (merged : list ad) (a : ad) (k : key) :
  _upsert_daily_ads existing new reference_date = Some merged ->
  In a merged ->
  key_of a = Some k ->
  Some a = match last_indexed k new with
           | Some n => Some n
           | None => last_indexed k existing
           end.
Proof.
  unfold _upsert_daily_ads. destruct (cutoff_date reference_date) as [cutoff|]; [|discriminate].
  intros [= <-] Hin Hk. apply clean_In in Hin as [k' [Hin _]].
  pose proof (build_index_keyed _ _ _ _ Hin) as Hk'.
  assert (k' = k) as -> by congruence.
  apply dict_get_In in Hin; [|apply build_index_NoDup].
  unfold build_index in Hin. rewrite !dict_get_index_fold in Hin. simpl in Hin.
  destruct (last_indexed k new); [congruence|].
  destruct (last_indexed k existing); congruence.
Qed.

Lemma upsert_last_write_wins_witness :
  _upsert_daily_ads [row "a1" "2024-03-01" "10"] [row "a1" "2024-03-01" "15"] "2024-04-01"
  = Some [row "a1" "2024-03-01" "15"]
  /\ Some (row "a1" "2024-03-01" "15")
     = match last_indexed ("a1", "2024-03-01") [row "a1" "2024-03-01" "15"] with
       | Some n => Some n
       | None => last_indexed ("a1", "2024-03-01") [row "a1" "2024-03-01" "10"]
       end.
Proof.
  split; [reflexivity|].
  apply (upsert_last_write_wins [row "a1" "2024-03-01" "10"] [row "a1" "2024-03-01" "15"]
           "2024-04-01" [row "a1" "2024-03-01" "15"]);
    [reflexivity | now left | reflexivity].
Defined.

(** X3. No key is lost by the merge: a row of either input list that has
    a key whose date is not before the cut-off is represented in the result
    by a row with the same key. *)
Theorem upsert_keeps_every_recent_key (existing new : list ad) (reference_date : string)
    (cutoff : string) (a : ad) (k : key) :
  cutoff_date reference_date = Some cutoff ->
  In a (existing ++ new)%list ->
  key_of a = Some k ->
  String.leb cutoff (snd k) = true ->
  exists merged a',
    _upsert_daily_ads existing new reference_date = Some merged
    /\ In a' merged /\ key_of a' = Some k.
Proof.
  intros Hcut Hin Hk Hleb. unfold _upsert_daily_ads. rewrite Hcut.
  assert (Hkey : In k (map fst (build_index existing new))).
  { unfold build_index. apply in_app_or in Hin as [Hin|Hin].
    - apply index_fold_keeps_keys. now apply index_fold_has_keys with a.
    - now apply index_fold_has_keys with a. }
  apply in_map_iff in Hkey as [[k' a'] [Heq Hentry]]. simpl in Heq. subst k'.
  exists (clean cutoff (build_index existing new)), a'.
  split; [reflexivity|]. split.
  - apply clean_In. exists k. auto.
  - now apply build_index_keyed in Hentry.
Qed.

Lemma upsert_keeps_every_recent_key_witness :
  cutoff_date "2024-04-01" = Some "2024-01-02"
  /\ exists merged a',
       _upsert_daily_ads [row_jan_2] [row "a2" "2024-03-01" "7"] "2024-04-01" = Some merged
       /\ In a' merged /\ key_of a' = Some ("a1", "2024-01-02").
Proof.
  split; [reflexivity|].
  apply (upsert_keeps_every_recent_key [row_jan_2] [row "a2" "2024-03-01" "7"] "2024-04-01"
           "2024-01-02" row_jan_2 ("a1", "2024-01-02"));
    [reflexivity | now left | reflexivity | reflexivity].
Defined.

(* ===================================================================== *)
(** * Further properties of the rate-limit monitor *)
(* ===================================================================== *)

Lemma buc_usage_well_formed info usage :
  well_formed info -> well_formed (fst (buc_usage info usage)).
Proof.
  intros [[p Hp] Hpause]. unfold buc_usage, well_formed.
  repeat match goal with
  | |- context [match ?x with _ => _ end] =>
      lazymatch x with
      | context [match _ with _ => _ end] => fail
      | _ => let E := fresh "E" in destruct x eqn:E
      end
  end;
  cbn [fst usage_percent should_pause pause_seconds as_num];
    try (exfalso; congruence); (split; [eauto|]);
    try assumption;
    try (intros _; eexists; split; [reflexivity|];
         match goal with H : (0 <? _) = true |- _ => apply Z.ltb_lt in H; lia end).
Qed.

Lemma buc_usages_well_formed usages : forall info,
  well_formed info -> well_formed (fst (buc_usages info usages)).
Proof.
  induction usages as [|usage usages IH]; intros info Hwf; simpl; [assumption|].
  pose proof (buc_usage_well_formed info usage Hwf) as H1.
  destruct (buc_usage info usage) as [info1 [|]]; simpl in *; auto.
Qed.

Lemma buc_accounts_well_formed items : forall info,
  well_formed info -> well_formed (fst (buc_accounts info items)).
Proof.
  induction items as [|[acc_key usages] items IH]; intros info Hwf; simpl; [assumption|].
  destruct (py_iter usages) as [l|]; simpl; [|assumption].
  pose proof (buc_usages_well_formed l info Hwf) as H1.
  destruct (buc_usages info l) as [info1 [|]]; simpl in *; auto.
Qed.

Lemma parse_buc_well_formed h info : well_formed info -> well_formed (parse_buc h info).
Proof.
  intros Hwf. unfold parse_buc.
  destruct h as [|[[| | | | |items]|]]; try assumption.
  now apply buc_accounts_well_formed.
Qed.

Lemma usage_info_0_well_formed : well_formed usage_info_0.
Proof. split; [now exists 0 | discriminate]. Qed.

Lemma parse_throttle_flags h info :
  should_pause (parse_throttle h info) = should_pause info
  /\ pause_seconds (parse_throttle h info) = pause_seconds info.
Proof.
  unfold parse_throttle. destruct h as [|[[| | | | |members]|]]; try (split; reflexivity).
  destruct (as_num (usage_percent info)); [|split; reflexivity].
  destruct (as_num _); [|split; reflexivity].
  destruct (as_num _); split; reflexivity.
Qed.

Lemma parse_acc_flag buc acc info : should_pause (parse_acc buc acc info) = should_pause info.
Proof.
  unfold parse_acc. destruct (present acc && negb (present buc)); [|reflexivity].
  destruct acc as [|[[| | | | |members]|]]; try reflexivity.
  destruct (member "reset_time_duration" members); reflexivity.
Qed.

Lemma decide_pause_inv info info' :
  decide_pause info = Some info' ->
  exists p,
    as_num (usage_percent info) = Some p
    /\ usage_percent info' = usage_percent info
    /\ should_pause info' = should_pause info || (80 <=? p)
    /\ (should_pause info = true -> pause_seconds info' = pause_seconds info)
    /\ (should_pause info = false -> 90 <= p -> pause_seconds info' = JNum 120)
    /\ (should_pause info = false -> 80 <= p < 90 -> pause_seconds info' = JNum 60)
    /\ (p < 80 -> pause_seconds info' = pause_seconds info).
Proof.
  unfold decide_pause. destruct (as_num (usage_percent info)) as [p|]; [|discriminate].
  intros H. exists p. split; [reflexivity|].
  destruct (should_pause info) eqn:Es; simpl in H.
  - rewrite andb_false_r in H. injection H as <-. rewrite Es. simpl.
    repeat split; try reflexivity; discriminate.
  - rewrite andb_true_r in H. destruct (Z.leb_spec 80 p) as [H80|H80].
    + destruct (Z.leb_spec 90 p) as [H90|H90]; injection H as <-; simpl;
        repeat split; try reflexivity; try discriminate; intros; lia.
    + injection H as <-. rewrite Es. simpl.
      repeat split; try reflexivity; try discriminate; intros; lia.
Qed.

(** X4. Whenever [parse_headers] returns, a snapshot whose usage is 80 or
    more asks for a pause, and a snapshot that asks for a pause gives a
    whole number of seconds to wait that is not negative, so that
    [check_and_throttle] can always sleep on it.  (The number can be 0:
    the detailed header turns a wait given in minutes into
    [int(minutes * 60)] seconds.) *)
Theorem snapshot_pause_is_consistent (h : headers) (info : usage_info) :
  parse_usage h = Some info ->
  (80 <= percent_of info -> should_pause info = true)
  /\ (should_pause info = true -> exists n, pause_seconds info = JNum n /\ 0 <= n).
Proof.
  unfold parse_usage. intros Hdecide.
  set (i1 := parse_buc (x_business_use_case_usage h) usage_info_0) in *.
  set (i2 := parse_acc (x_business_use_case_usage h) (x_ad_account_usage h) i1) in *.
  set (i3 := parse_throttle (x_fb_ads_insights_throttle h) i2) in *.
  pose proof (parse_buc_well_formed (x_business_use_case_usage h) _ usage_info_0_well_formed)
    as [_ Hpause1]. fold i1 in Hpause1.
  assert (Hpause3 : should_pause i3 = true -> exists n, pause_seconds i3 = JNum n /\ 0 <= n).
  { intros Hs. subst i3.
    destruct (parse_throttle_flags (x_fb_ads_insights_throttle h) i2) as [Hf Hp].
    rewrite Hf in Hs. rewrite Hp. subst i2. rewrite parse_acc_flag in Hs.
    unfold parse_acc.
    destruct (present (x_ad_account_usage h) && negb (present (x_business_use_case_usage h)))
      eqn:Eacc; [|auto].
    exfalso. apply andb_prop in Eacc as [_ Eabs]. apply negb_true_iff in Eabs.
    subst i1. unfold parse_buc in Hs.
    destruct (x_business_use_case_usage h); [discriminate Hs | discriminate Eabs]. }
  apply decide_pause_inv in Hdecide
    as (p & Hp & Hsame & Hflag & Hkeep & H120 & H60 & Hlow).
  unfold percent_of. rewrite Hsame, Hp. simpl. split.
  - intros H80. rewrite Hflag. apply orb_true_iff. right. now apply Z.leb_le.
  - intros Hs. destruct (should_pause i3) eqn:E3.
    + rewrite Hkeep by reflexivity. auto.
    + rewrite Hflag in Hs. simpl in Hs. apply Z.leb_le in Hs.
      destruct (Z_lt_le_dec p 90).
      * rewrite H60 by (auto; lia). eexists. split; [reflexivity | lia].
      * rewrite H120 by auto. eexists. split; [reflexivity | lia].
Qed.

Lemma snapshot_pause_is_consistent_witness :
  exists info,
    parse_usage (mk_headers H_absent H_absent (throttle_usage 92 10)) = Some info
    /\ should_pause info = true
    /\ exists n, pause_seconds info = JNum n /\ 0 <= n.
Proof.
  eexists. split; [reflexivity|].
  destruct (snapshot_pause_is_consistent
              (mk_headers H_absent H_absent (throttle_usage 92 10)) _ eq_refl) as [H80 Hn].
  assert (Hs : should_pause
                 (mk_usage_info (JNum 92) true (JNum 120) []) = true)
    by (apply H80; vm_compute; discriminate).
  split; [exact Hs | exact (Hn Hs)].
Defined.

(** X5. [parse_headers] cannot raise when the detailed usage header is
    present or the single-account header is absent: the only way to a
    [TypeError] is a usage taken from the single-account header. *)
Theorem parse_usage_returns (h : headers) :
  present (x_business_use_case_usage h) = true \/ x_ad_account_usage h = H_absent ->
  exists info, parse_usage h = Some info.
Proof.
  intros Hcase. unfold parse_usage.
  pose proof (parse_buc_well_formed (x_business_use_case_usage h) _ usage_info_0_well_formed)
    as [[p Hp] _].
  assert (Hacc : parse_acc (x_business_use_case_usage h) (x_ad_account_usage h)
                   (parse_buc (x_business_use_case_usage h) usage_info_0)
                 = parse_buc (x_business_use_case_usage h) usage_info_0).
  { unfold parse_acc. destruct Hcase as [-> | ->]; [now rewrite andb_false_r | reflexivity]. }
  rewrite Hacc.
  assert (Ht : exists q, as_num (usage_percent
                 (parse_throttle (x_fb_ads_insights_throttle h)
                    (parse_buc (x_business_use_case_usage h) usage_info_0))) = Some q).
  { unfold parse_throttle.
    destruct (x_fb_ads_insights_throttle h) as [|[[| | | | |members]|]];
      try (exists p; exact Hp).
    rewrite Hp.
    destruct (as_num (default (JNum 0) (member "app_id_util_pct" members)));
      [|exists p; exact Hp].
    destruct (as_num (default (JNum 0) (member "acc_id_util_pct" members)));
      [eexists; reflexivity | exists p; exact Hp]. }
  destruct Ht as [q Hq]. destruct (decide_pause_percent _ _ Hq) as (info & Hinfo & _). eauto.
Qed.

Lemma parse_usage_returns_witness :
  exists info,
    parse_usage
      (mk_headers (detailed_usage 10)
         (H_text (Some (JObj [("acc_id_util_pct", JNull)]))) H_absent) = Some info.
Proof.
  apply (parse_usage_returns
           (mk_headers (detailed_usage 10)
              (H_text (Some (JObj [("acc_id_util_pct", JNull)]))) H_absent)).
  left. reflexivity.
Defined.

(** X6. Without the detailed header, the pause decision follows the two
    thresholds: the snapshot asks for a pause exactly when its usage is 80
    or more, for 120 seconds from 90 on and for 60 seconds below. *)
Theorem pause_thresholds (h : headers) (info : usage_info) :
  x_business_use_case_usage h = H_absent ->
  parse_usage h = Some info ->
  should_pause info = (80 <=? percent_of info)
  /\ (90 <= percent_of info -> pause_seconds info = JNum 120)
  /\ (80 <= percent_of info < 90 -> pause_seconds info = JNum 60).
Proof.
  intros Habs. unfold parse_usage. rewrite Habs. simpl. intros Hdecide.
  apply decide_pause_inv in Hdecide as (p & Hp & Hsame & Hflag & _ & H120 & H60 & _).
  destruct (parse_throttle_flags (x_fb_ads_insights_throttle h)
              (parse_acc H_absent (x_ad_account_usage h) usage_info_0)) as [Hf _].
  rewrite parse_acc_flag in Hf. simpl in Hf.
  unfold percent_of. rewrite Hsame, Hp. simpl.
  rewrite Hflag, Hf. simpl. split; [reflexivity|]. split; intros; auto.
Qed.

Lemma pause_thresholds_witness :
  (exists info,
     parse_usage (mk_headers H_absent H_absent (throttle_usage 92 0)) = Some info
     /\ should_pause info = true /\ pause_seconds info = JNum 120)
  /\ (exists info,
        parse_usage (mk_headers H_absent H_absent (throttle_usage 85 0)) = Some info
        /\ should_pause info = true /\ pause_seconds info = JNum 60)
  /\ (exists info,
        parse_usage (mk_headers H_absent H_absent (throttle_usage 50 0)) = Some info
        /\ should_pause info = false).
Proof.
  split; [|split]; eexists; (split; [reflexivity|]).
  - destruct (pause_thresholds (mk_headers H_absent H_absent (throttle_usage 92 0)) _
                eq_refl eq_refl) as (Hs & H120 & _).
    split; [exact Hs | apply H120; vm_compute; discriminate].
  - destruct (pause_thresholds (mk_headers H_absent H_absent (throttle_usage 85 0)) _
                eq_refl eq_refl) as (Hs & _ & H60).
    split; [exact Hs | apply H60; vm_compute; split; [discriminate | reflexivity]].
  - destruct (pause_thresholds (mk_headers H_absent H_absent (throttle_usage 50 0)) _
                eq_refl eq_refl) as (Hs & _ & _).
    exact Hs.
Defined.

(** X7. A pause is slept once: after [check_and_throttle] has paused for
    a resource key, a second call for that key does not pause; the call
    leaves [global_usage], the usage of the snapshot and the snapshots of
    the other keys as they were. *)
Theorem throttle_clears_the_signal (m m' : monitor) (account_id : string) (pause : json) :
  check_and_throttle m account_id = (Some pause, m') ->
  check_and_throttle m' account_id = (None, m')
  /\ global_usage m' = global_usage m
  /\ (percent_of <$> usage_by_account m' !! account_id)
     = (percent_of <$> usage_by_account m !! account_id)
  /\ forall other, other <> account_id ->
       usage_by_account m' !! other = usage_by_account m !! other.
Proof.
  unfold check_and_throttle.
  destruct (usage_by_account m !! account_id) as [usage|] eqn:E; [|discriminate].
  destruct (should_pause usage) eqn:Es; [|discriminate].
  intros [= <- <-]. simpl. rewrite lookup_insert_eq. simpl.
  repeat split; try reflexivity.
  intros other Hne. now apply lookup_insert_ne.
Qed.

Lemma throttle_clears_the_signal_witness :
  let m := mk_monitor {["act_1" := mk_usage_info (JNum 92) true (JNum 120) []]} 92 in
  exists m',
    check_and_throttle m "act_1" = (Some (JNum 120), m')
    /\ check_and_throttle m' "act_1" = (None, m')
    /\ global_usage m' = 92.
Proof.
  intros m. eexists. split; [reflexivity|].
  destruct (throttle_clears_the_signal m _ "act_1" (JNum 120) eq_refl) as (H1 & H2 & _).
  split; [exact H1 | exact H2].
Defined.

(** X8. The recommended concurrency is one of 2, 3, 5, 8 and, because
    [global_usage] only grows, it never goes up again: after a call to
    [parse_headers] it is at most what it was before. *)
Theorem concurrency_never_recovers (m m' : monitor) (h : headers) (account_id : string)
    (info : usage_info) :
  parse_headers m h account_id = Some (info, m') ->
  get_recommended_concurrency m' <= get_recommended_concurrency m
  /\ In (get_recommended_concurrency m') [2; 3; 5; 8].
Proof.
  unfold parse_headers. destruct (parse_usage h) as [info0|]; [|discriminate].
  destruct (as_num (usage_percent info0)) as [p|]; [|discriminate].
  intros [= <- <-]. unfold get_recommended_concurrency. simpl.
  repeat match goal with
  | |- context [?a <=? ?b] => destruct (Z.leb_spec a b)
  end; simpl; split; try lia; auto 6.
Qed.

Lemma concurrency_never_recovers_witness :
  let m := mk_monitor {["act_1" := mk_usage_info (JNum 95) false (JNum 0) []]} 95 in
  exists info m',
    parse_headers m (mk_headers (detailed_usage 10) H_absent H_absent) "act_1"
    = Some (info, m')
    /\ percent_of info = 10
    /\ get_recommended_concurrency m' = 2.
Proof.
  intros m. eexists _, _. split; [reflexivity|]. split; [reflexivity|].
  destruct (concurrency_never_recovers m _ (mk_headers (detailed_usage 10) H_absent H_absent)
              "act_1" _ eq_refl) as [Hle Hin].
  change (get_recommended_concurrency m) with 2 in Hle.
  match type of Hle with ?c <= _ => set (conc := c) in * end.
  destruct Hin as [H|[H|[H|[H|[]]]]]; lia.
Defined.

(* ===================================================================== *)
(** * Further properties of the retrying client *)
(* ===================================================================== *)

Lemma parses_any m h account_id :
  parses h = true -> exists r, parse_headers m h account_id = Some r.
Proof.
  unfold parses, parse_headers.
  destruct (parse_usage h) as [info|]; [|discriminate].
  destruct (as_num (usage_percent info)); [|discriminate]. eauto.
Qed.

Lemma supported_method method :
  supported method = true ->
  negb (String.eqb (upper method) "GET") && negb (String.eqb (upper method) "POST") = false.
Proof.
  unfold supported.
  destruct (String.eqb (upper method) "GET"), (String.eqb (upper method) "POST");
    simpl; congruence.
Qed.

Lemma backoffs_app st evs mon n :
  backoffs (mk_client_state mon n (events st ++ evs)%list)
  = (backoffs st + length (List.filter is_backoff evs))%nat.
Proof. unfold backoffs. simpl. now rewrite List.filter_app, List.length_app. Qed.

(** One attempt sends at most one request and sleeps no backoff. *)
Lemma try_attempt_counts server method account_id st :
  let run := try_attempt server method account_id st in
  (requests_sent st <= requests_sent (snd run) <= S (requests_sent st))%nat
  /\ backoffs (snd run) = backoffs st
  /\ (fst run = Caught -> requests_sent (snd run) = S (requests_sent st)).
Proof.
  unfold try_attempt.
  destruct (check_and_throttle (rate_monitor st) account_id) as [paused mon].
  assert (Hevs : length (List.filter is_backoff
                   match paused with
                   | Some pause => (events st ++ [E_throttle pause])%list
                   | None => events st
                   end) = backoffs st).
  { destruct paused; [|reflexivity].
    rewrite List.filter_app, List.length_app. simpl. unfold backoffs. lia. }
  set (evs := match paused with Some pause => _ | None => _ end) in *.
  assert (Hevs' : length (List.filter is_backoff (evs ++ [E_request])%list) = backoffs st).
  { rewrite List.filter_app, List.length_app. simpl. lia. }
  destruct (negb _ && negb _); cbv zeta; cbn [requests_sent rate_monitor events].
  { simpl. split; [lia|]. split; [exact Hevs | discriminate]. }
  replace (S (requests_sent st) - 1)%nat with (requests_sent st) by lia.
  destruct (server (requests_sent st)) as [status_code response_headers body| | |];
    cbn [fst snd requests_sent events backoffs];
    try (split; [lia|]; split; [exact Hevs' | reflexivity || discriminate]).
  destruct (parse_headers mon response_headers account_id) as [[info mon']|];
    [|simpl; split; [lia|]; split; [exact Hevs' | discriminate]].
  destruct ((400 <=? status_code) && (status_code <? 500) && negb (status_code =? 429)),
    (raise_for_status status_code); simpl;
    (split; [lia|]; split; [exact Hevs' | reflexivity || (destruct body; discriminate)]).
Qed.

(** An attempt answered by a transient failure ends in the [except]
    clause, after one request. *)
Lemma try_attempt_transient server method account_id st :
  supported method = true ->
  transient (server (requests_sent st)) = true ->
  exists st',
    try_attempt server method account_id st = (Caught, st')
    /\ requests_sent st' = S (requests_sent st).
Proof.
  intros Hm Ht. unfold try_attempt.
  destruct (check_and_throttle (rate_monitor st) account_id) as [paused mon].
  rewrite (supported_method _ Hm). cbv zeta. cbn [requests_sent rate_monitor events].
  replace (S (requests_sent st) - 1)%nat with (requests_sent st) by lia.
  destruct (server (requests_sent st)) as [status_code response_headers body| | |];
    simpl in Ht; try discriminate; try (eexists; split; reflexivity).
  apply andb_prop in Ht as [Hp Hr].
  destruct (parses_any mon response_headers account_id Hp) as [[info mon'] ->].
  rewrite Hr.
  destruct ((400 <=? status_code) && (status_code <? 500) && negb (status_code =? 429));
    eexists; split; reflexivity.
Qed.

(** After [k] transient failures within the budget, the loop is at attempt
    [attempt + k] with [k] more requests sent and [k] more backoffs slept. *)
Lemma retry_loop_transients server method account_id attempts :
  supported method = true ->
  forall k remaining attempt st,
    (k < remaining)%nat ->
    attempt + Z.of_nat remaining = attempts + 1 ->
    (forall i, (i < k)%nat -> transient (server (requests_sent st + i)%nat) = true) ->
    exists st',
      retry_loop server method account_id attempts attempt remaining st
      = retry_loop server method account_id attempts (attempt + Z.of_nat k) (remaining - k) st'
      /\ requests_sent st' = (requests_sent st + k)%nat
      /\ backoffs st' = (backoffs st + k)%nat.
Proof.
  intros Hm. induction k as [|k IH]; intros remaining attempt st Hk Hsum Htr.
  - exists st. rewrite Z.add_0_r, Nat.sub_0_r, !Nat.add_0_r. auto.
  - destruct remaining as [|remaining]; [lia|].
    rewrite retry_loop_S.
    destruct (try_attempt_transient server method account_id st Hm) as (st1 & Ht & Hn).
    { rewrite <- (Htr 0%nat ltac:(lia)). f_equal. f_equal. lia. }
    pose proof (try_attempt_counts server method account_id st) as Hc.
    cbv zeta in Hc. rewrite Ht in Hc. simpl in Hc. destruct Hc as (_ & Hb & _).
    rewrite Ht.
    destruct (Z.eqb_spec attempt attempts) as [->|Hne]; [lia|].
    destruct (IH remaining (attempt + 1)
                (mk_client_state (rate_monitor st1) (requests_sent st1)
                   (events st1 ++ [E_backoff attempt])%list))
      as (st' & Hrun & Hn' & Hb').
    + lia.
    + lia.
    + intros i Hi. cbn [requests_sent]. rewrite Hn.
      rewrite <- (Htr (S i) ltac:(lia)). f_equal. f_equal. lia.
    + exists st'. rewrite Hrun. cbn [requests_sent] in Hn'.
      rewrite backoffs_app in Hb'. simpl in Hb'.
      replace (attempt + 1 + Z.of_nat k) with (attempt + Z.of_nat (S k)) by lia.
      replace (S remaining - S k)%nat with (remaining - k)%nat by lia.
      split; [reflexivity|]. split; lia.
Qed.

(** X9. Whatever the server answers, a call sends at most [attempts]
    requests, and it sleeps at most one backoff per request sent and at
    most [attempts - 1] backoffs in all. *)
Theorem requests_within_budget (server : nat -> reply) (method account_id : string)
    (attempts : Z) (st : client_state) :
  let run := _request_with_retry server method attempts account_id st in
  (requests_sent (snd run) <= requests_sent st + Z.to_nat attempts)%nat
  /\ (backoffs (snd run) + requests_sent st <= backoffs st + requests_sent (snd run))%nat
  /\ (backoffs (snd run) <= backoffs st + (Z.to_nat attempts - 1))%nat.
Proof.
  unfold _request_with_retry.
  assert (H : forall remaining attempt st,
             (0 < remaining)%nat ->
             attempt + Z.of_nat remaining = attempts + 1 ->
             let run := retry_loop server method account_id attempts attempt remaining st in
             (requests_sent (snd run) <= requests_sent st + remaining)%nat
             /\ (backoffs (snd run) + requests_sent st
                 <= backoffs st + requests_sent (snd run))%nat
             /\ (backoffs (snd run) <= backoffs st + (remaining - 1))%nat).
  { clear st. induction remaining as [|remaining IH]; intros attempt st Hpos Hsum; [lia|].
    cbv zeta. rewrite retry_loop_S.
    pose proof (try_attempt_counts server method account_id st) as Hc. cbv zeta in Hc.
    destruct (try_attempt server method account_id st) as [[r|] st1]; simpl in Hc.
    - simpl. lia.
    - destruct Hc as (_ & Hb & Hn). specialize (Hn eq_refl).
      destruct (Z.eqb_spec attempt attempts) as [->|Hne].
      + simpl. lia.
      + specialize (IH (attempt + 1)
                      (mk_client_state (rate_monitor st1) (requests_sent st1)
                         (events st1 ++ [E_backoff attempt])%list) ltac:(lia) ltac:(lia)).
        cbv zeta in IH. rewrite backoffs_app in IH. cbn [requests_sent] in IH.
        simpl length in IH. lia. }
  destruct (Z.to_nat attempts) as [|n] eqn:E.
  - simpl. lia.
  - apply H; lia.
Qed.

Lemma try_attempt_final server method account_id st :
  supported method = true ->
  exists st',
    requests_sent st' = S (requests_sent st)
    /\ backoffs st' = backoffs st
    /\ try_attempt server method account_id st
       = (match server (requests_sent st) with
          | Response status_code response_headers body =>
              if parses response_headers then
                if raise_for_status status_code then Caught
                else match body with
                     | Some j => Done (Returns j)
                     | None => Done (Raises X_other)
                     end
              else Done (Raises X_other)
          | Raises_ConnectError | Raises_ReadTimeout => Caught
          | Raises_other => Done (Raises X_other)
          end, st').
Proof.
  intros Hm.
  pose proof (try_attempt_counts server method account_id st) as Hc. cbv zeta in Hc.
  destruct Hc as (_ & Hb & _). revert Hb. unfold try_attempt.
  destruct (check_and_throttle (rate_monitor st) account_id) as [paused mon].
  rewrite (supported_method _ Hm). cbv zeta. cbn [requests_sent rate_monitor events].
  replace (S (requests_sent st) - 1)%nat with (requests_sent st) by lia.
  destruct (server (requests_sent st)) as [status_code response_headers body| | |];
    try (intros Hb; eexists; split; [|split; [exact Hb|]]; reflexivity).
  unfold parses, parse_headers. destruct (parse_usage response_headers) as [info|];
    [|intros Hb; eexists; split; [|split; [exact Hb|]]; reflexivity].
  destruct (as_num (usage_percent info));
    [|intros Hb; eexists; split; [|split; [exact Hb|]]; reflexivity].
  destruct ((400 <=? status_code) && (status_code <? 500) && negb (status_code =? 429)),
    (raise_for_status status_code);
    intros Hb; eexists; (split; [|split; [exact Hb|]]; reflexivity).
Qed.

(** X10. Transient failures are survived, as long as the usage headers
    of every response can be read ([parse_headers] does not raise on
    them): if the first [k] requests, with [k] below the budget, end in a
    connection error, a read timeout or an error status, and the next one
    is answered by a success with a JSON body, the call returns that body
    after [k + 1] requests and [k] backoffs. *)
Theorem recovers_after_transient_failures (server : nat -> reply)
    (method account_id : string) (attempts : Z) (st : client_state) (k : nat)
    (status_code : Z) (response_headers : headers) (j : json) :
  supported method = true ->
  Z.of_nat k < attempts ->
  (forall i, (i < k)%nat -> transient (server (requests_sent st + i)%nat) = true) ->
  server (requests_sent st + k)%nat = Response status_code response_headers (Some j) ->
  raise_for_status status_code = false ->
  parses response_headers = true ->
  let run := _request_with_retry server method attempts account_id st in
  fst run = Returns j
  /\ requests_sent (snd run) = (requests_sent st + k + 1)%nat
  /\ backoffs (snd run) = (backoffs st + k)%nat.
Proof.
  intros Hm Hk Htr Hlast Hok Hparse. unfold _request_with_retry.
  destruct (retry_loop_transients server method account_id attempts Hm k
              (Z.to_nat attempts) 1 st ltac:(lia) ltac:(lia) Htr) as (st' & -> & Hn & Hb).
  destruct (Z.to_nat attempts - k)%nat as [|remaining] eqn:E; [lia|].
  cbv zeta. rewrite retry_loop_S.
  destruct (try_attempt_final server method account_id st' Hm) as (st2 & Hn2 & Hb2 & ->).
  rewrite Hn, Hlast, Hparse, Hok. simpl. split; [reflexivity|]. split; lia.
Qed.

Lemma recovers_after_transient_failures_witness :
  let server := fun n : nat =>
    match n with
    | 0%nat => Raises_ConnectError
    | 1%nat => Response 503 no_headers None
    | _ => Response 200 no_headers (Some (JObj [("data", JArr [])]))
    end in
  let run := _request_with_retry server "get" 4 "act_1" client_state_0 in
  fst run = Returns (JObj [("data", JArr [])])
  /\ requests_sent (snd run) = 3%nat
  /\ backoffs (snd run) = 2%nat.
Proof.
  intros server.
  apply (recovers_after_transient_failures server "get" "act_1" 4 client_state_0 2
           200 no_headers (JObj [("data", JArr [])])).
  - reflexivity.
  - lia.
  - intros [|[|i]] Hi; [reflexivity | reflexivity | lia].
  - reflexivity.
  - reflexivity.
  - reflexivity.
Defined.

(** X11. Only [HTTPStatusError], [ConnectError] and [ReadTimeout] are
    retried: when a request, after [k] transient failures within the
    budget, raises any other exception, that exception leaves the call at
    once, with no further request and no further backoff. *)
Theorem other_exception_is_not_retried (server : nat -> reply)
    (method account_id : string) (attempts : Z) (st : client_state) (k : nat) :
  supported method = true ->
  Z.of_nat k < attempts ->
  (forall i, (i < k)%nat -> transient (server (requests_sent st + i)%nat) = true) ->
  server (requests_sent st + k)%nat = Raises_other ->
  let run := _request_with_retry server method attempts account_id st in
  fst run = Raises X_other
  /\ requests_sent (snd run) = (requests_sent st + k + 1)%nat
  /\ backoffs (snd run) = (backoffs st + k)%nat.
Proof.
  intros Hm Hk Htr Hlast. unfold _request_with_retry.
  destruct (retry_loop_transients server method account_id attempts Hm k
              (Z.to_nat attempts) 1 st ltac:(lia) ltac:(lia) Htr) as (st' & -> & Hn & Hb).
  destruct (Z.to_nat attempts - k)%nat as [|remaining] eqn:E; [lia|].
  cbv zeta. rewrite retry_loop_S.
  destruct (try_attempt_final server method account_id st' Hm) as (st2 & Hn2 & Hb2 & ->).
  rewrite Hn, Hlast. simpl. split; [reflexivity|]. split; lia.
Qed.

Lemma other_exception_is_not_retried_witness :
  let server := fun n : nat =>
    match n with
    | 0%nat => Raises_ReadTimeout
    | _ => Raises_other
    end in
  let run := _request_with_retry server "POST" 4 "global" client_state_0 in
  fst run = Raises X_other
  /\ requests_sent (snd run) = 2%nat
  /\ backoffs (snd run) = 1%nat.
Proof.
  intros server.
  apply (other_exception_is_not_retried server "POST" "global" 4 client_state_0 1).
  - reflexivity.
  - lia.
  - intros [|i] Hi; [reflexivity | lia].
  - reflexivity.
Defined.

(** X12. A method other than GET or POST (in any case) never reaches the
    network: with a budget of at least one attempt the call raises
    [ValueError], which is not retried, without sending a request or
    sleeping a backoff. *)
Theorem unsupported_method_sends_nothing (server : nat -> reply)
    (method account_id : string) (attempts : Z) (st : client_state) :
  supported method = false ->
  1 <= attempts ->
  let run := _request_with_retry server method attempts account_id st in
  fst run = Raises X_ValueError
  /\ requests_sent (snd run) = requests_sent st
  /\ backoffs (snd run) = backoffs st.
Proof.
  intros Hm Hpos. unfold _request_with_retry.
  destruct (Z.to_nat attempts) as [|remaining] eqn:E; [lia|].
  cbv zeta. rewrite retry_loop_S.
  pose proof (try_attempt_counts server method account_id st) as Hc. cbv zeta in Hc.
  destruct Hc as (_ & Hb & _). revert Hb. unfold try_attempt.
  destruct (check_and_throttle (rate_monitor st) account_id) as [paused mon].
  assert (Hu : negb (String.eqb (upper method) "GET")
               && negb (String.eqb (upper method) "POST") = true).
  { unfold supported in Hm. apply orb_false_elim in Hm as [-> ->]. reflexivity. }
  rewrite Hu. simpl. auto.
Qed.

Lemma unsupported_method_sends_nothing_witness :
  let run := _request_with_retry (always 200) "DELETE" 4 "global" client_state_0 in
  fst run = Raises X_ValueError
  /\ requests_sent (snd run) = 0%nat
  /\ backoffs (snd run) = 0%nat.
Proof.
  apply (unsupported_method_sends_nothing (always 200) "DELETE" "global" 4 client_state_0).
  - reflexivity.
  - lia.
Defined.

(* ===================================================================== *)
(** * Further properties of dates and of a run *)
(* ===================================================================== *)

Lemma digit_char_spec d :
  0 <= d <= 9 ->
  is_digit (digit_char d) = true /\ digit_val (digit_char d) = d.
Proof.
  intros H.
  assert (d = 0 \/ d = 1 \/ d = 2 \/ d = 3 \/ d = 4 \/ d = 5 \/ d = 6 \/ d = 7 \/ d = 8
          \/ d = 9) as Hd by lia.
  repeat destruct Hd as [->|Hd]; try subst d; split; reflexivity.
Qed.

Lemma parse_month_pad2 m rest :
  1 <= m <= 12 -> parse_month (pad2 m ++ String "-" rest) = Some (m, rest).
Proof.
  intros H.
  assert (m = 1 \/ m = 2 \/ m = 3 \/ m = 4 \/ m = 5 \/ m = 6 \/ m = 7 \/ m = 8 \/ m = 9
          \/ m = 10 \/ m = 11 \/ m = 12) as Hm by lia.
  repeat destruct Hm as [->|Hm]; try subst m; reflexivity.
Qed.

Lemma parse_day_pad2 d :
  1 <= d <= 31 -> parse_day (pad2 d) = Some (d, EmptyString).
Proof.
  intros H.
  assert (Hd : exists k : nat, (k < 31)%nat /\ d = 1 + Z.of_nat k)
    by (exists (Z.to_nat (d - 1)); lia).
  destruct Hd as (k & Hk & ->).
  do 31 (destruct k as [|k]; [reflexivity|]). lia.
Qed.

Lemma days_in_month_le y m : 1 <= m <= 12 -> _days_in_month y m <= 31.
Proof.
  intros H. unfold _days_in_month.
  destruct ((m =? 2) && _is_leap y); [lia|].
  assert (m = 1 \/ m = 2 \/ m = 3 \/ m = 4 \/ m = 5 \/ m = 6 \/ m = 7 \/ m = 8 \/ m = 9
          \/ m = 10 \/ m = 11 \/ m = 12) as Hm by lia.
  repeat destruct Hm as [->|Hm]; try subst m; simpl; lia.
Qed.

(** X13. Dates survive the text form the run stores them in: a date
    printed by [isoformat] is read back by [strptime(..., '%Y-%m-%d')] as
    the same date. *)
Theorem strptime_isoformat (n : Z) :
  valid_ord n = true -> strptime_ymd (isoformat n) = Some n.
Proof.
  intros Hv. unfold valid_ord, MINORD in Hv. apply andb_prop in Hv as [Hlo Hhi].
  apply Z.leb_le in Hlo, Hhi.
  pose proof (ord2ymd_year_bounds n (conj Hlo Hhi)) as Hy.
  pose proof (ord2ymd_valid n Hlo) as Hvalid.
  pose proof (ord2ymd_roundtrip n Hlo) as Hround.
  unfold isoformat. destruct (_ord2ymd n) as [[y m] d]. simpl in Hy, Hvalid.
  destruct Hvalid as [Hm Hd].
  pose proof (days_in_month_le y m Hm) as Hd31.
  change (format_ymd (y, m, d))
    with (String (digit_char (y / 1000 mod 10))
            (String (digit_char (y / 100 mod 10))
               (String (digit_char (y / 10 mod 10))
                  (String (digit_char (y mod 10))
                     (String "-" (pad2 m ++ String "-" (pad2 d))))))).
  unfold strptime_ymd.
  destruct (digit_char_spec (y / 1000 mod 10)) as [-> ->];
    [Z.to_euclidean_division_equations; lia|].
  destruct (digit_char_spec (y / 100 mod 10)) as [-> ->];
    [Z.to_euclidean_division_equations; lia|].
  destruct (digit_char_spec (y / 10 mod 10)) as [-> ->];
    [Z.to_euclidean_division_equations; lia|].
  destruct (digit_char_spec (y mod 10)) as [-> ->];
    [Z.to_euclidean_division_equations; lia|].
  cbn [andb Ascii.eqb Bool.eqb].
  rewrite (parse_month_pad2 m (pad2 d) Hm), (parse_day_pad2 d ltac:(lia)).
  replace (1000 * (y / 1000 mod 10) + 100 * (y / 100 mod 10) + 10 * (y / 10 mod 10)
           + y mod 10) with y by (Z.to_euclidean_division_equations; lia).
  replace (1 <=? y) with true by (symmetry; apply Z.leb_le; lia).
  replace (d <=? _days_in_month y m) with true by (symmetry; apply Z.leb_le; lia).
  simpl. now rewrite Hround.
Qed.

Lemma strptime_isoformat_witness :
  strptime_ymd (isoformat 738977) = Some 738977 /\ isoformat 738977 = "2024-04-01".
Proof.
  split; [apply (strptime_isoformat 738977); reflexivity | reflexivity].
Defined.

Lemma load_existing_baseline_eq e tenant_id ad_account_id w :
  _load_existing_baseline e tenant_id ad_account_id w
  = (Ok (loaded e w tenant_id ad_account_id), w).
Proof.
  unfold _load_existing_baseline, loaded, existing_of.
  destruct (get_fails e _); [reflexivity|].
  destruct (store w !! _) as [[]|]; reflexivity.
Qed.

Lemma upsert_fails_iff existing new reference_date :
  _upsert_daily_ads existing new reference_date = None
  <-> cutoff_date reference_date = None.
Proof.
  unfold _upsert_daily_ads. destruct (cutoff_date reference_date); split; congruence.
Qed.

Lemma merge_step_pure mode existing daily_insights reference_date w r w' :
  merge_step mode existing daily_insights reference_date w = (r, w') ->
  w' = w
  /\ ((r = Raise OtherError /\ cutoff_date reference_date = None)
      \/ exists merged, r = Ok merged
           /\ forall w1, merge_step mode existing daily_insights reference_date w1
                         = (Ok merged, w1)).
Proof.
  unfold merge_step. destruct mode, existing as [b|];
    try (intros [= <- <-]; split; [reflexivity|]; right; eauto; fail).
  destruct (_upsert_daily_ads (bl_daily_ads b) daily_insights reference_date)
    as [merged|] eqn:E; simpl; intros [= <- <-]; split; try reflexivity.
  - right. eauto.
  - left. split; [reflexivity|]. now apply upsert_fails_iff in E.
Qed.

(** The shard loop: a failure is a [WriteFailed] on one of the files, and
    whatever happens only keys of the directory are written. *)
Lemma write_shards_spec e dir files files_written w :
  let run := write_shards e dir files files_written w in
  last_refresh_at (snd run) = last_refresh_at w
  /\ (forall k, (forall filename, k <> dir ++ "/" ++ filename) ->
                store (snd run) !! k = store w !! k)
  /\ (forall err, fst run = Raise err ->
        exists filename, In filename (map fst files)
                         /\ err = RefreshError (WriteFailed filename))
  /\ (forall fw, fst run = Ok fw ->
        fw = (files_written ++ map fst files)%list
        /\ fetch_log (snd run) = fetch_log w
        /\ store (snd run)
           = fold_left (fun s f => <[dir ++ "/" ++ fst f := O_shard (snd f)]> s) files
               (store w)).
Proof.
  revert files_written w. induction files as [|[filename data] files IH];
    intros files_written w; cbv zeta.
  - simpl. split; [reflexivity|]. split; [auto|]. split; [discriminate|].
    intros fw' [= <-]. rewrite app_nil_r. auto.
  - assert (Hstep : write_shards e dir ((filename, data) :: files) files_written w
                    = if put_fails e (dir ++ "/" ++ filename)
                      then (Raise (RefreshError (WriteFailed filename)), w)
                      else write_shards e dir files (files_written ++ [filename])%list
                             (mk_world (<[dir ++ "/" ++ filename := O_shard data]> (store w))
                                (fetch_log w) (last_refresh_at w))).
    { cbn [write_shards]. unfold bind, except, put_object.
      destruct (put_fails e (dir ++ "/" ++ filename)); reflexivity. }
    rewrite Hstep. clear Hstep.
    destruct (put_fails e (dir ++ "/" ++ filename)); cbn [fst snd].
    + split; [reflexivity|]. split; [auto|]. split; [|discriminate].
      intros err [= <-]. exists filename. split; [now left | reflexivity].
    + specialize (IH (files_written ++ [filename])%list
                    (mk_world (<[dir ++ "/" ++ filename := O_shard data]> (store w))
                       (fetch_log w) (last_refresh_at w))).
      cbv zeta in IH. destruct IH as (Hl & Hk & Hraise & Hok).
      split; [exact Hl|]. split; [|split].
      * intros k Hne. rewrite (Hk k Hne). simpl. apply lookup_insert_ne.
        apply not_eq_sym, Hne.
      * intros err Herr. destruct (Hraise err Herr) as (f & Hin & ->).
        exists f. split; [now right | reflexivity].
      * intros fw Hfw. destruct (Hok fw Hfw) as (-> & Hlog & Hstore).
        rewrite <- app_assoc. simpl. auto.
Qed.

(** Every run either stops before anything is written, or has prepared its
    data and then stops in the optimized directory, succeeds, or fails at
    the final commit with its five files written. *)
Lemma sync_account_data_cases e ad_account_id tenant_id w r w' :
  sync_account_data e ad_account_id tenant_id w = (r, w') ->
  (exists err, r = Raise err
     /\ store w' = store w /\ last_refresh_at w' = last_refresh_at w
     /\ ((exists reason, err = RefreshError reason
                         /\ forall filename, reason = WriteFailed filename ->
                                             filename = "baseline_daily.json")
         \/ (err = OtherError /\ cutoff_date (isoformat (today e - 1)) = None)))
  \/ (exists p, prepares e ad_account_id tenant_id w p
        /\ ((exists filename, r = Raise (RefreshError (WriteFailed filename))
               /\ In filename shard_files
               /\ store w' !! baseline_key tenant_id ad_account_id
                  = Some (O_baseline
                            (new_baseline e (p_mode p) (p_days p) (p_merged p) (p_agg p)))
               /\ last_refresh_at w' = last_refresh_at w)
            \/ (r = Ok (mk_outcome "success" ad_account_id (p_mode p) (p_days p)
                          (Z.of_nat (length (sh_ads (p_agg p))))
                          ("baseline_daily.json" :: shard_files) (now e)
                          (isoformat (today e - p_days p) ++ " to "
                           ++ isoformat (today e - 1)))
                /\ store w' = store_after e ad_account_id tenant_id p (store w)
                /\ last_refresh_at w' = Some (now e))
            \/ (r = Raise DatabaseError
                /\ store w' = store_after e ad_account_id tenant_id p (store w)
                /\ last_refresh_at w' = last_refresh_at w))).
Proof.
  intros Hrun. unfold sync_account_data in Hrun.
  apply bind_inv in Hrun as [(name & w1 & Hstep & Hrun)|(err & Hstep & ->)];
    apply of_option_inv in Hstep as [-> Hname];
    [|left; destruct Hname as [(? & _ & [=])|[_ [= ->]]]; eexists; repeat split; eauto;
      left; eexists; split; [reflexivity | discriminate]].
  destruct Hname as [(? & Hname & [= <-])|[_ [=]]].
  apply bind_inv in Hrun as [(token & w1 & Hstep & Hrun)|(err & Hstep & ->)];
    apply of_option_inv in Hstep as [-> Htoken];
    [|left; destruct Htoken as [(? & _ & [=])|[_ [= ->]]]; eexists; repeat split; eauto;
      left; eexists; split; [reflexivity | discriminate]].
  destruct Htoken as [(? & Htoken & [= <-])|[_ [=]]].
  apply bind_inv in Hrun as [(access_token & w1 & Hstep & Hrun)|(err & Hstep & ->)];
    apply of_option_inv in Hstep as [-> Haccess];
    [|left; destruct Haccess as [(? & _ & [=])|[_ [= ->]]]; eexists; repeat split; eauto;
      left; eexists; split; [reflexivity | discriminate]].
  destruct Haccess as [(? & Haccess & [= <-])|[_ [=]]].
  unfold bind at 1 in Hrun. rewrite load_existing_baseline_eq in Hrun.
  destruct (_determine_refresh_mode (loaded e w tenant_id ad_account_id) _)
    as [mode days] eqn:Emode.
  pose proof (fetch_daily_insights_store e ad_account_id access_token days w) as [Hs Hl].
  apply bind_inv in Hrun as [(rows & w1 & Hfetch & Hrun)|(err & Hfetch & ->)];
    rewrite Hfetch in Hs, Hl; simpl in Hs, Hl;
    [|left; apply fetch_daily_insights_raises in Hfetch as ->; eexists; repeat split; eauto;
      left; eexists; split; [reflexivity | discriminate]].
  apply bind_inv in Hrun as [(merged & w2 & Hmerge & Hrun)|(err & Hmerge & ->)];
    apply merge_step_pure in Hmerge as [-> Hmerge];
    [|left; destruct Hmerge as [[[= ->] Hcut]|(? & [=] & _)]; eexists; repeat split; eauto].
  destruct Hmerge as [[[=] _]|(? & [= <-] & Hmerge)].
  apply bind_inv in Hrun as [(shards & w2 & Htrans & Hrun)|(err & Htrans & ->)].
  2:{ left. unfold except in Htrans.
      destruct (transform_to_columnar e merged _ _ _); simpl in Htrans; [discriminate|].
      injection Htrans as <- <-. eexists. repeat split; eauto.
      left. eexists. split; [reflexivity | discriminate]. }
  unfold except in Htrans.
  destruct (transform_to_columnar e merged _ _ _) as [shards'|] eqn:Etrans;
    simpl in Htrans; [|discriminate].
  injection Htrans as <- <-. destruct shards' as [[meta_v1 agg_v1] summary_v1].
  unfold bind at 1 in Hrun.
  destruct (validate_columnar_format e meta_v1 agg_v1 summary_v1) as [|x xs] eqn:Eval.
  2:{ left. simpl in Hrun. injection Hrun as <- <-. eexists. repeat split; eauto.
      left. eexists. split; [reflexivity | discriminate]. }
  simpl ret in Hrun. cbv beta iota in Hrun.
  apply bind_inv in Hrun as [(u & w2 & Hput & Hrun)|(err & Hput & ->)];
    apply guarded_put_inv in Hput as [[Hr ->]|[Hr ->]]; try discriminate Hr.
  2:{ left. injection Hr as ->. eexists. repeat split; eauto.
      left. eexists. split; [reflexivity|]. now intros f [= <-]. }
  right.
  exists (mk_prepared name access_token mode days rows merged meta_v1 agg_v1 summary_v1).
  split.
  { unfold prepares. cbn [p_name p_access_token p_mode p_days p_rows p_merged p_meta p_agg
                           p_summary].
    repeat split; eauto. }
  cbn [p_name p_access_token p_mode p_days p_rows p_merged p_meta p_agg p_summary].
  set (w2 := mk_world _ _ _) in Hrun.
  assert (Hbase : forall w3 : world,
             (forall k, (forall filename,
                           k <> optimized_path tenant_id ad_account_id ++ "/" ++ filename) ->
                        store w3 !! k = store w2 !! k) ->
             store w3 !! baseline_key tenant_id ad_account_id
             = Some (O_baseline (new_baseline e mode days merged agg_v1))).
  { intros w3 Hk. rewrite Hk by (intros f; apply baseline_key_not_optimized).
    subst w2. simpl. apply lookup_insert_eq. }
  pose proof (write_shards_spec e (optimized_path tenant_id ad_account_id)
                [("meta_v1.json", meta_v1); ("agg_v1.json", agg_v1);
                 ("summary_v1.json", summary_v1)] ["baseline_daily.json"] w2)
    as (Hwl & Hwk & Hwraise & Hwok). cbv zeta in Hwl, Hwk, Hwraise, Hwok.
  apply bind_inv in Hrun as [(files & w3 & Hshards & Hrun)|(err & Hshards & ->)];
    rewrite Hshards in Hwl, Hwk, Hwraise, Hwok; cbn [fst snd] in Hwl, Hwk, Hwraise, Hwok.
  2:{ left. destruct (Hwraise err eq_refl) as (f & Hin & ->).
      exists f. split; [reflexivity|]. split.
      - simpl in Hin. unfold shard_files. simpl. tauto.
      - split; [now apply Hbase | now rewrite Hwl, <- Hl]. }
  destruct (Hwok files eq_refl) as (-> & Hwlog & Hwstore). clear Hwraise Hwok.
  apply bind_inv in Hrun as [(u2 & w4 & Hput2 & Hrun)|(err & Hput2 & ->)];
    apply guarded_put_inv in Hput2 as [[Hr2 ->]|[Hr2 ->]]; try discriminate Hr2.
  2:{ left. injection Hr2 as ->. exists "manifest.json". split; [reflexivity|]. split.
      - unfold shard_files. simpl. tauto.
      - split; [now apply Hbase | now rewrite Hwl, <- Hl]. }
  right.
  assert (Hstore : <[optimized_path tenant_id ad_account_id ++ "/manifest.json" :=
                      O_manifest
                        (mk_manifest (now e) (Z.of_nat (length (sh_ads agg_v1)))
                           (sh_periods agg_v1) mode BASELINE_DAYS)]> (store w3)
                   = store_after e ad_account_id tenant_id
                       (mk_prepared name access_token mode days rows merged meta_v1 agg_v1
                          summary_v1) (store w)).
  { rewrite Hwstore. unfold store_after, new_manifest.
    cbn [p_name p_access_token p_mode p_days p_rows p_merged p_meta p_agg p_summary].
    subst w2. cbn [fold_left store fst snd]. rewrite Hs. reflexivity. }
  apply bind_inv in Hrun as [(u3 & w5 & Hcommit & Hrun)|(err & Hcommit & ->)];
    apply db_commit_inv in Hcommit as [[Hr3 ->]|[Hr3 ->]]; try discriminate Hr3.
  - left. unfold ret in Hrun. injection Hrun as <- <-.
    split; [reflexivity|]. split; [exact Hstore | reflexivity].
  - right. injection Hr3 as ->. split; [reflexivity|]. split; [exact Hstore|].
    cbn [last_refresh_at]. now rewrite Hwl, <- Hl.
Qed.

Lemma isoformat_truthy n : truthy (Some (isoformat n)) = true.
Proof.
  unfold isoformat. destruct (_ord2ymd n) as [[y m] d]. reflexivity.
Qed.

Lemma existing_after_run e ad_account_id tenant_id p s w :
  store w = store_after e ad_account_id tenant_id p s ->
  existing_of w tenant_id ad_account_id
  = Some (new_baseline e (p_mode p) (p_days p) (p_merged p) (p_agg p)).
Proof.
  intros Hs. unfold existing_of. rewrite Hs. unfold store_after. cbv zeta.
  rewrite lookup_insert_ne
    by (apply not_eq_sym, (baseline_key_not_optimized tenant_id ad_account_id "manifest.json")).
  rewrite !lookup_insert_ne by (apply not_eq_sym, baseline_key_not_optimized).
  now rewrite lookup_insert_eq.
Qed.

Lemma store_after_files e ad_account_id tenant_id p s (w : world) :
  store w = store_after e ad_account_id tenant_id p s ->
  raw_dataset_persisted w tenant_id ad_account_id
  /\ forall filename, In filename shard_files ->
       is_Some (store w !! (optimized_path tenant_id ad_account_id ++ "/" ++ filename)).
Proof.
  intros Hs. split.
  - eexists. pose proof (existing_after_run e ad_account_id tenant_id p s w Hs) as H.
    unfold existing_of in H.
    destruct (store w !! baseline_key tenant_id ad_account_id) as [[b| | |]|];
      try discriminate H. injection H as ->. reflexivity.
  - intros filename Hin. rewrite Hs. unfold store_after. cbv zeta.
    unfold shard_files in Hin. simpl in Hin.
    destruct Hin as [<-|[<-|[<-|[<-|[]]]]].
    + do 3 (apply lookup_insert_is_Some'; right). apply lookup_insert_is_Some'. now left.
    + do 2 (apply lookup_insert_is_Some'; right). apply lookup_insert_is_Some'. now left.
    + do 1 (apply lookup_insert_is_Some'; right). apply lookup_insert_is_Some'. now left.
    + apply lookup_insert_is_Some'. now left.
Qed.

(** X14. A run that fails never records a refresh.  It leaves the store
    as it found it unless it fails while writing a file of the optimized
    directory or at the final [db.commit()], which no [try] guards: a run
    that fails at the commit has already written its raw dataset, its
    three shards and its manifest. *)
Theorem failed_run_commits_nothing (e : env) (ad_account_id tenant_id : string)
    (w w' : world) (err : exn) :
  sync_account_data e ad_account_id tenant_id w = (Raise err, w') ->
  last_refresh_at w' = last_refresh_at w
  /\ ((forall filename, In filename shard_files ->
                        err <> RefreshError (WriteFailed filename)) ->
      err <> DatabaseError ->
      store w' = store w)
  /\ (err = DatabaseError ->
      raw_dataset_persisted w' tenant_id ad_account_id
      /\ forall filename, In filename shard_files ->
           is_Some (store w' !! (optimized_path tenant_id ad_account_id ++ "/"
                                 ++ filename))).
Proof.
  intros Hrun.
  apply sync_account_data_cases in Hrun
    as [(err' & [= <-] & Hs & Hl & Herr)
       |(p & _ & [(filename & [= ->] & Hin & _ & Hl)
                 |[([=] & _)|([= ->] & Hs & Hl)]])].
  - split; [exact Hl|]. split; [intros _ _; exact Hs|].
    intros ->. destruct Herr as [(reason & [=] & _)|([=] & _)].
  - split; [exact Hl|]. split; [|discriminate].
    intros Hne. now destruct (Hne filename Hin).
  - split; [exact Hl|]. split; [intros _ Hne; now destruct Hne|].
    intros _. exact (store_after_files e ad_account_id tenant_id p (store w) w' Hs).
Qed.

Lemma failed_run_commits_nothing_witness :
  let e := example_env (fun _ _ => None) [] in
  let run := sync_account_data e "act_1" "t1" world_0 in
  let run' :=
    sync_account_data (with_commit_fails (example_env one_row_per_window [])) "act_1" "t1"
      world_0 in
  fst run = Raise (RefreshError MetaApiFailed)
  /\ last_refresh_at (snd run) = None
  /\ store (snd run) = ∅
  /\ fst run' = Raise DatabaseError
  /\ last_refresh_at (snd run') = None
  /\ raw_dataset_persisted (snd run') "t1" "act_1".
Proof.
  intros e run run'. split; [vm_compute; reflexivity|].
  destruct (failed_run_commits_nothing e "act_1" "t1" world_0 (snd run)
              (RefreshError MetaApiFailed)) as (Hl & Hs & _).
  { vm_compute. reflexivity. }
  split; [exact Hl|]. split; [apply Hs; [intros filename _|]; discriminate|].
  split; [vm_compute; reflexivity|].
  destruct (failed_run_commits_nothing (with_commit_fails (example_env one_row_per_window []))
              "act_1" "t1" world_0 (snd run') DatabaseError) as (Hl' & _ & Hfiles).
  { vm_compute. reflexivity. }
  split; [exact Hl' | exact (proj1 (Hfiles eq_refl))].
Defined.

(** X15. The writes of a run are not atomic: when the write of a shard
    file or of the manifest fails, the raw dataset of this very run is
    already in the store, stamped with the run's time and reference date,
    while no refresh is recorded. *)
Theorem shard_write_failure_keeps_raw_dataset (e : env) (ad_account_id tenant_id : string)
    (w w' : world) (filename : string) :
  sync_account_data e ad_account_id tenant_id w
  = (Raise (RefreshError (WriteFailed filename)), w') ->
  filename <> "baseline_daily.json" ->
  In filename shard_files
  /\ last_refresh_at w' = last_refresh_at w
  /\ exists b,
       store w' !! baseline_key tenant_id ad_account_id = Some (O_baseline b)
       /\ md_timestamp (bl_metadata b) = now e
       /\ md_reference_date (bl_metadata b) = Some (isoformat (today e - 1)).
Proof.
  intros Hrun Hne.
  apply sync_account_data_cases in Hrun
    as [(err' & [= <-] & _ & _ & [(reason & [= <-] & Hfile)|([=] & _)])
       |(p & _ & [(f & [= ->] & Hin & Hb & Hl)|[([=] & _)|([=] & _)]])].
  - now destruct (Hne (Hfile filename eq_refl)).
  - split; [exact Hin|]. split; [exact Hl|]. eexists. split; [exact Hb|]. split; reflexivity.
Qed.

Lemma shard_write_failure_keeps_raw_dataset_witness :
  let e :=
    with_put_fails (example_env one_row_per_window [])
      (String.eqb "tenants/t1/accounts/act_1/data/optimized/agg_v1.json") in
  let run := sync_account_data e "act_1" "t1" world_0 in
  fst run = Raise (RefreshError (WriteFailed "agg_v1.json"))
  /\ last_refresh_at (snd run) = None
  /\ exists b, store (snd run) !! baseline_key "t1" "act_1" = Some (O_baseline b)
               /\ md_reference_date (bl_metadata b) = Some "2024-04-01".
Proof.
  intros e run. split; [vm_compute; reflexivity|].
  destruct (shard_write_failure_keeps_raw_dataset e "act_1" "t1" world_0 (snd run)
              "agg_v1.json") as (_ & Hl & b & Hb & _ & Href).
  - vm_compute. reflexivity.
  - discriminate.
  - split; [exact Hl|]. exists b. split; [exact Hb | exact Href].
Defined.

(** X16. A run that succeeds has written the raw dataset, the three
    shards and the manifest, in that order, has touched no other key of the
    store, and has recorded the refresh at the time it reports. *)
Theorem successful_run_writes_and_commits (e : env) (ad_account_id tenant_id : string)
    (w w' : world) (out : outcome) :
  sync_account_data e ad_account_id tenant_id w = (Ok out, w') ->
  oc_files_written out
  = ["baseline_daily.json"; "meta_v1.json"; "agg_v1.json"; "summary_v1.json";
     "manifest.json"]
  /\ raw_dataset_persisted w' tenant_id ad_account_id
  /\ (forall filename, In filename shard_files ->
        is_Some (store w' !! (optimized_path tenant_id ad_account_id ++ "/" ++ filename)))
  /\ (forall k, k <> baseline_key tenant_id ad_account_id ->
                (forall filename,
                   k <> optimized_path tenant_id ad_account_id ++ "/" ++ filename) ->
                store w' !! k = store w !! k)
  /\ last_refresh_at w' = Some (oc_refreshed_at out)
  /\ oc_refreshed_at out = now e.
Proof.
  intros Hrun.
  apply sync_account_data_cases in Hrun
    as [(err' & [=] & _)|(p & _ & [(f & [=] & _)|[([= ->] & Hs & Hl)|([=] & _)]])].
  split; [reflexivity|]. split; [|split; [|split; [|split; [exact Hl | reflexivity]]]].
  - eexists. pose proof (existing_after_run e ad_account_id tenant_id p (store w) w' Hs) as H.
    unfold existing_of in H.
    destruct (store w' !! baseline_key tenant_id ad_account_id) as [[b| | |]|];
      try discriminate H. injection H as ->. reflexivity.
  - intros filename Hin. rewrite Hs. unfold store_after. cbv zeta.
    unfold shard_files in Hin. simpl in Hin.
    destruct Hin as [<-|[<-|[<-|[<-|[]]]]].
    + do 3 (apply lookup_insert_is_Some'; right). apply lookup_insert_is_Some'. now left.
    + do 2 (apply lookup_insert_is_Some'; right). apply lookup_insert_is_Some'. now left.
    + do 1 (apply lookup_insert_is_Some'; right). apply lookup_insert_is_Some'. now left.
    + apply lookup_insert_is_Some'. now left.
  - intros k Hk Hdir. rewrite Hs. unfold store_after. cbv zeta.
    rewrite lookup_insert_ne by (apply not_eq_sym, (Hdir "manifest.json")).
    rewrite !lookup_insert_ne by (apply not_eq_sym, Hdir).
    apply lookup_insert_ne. now apply not_eq_sym.
Qed.

Lemma successful_run_writes_and_commits_witness :
  let run := sync_account_data (example_env one_row_per_window []) "act_1" "t1" world_0 in
  let out :=
    mk_outcome "success" "act_1" BASELINE 90 1
      ["baseline_daily.json"; "meta_v1.json"; "agg_v1.json"; "summary_v1.json";
       "manifest.json"]
      "2024-04-02T03:00:00+00:00" "2024-01-03 to 2024-04-01" in
  fst run = Ok out
  /\ last_refresh_at (snd run) = Some "2024-04-02T03:00:00+00:00"
  /\ store (snd run) !! "unrelated" = None.
Proof.
  intros run out. split; [vm_compute; reflexivity|].
  destruct (successful_run_writes_and_commits (example_env one_row_per_window []) "act_1"
              "t1" world_0 (snd run) out) as (_ & _ & _ & Hkeys & Hl & _).
  - vm_compute. reflexivity.
  - split; [exact Hl|].
    rewrite Hkeys; [reflexivity | intros H; vm_compute in H; discriminate H |].
    intros filename H. vm_compute in H. discriminate H.
Defined.

Lemma determine_mode_after_run e day ad_account_id tenant_id p s w :
  store w = store_after e ad_account_id tenant_id p s ->
  valid_ord (today e - 1) = true ->
  valid_ord (day - 1) = true ->
  today e <= day ->
  _determine_refresh_mode (existing_of w tenant_id ad_account_id) (isoformat (day - 1))
  = (TAIL, TAIL_BACKFILL_DAYS).
Proof.
  intros Hs Hv Hv' Hle. rewrite (existing_after_run e ad_account_id tenant_id p s w Hs).
  unfold _determine_refresh_mode, new_baseline. cbn [bl_metadata md_reference_date].
  rewrite isoformat_truthy. cbn [negb mbind option_bind].
  rewrite (strptime_isoformat _ Hv), (strptime_isoformat _ Hv').
  destruct (Z.ltb_spec (day - 1 - (today e - 1)) 0); [lia | reflexivity].
Qed.

(** X17. Once a run has succeeded, the next run of the account, on the
    same day or a later one, is a TAIL refresh of 3 days when it can read
    the stored dataset: the dataset the first run stored carries a
    reference date that the second run reads back.  When the read of the
    dataset fails, the run falls back to a BASELINE refresh of 90 days. *)
Theorem next_run_is_tail (e e' : env) (ad_account_id tenant_id : string)
    (w w' w'' : world) (out out' : outcome) :
  sync_account_data e ad_account_id tenant_id w = (Ok out, w') ->
  valid_ord (today e - 1) = true ->
  valid_ord (today e' - 1) = true ->
  today e <= today e' ->
  sync_account_data e' ad_account_id tenant_id w' = (Ok out', w'') ->
  (get_fails e' (baseline_key tenant_id ad_account_id) = false ->
   oc_refresh_mode out' = TAIL /\ oc_days_fetched out' = TAIL_BACKFILL_DAYS)
  /\ (get_fails e' (baseline_key tenant_id ad_account_id) = true ->
      oc_refresh_mode out' = BASELINE /\ oc_days_fetched out' = BASELINE_DAYS).
Proof.
  intros Hrun Hv Hv' Hle Hrun'.
  apply sync_account_data_cases in Hrun
    as [(? & [=] & _)|(p & _ & [(? & [=] & _)|[(_ & Hs & _)|([=] & _)]])].
  apply sync_account_data_cases in Hrun'
    as [(? & [=] & _)|(p' & Hp' & [(? & [=] & _)|[([= ->] & _)|([=] & _)]])].
  destruct Hp' as (_ & _ & Hmode & _). unfold loaded in Hmode.
  cbn [oc_refresh_mode oc_days_fetched].
  split; intros Hread; rewrite Hread in Hmode.
  - rewrite (determine_mode_after_run e (today e') ad_account_id tenant_id p (store w) w'
               Hs Hv Hv' Hle) in Hmode.
    injection Hmode as <- <-. split; reflexivity.
  - cbn [_determine_refresh_mode] in Hmode. injection Hmode as <- <-. split; reflexivity.
Qed.

Lemma next_run_is_tail_witness :
  let e := example_env one_row_per_window [] in
  let e' := on_day e 738979 "2024-04-03T03:00:00+00:00" in
  let e'' := with_get_fails e' (fun _ => true) in
  let run := sync_account_data e "act_1" "t1" world_0 in
  let run' := sync_account_data e' "act_1" "t1" (snd run) in
  let run'' := sync_account_data e'' "act_1" "t1" (snd run) in
  exists out' out'',
    fst run' = Ok out' /\ oc_refresh_mode out' = TAIL /\ oc_days_fetched out' = 3
    /\ fst run'' = Ok out'' /\ oc_refresh_mode out'' = BASELINE
    /\ oc_days_fetched out'' = 90.
Proof.
  intros e e' e'' run run' run''.
  exists (mk_outcome "success" "act_1" TAIL 3 1
            ["baseline_daily.json"; "meta_v1.json"; "agg_v1.json"; "summary_v1.json";
             "manifest.json"]
            "2024-04-03T03:00:00+00:00" "2024-03-31 to 2024-04-02").
  exists (mk_outcome "success" "act_1" BASELINE 90 1
            ["baseline_daily.json"; "meta_v1.json"; "agg_v1.json"; "summary_v1.json";
             "manifest.json"]
            "2024-04-03T03:00:00+00:00" "2024-01-04 to 2024-04-02").
  split; [vm_compute; reflexivity|].
  assert (Hfirst : sync_account_data e "act_1" "t1" world_0
                   = (Ok (mk_outcome "success" "act_1" BASELINE 90 1
                            ["baseline_daily.json"; "meta_v1.json"; "agg_v1.json";
                             "summary_v1.json"; "manifest.json"]
                            "2024-04-02T03:00:00+00:00" "2024-01-03 to 2024-04-01"),
                      snd run)) by (vm_compute; reflexivity).
  destruct (next_run_is_tail e e' "act_1" "t1" world_0 (snd run) (snd run') _
              (mk_outcome "success" "act_1" TAIL 3 1
                 ["baseline_daily.json"; "meta_v1.json"; "agg_v1.json"; "summary_v1.json";
                  "manifest.json"]
                 "2024-04-03T03:00:00+00:00" "2024-03-31 to 2024-04-02") Hfirst)
    as [Htail _];
    [reflexivity | reflexivity | vm_compute; discriminate | vm_compute; reflexivity |].
  destruct (next_run_is_tail e e'' "act_1" "t1" world_0 (snd run) (snd run'') _
              (mk_outcome "success" "act_1" BASELINE 90 1
                 ["baseline_daily.json"; "meta_v1.json"; "agg_v1.json"; "summary_v1.json";
                  "manifest.json"]
                 "2024-04-03T03:00:00+00:00" "2024-01-04 to 2024-04-02") Hfirst)
    as [_ Hbase];
    [reflexivity | reflexivity | vm_compute; discriminate | vm_compute; reflexivity |].
  destruct (Htail eq_refl) as [Hm Hd]. destruct (Hbase eq_refl) as [Hm' Hd'].
  split; [exact Hm|]. split; [exact Hd|]. split; [vm_compute; reflexivity|].
  split; [exact Hm' | exact Hd'].
Defined.

(** X18. A run that succeeds in TAIL mode persists the upsert of the
    stored rows with the rows it fetched (over 3 days, enriched and
    tagged): unlike a BASELINE run, it never stores two rows with the same
    key, and the row count of the metadata is the number of rows stored. *)
Theorem tail_run_persists_upsert (e : env) (ad_account_id tenant_id : string)
    (w w' : world) (out : outcome) :
  sync_account_data e ad_account_id tenant_id w = (Ok out, w') ->
  oc_refresh_mode out = TAIL ->
  exists name access_token rows w1 previous b,
    db_ad_account e ad_account_id tenant_id = Some name
    /\ existing_of w tenant_id ad_account_id = Some previous
    /\ fetch_daily_insights e ad_account_id access_token TAIL_BACKFILL_DAYS w = (Ok rows, w1)
    /\ store w' !! baseline_key tenant_id ad_account_id = Some (O_baseline b)
    /\ _upsert_daily_ads (bl_daily_ads previous)
         (map (tag_account name ad_account_id) (enrich e rows access_token))
         (isoformat (today e - 1))
       = Some (bl_daily_ads b)
    /\ List.NoDup (map key_of (bl_daily_ads b))
    /\ md_total_daily_rows (bl_metadata b) = Z.of_nat (length (bl_daily_ads b)).
Proof.
  intros Hrun Hmode.
  apply sync_account_data_cases in Hrun
    as [(? & [=] & _)|(p & Hp & [(? & [=] & _)|[([= ->] & Hs & _)|([=] & _)]])].
  cbn [oc_refresh_mode] in Hmode.
  destruct Hp as (Hname & _ & Hdet & (w1 & Hfetch) & Hmerge & _).
  pose proof (determine_refresh_mode_range (loaded e w tenant_id ad_account_id)
                (isoformat (today e - 1))) as Hrange.
  rewrite Hdet, Hmode in Hrange. destruct Hrange as [[=]|[= Hdays]].
  destruct (loaded e w tenant_id ad_account_id) as [previous|] eqn:Eprev;
    [|rewrite Hmode in Hdet; discriminate Hdet].
  assert (Hprev : existing_of w tenant_id ad_account_id = Some previous).
  { unfold loaded in Eprev.
    destruct (get_fails e (baseline_key tenant_id ad_account_id));
      [discriminate Eprev | exact Eprev]. }
  specialize (Hmerge w). rewrite Hmode in Hmerge. cbn [merge_step] in Hmerge.
  destruct (_upsert_daily_ads (bl_daily_ads previous) _ _) as [merged|] eqn:Eup;
    [|discriminate Hmerge].
  injection Hmerge as Hmerged.
  exists (p_name p), (p_access_token p), (p_rows p), w1, previous,
    (new_baseline e (p_mode p) (p_days p) (p_merged p) (p_agg p)).
  rewrite <- Hdays. split; [exact Hname|]. split; [exact Hprev|]. split; [exact Hfetch|].
  split.
  { pose proof (existing_after_run e ad_account_id tenant_id p (store w) w' Hs) as H.
    unfold existing_of in H.
    destruct (store w' !! baseline_key tenant_id ad_account_id) as [[b| | |]|];
      try discriminate H. now injection H as ->. }
  cbn [new_baseline bl_daily_ads bl_metadata md_total_daily_rows]. rewrite <- Hmerged.
  split; [exact Eup|]. split; [|reflexivity].
  exact (upsert_keys_NoDup _ _ _ _ Eup).
Qed.

Lemma tail_run_persists_upsert_witness :
  let e := example_env one_row_per_window [] in
  let e' := on_day e 738979 "2024-04-03T03:00:00+00:00" in
  let run := sync_account_data e "act_1" "t1" world_0 in
  let run' := sync_account_data e' "act_1" "t1" (snd run) in
  exists b,
    store (snd run') !! baseline_key "t1" "act_1" = Some (O_baseline b)
    /\ List.NoDup (map key_of (bl_daily_ads b)).
Proof.
  intros e e' run run'.
  destruct (tail_run_persists_upsert e' "act_1" "t1" (snd run) (snd run')
              (mk_outcome "success" "act_1" TAIL 3 1
                 ["baseline_daily.json"; "meta_v1.json"; "agg_v1.json"; "summary_v1.json";
                  "manifest.json"]
                 "2024-04-03T03:00:00+00:00" "2024-03-31 to 2024-04-02"))
    as (_ & _ & _ & _ & _ & b & _ & _ & _ & Hb & _ & Hnd & _).
  - vm_compute. reflexivity.
  - reflexivity.
  - exists b. split; [exact Hb | exact Hnd].
Defined.

(** X19. [_upsert_daily_ads] raises only on a reference date it cannot
    read or whose 90-day cut-off falls before the first day of the
    calendar; it returns for every reference date a run can pass, which is
    yesterday's date as printed by [isoformat]. *)
Theorem upsert_returns_on_printed_date (existing new : list ad) (day : Z) :
  MINORD + BASELINE_DAYS <= day <= MAXORD ->
  exists merged, _upsert_daily_ads existing new (isoformat day) = Some merged.
Proof.
  intros Hday.
  destruct (_upsert_daily_ads existing new (isoformat day)) as [merged|] eqn:E; [eauto|].
  exfalso. apply upsert_fails_iff in E. unfold cutoff_date in E.
  rewrite strptime_isoformat in E.
  - destruct (Z.leb_spec MINORD (day - BASELINE_DAYS)); [discriminate | lia].
  - unfold valid_ord, MINORD, BASELINE_DAYS in *. apply andb_true_intro.
    split; apply Z.leb_le; lia.
Qed.

Lemma upsert_returns_on_printed_date_witness :
  exists merged,
    _upsert_daily_ads [row_jan_2] [row "a1" "2024-04-01" "10"] (isoformat 738977)
    = Some merged.
Proof.
  apply (upsert_returns_on_printed_date [row_jan_2] [row "a1" "2024-04-01" "10"] 738977).
  vm_compute. split; discriminate.
Defined.

(* ===================================================================== *)
(** * Properties of the paginated listings *)
(* ===================================================================== *)

Section PaginationFacts.

Context {St : Type}.
Variable request : St -> json -> bool -> client_result * St.

Lemma paginate_log_bound remaining next_url with_params all s log :
  (length (snd (paginate request remaining next_url with_params all s log))
   <= length log + remaining)%nat.
Proof.
  revert next_url with_params all s log.
  induction remaining as [|remaining IH]; intros next_url with_params all s log.
  - simpl. lia.
  - cbn [paginate]. destruct (py_truthy next_url); [|simpl; lia].
    destruct (request s next_url with_params) as [[response|e] s1];
      [|simpl; rewrite List.length_app; simpl; lia].
    destruct (extend_with_data all response) as [all1|];
      [|simpl; rewrite List.length_app; simpl; lia].
    destruct (next_page response) as [[next|]|];
      try (simpl; rewrite List.length_app; simpl; lia).
    specialize (IH next false all1 s1 (log ++ [(next_url, with_params)])%list).
    rewrite List.length_app in IH. simpl in IH. lia.
Qed.

Lemma linked_page_step members rows paging next all :
  member "data" members = Some (JArr rows) ->
  member "paging" members = Some (JObj paging) ->
  member "next" paging = Some next ->
  extend_with_data all (JObj members) = Some (all ++ rows)%list
  /\ next_page (JObj members) = Some (Some next).
Proof.
  intros Hd Hp Hn. unfold extend_with_data, next_page. simpl.
  now rewrite Hd, Hp; simpl; rewrite Hn.
Qed.

Lemma last_page_step response rows all :
  last_page response rows ->
  extend_with_data all response = Some (all ++ rows)%list
  /\ next_page response = Some None.
Proof.
  intros (members & -> & Hd & Hp). unfold extend_with_data, next_page. simpl.
  rewrite Hd. simpl. split; [reflexivity|].
  destruct Hp as [->|(paging & -> & Hn)]; [reflexivity|]. simpl. now rewrite Hn.
Qed.

(** Following linked pages: the loop goes on from the last of them with
    their rows collected. *)
Lemma paginate_linked pages :
  forall remaining url with_params all s log s_end url_end,
    linked request s url with_params pages s_end url_end ->
    paginate request (length pages + remaining) url with_params all s log
    = paginate request remaining url_end (flag_after with_params pages)
        (all ++ concat (map fst pages))%list s_end
        (log ++ requests_for url with_params pages)%list.
Proof.
  induction pages as [|[rows next] pages IH];
    intros remaining url with_params all s log s_end url_end Hlinked.
  - destruct Hlinked as [-> ->]. simpl. now rewrite !app_nil_r.
  - destruct Hlinked as (Hurl & members & paging & s1 & Hreq & Hd & Hp & Hn & Hrest).
    cbn [length Nat.add paginate]. rewrite Hurl, Hreq.
    destruct (linked_page_step members rows paging next all Hd Hp Hn) as [-> ->].
    rewrite (IH remaining next false _ s1 _ s_end url_end Hrest).
    cbn [map fst concat requests_for flag_after]. rewrite <- !app_assoc.
    destruct pages; reflexivity.
Qed.

End PaginationFacts.

(** X20. The listings are bounded: whatever the provider answers,
    [get_insights_daily] issues at most 200 requests, [get_ad_accounts]
    and [get_demographics] at most 50. *)
Theorem listing_requests_bounded {St : Type}
    (request : St -> json -> bool -> client_result * St)
    (base_url ad_account_id : string) (s : St) :
  (length (snd (get_insights_daily_pages request base_url ad_account_id s)) <= 200)%nat
  /\ (length (snd (get_ad_accounts_pages request base_url s)) <= 50)%nat
  /\ (length (snd (get_demographics_pages request base_url ad_account_id s)) <= 50)%nat.
Proof.
  unfold get_insights_daily_pages, get_ad_accounts_pages, get_demographics_pages.
  split; [|split].
  - exact (paginate_log_bound request 200 _ true [] s []).
  - exact (paginate_log_bound request 50 _ true [] s []).
  - exact (paginate_log_bound request 50 _ true [] s []).
Qed.

(** X21. A listing that ends within the page limit is returned whole:
    when the provider serves linked pages and then a page without a next
    link, the loop returns the rows of all the pages in order, and only the
    first request carries the query parameters. *)
Theorem listing_collects_all_pages {St : Type}
    (request : St -> json -> bool -> client_result * St) (max_pages : nat)
    (url url_end response : json) (pages : list (list json * json)) (rows : list json)
    (s s1 s2 : St) :
  linked request s url true pages s1 url_end ->
  (length pages < max_pages)%nat ->
  py_truthy url_end = true ->
  request s1 url_end (flag_after true pages) = (Returns response, s2) ->
  last_page response rows ->
  paginate request max_pages url true [] s []
  = (Listed (concat (map fst pages) ++ rows), s2,
     (requests_for url true pages ++ [(url_end, flag_after true pages)])%list).
Proof.
  intros Hlinked Hlen Hurl Hreq Hlast.
  replace max_pages with (length pages + S (max_pages - length pages - 1))%nat by lia.
  rewrite (paginate_linked request pages _ url true [] s [] s1 url_end Hlinked).
  cbn [paginate app]. rewrite Hurl, Hreq.
  destruct (last_page_step response rows (concat (map fst pages)) Hlast) as [-> ->].
  reflexivity.
Qed.

Lemma listing_collects_all_pages_witness :
  paginate two_pages 200 (JStr "https://graph/act_1/insights") true [] 0%nat []
  = (Listed [JStr "r1"; JStr "r2"; JStr "r3"], 2%nat,
     [(JStr "https://graph/act_1/insights", true); (JStr "https://graph/p2", false)]).
Proof.
  apply (listing_collects_all_pages two_pages 200 (JStr "https://graph/act_1/insights")
           (JStr "https://graph/p2")
           (JObj [("data", JArr [JStr "r3"]); ("paging", JObj [("cursors", JObj [])])])
           [([JStr "r1"; JStr "r2"], JStr "https://graph/p2")] [JStr "r3"] 0%nat 1%nat 2%nat).
  - split; [reflexivity|]. eexists _, _, _. repeat split; reflexivity.
  - simpl. lia.
  - reflexivity.
  - reflexivity.
  - eexists. split; [reflexivity|]. split; [reflexivity|]. right.
    eexists. split; reflexivity.
Defined.

(** X22. A listing longer than the page limit is cut without an error:
    when the provider serves [max_pages] linked pages, the loop returns
    their rows and stops; the page that the last link points to is never
    requested. *)
Theorem listing_stops_at_page_limit {St : Type}
    (request : St -> json -> bool -> client_result * St) (max_pages : nat)
    (url url_end : json) (pages : list (list json * json)) (s s1 : St) :
  linked request s url true pages s1 url_end ->
  length pages = max_pages ->
  paginate request max_pages url true [] s []
  = (Listed (concat (map fst pages)), s1, requests_for url true pages).
Proof.
  intros Hlinked <-.
  replace (length pages) with (length pages + 0)%nat by lia.
  now rewrite (paginate_linked request pages _ url true [] s [] s1 url_end Hlinked).
Qed.

Lemma listing_stops_at_page_limit_witness :
  paginate endless 2 (JStr "https://graph/me/adaccounts") true [] 0%nat []
  = (Listed [JNum 0; JNum 1], 2%nat,
     [(JStr "https://graph/me/adaccounts", true); (JStr "https://graph/next", false)]).
Proof.
  apply (listing_stops_at_page_limit endless 2 (JStr "https://graph/me/adaccounts")
           (JStr "https://graph/next")
           [([JNum 0], JStr "https://graph/next"); ([JNum 1], JStr "https://graph/next")]
           0%nat 2%nat).
  - split; [reflexivity|]. eexists _, _, _. repeat split; try reflexivity.
    eexists _, _, _. repeat split; reflexivity.
  - reflexivity.
Defined.

(** X23. A listing is all or nothing: when a request fails after some
    pages have been fetched, the exception leaves the loop and the rows
    fetched so far are not returned. *)
Theorem listing_failure_returns_no_rows {St : Type}
    (request : St -> json -> bool -> client_result * St) (max_pages : nat)
    (url url_end : json) (pages : list (list json * json)) (e : client_exn)
    (s s1 s2 : St) :
  linked request s url true pages s1 url_end ->
  (length pages < max_pages)%nat ->
  py_truthy url_end = true ->
  request s1 url_end (flag_after true pages) = (Raises e, s2) ->
  paginate request max_pages url true [] s []
  = (Listing_raises e, s2,
     (requests_for url true pages ++ [(url_end, flag_after true pages)])%list).
Proof.
  intros Hlinked Hlen Hurl Hreq.
  replace max_pages with (length pages + S (max_pages - length pages - 1))%nat by lia.
  rewrite (paginate_linked request pages _ url true [] s [] s1 url_end Hlinked).
  cbn [paginate app]. now rewrite Hurl, Hreq.
Qed.

Lemma listing_failure_returns_no_rows_witness :
  paginate fails_on_second 200 (JStr "https://graph/act_1/insights") true [] 0%nat []
  = (Listing_raises X_MetaAPIError_after_attempts, 2%nat,
     [(JStr "https://graph/act_1/insights", true); (JStr "https://graph/p2", false)]).
Proof.
  apply (listing_failure_returns_no_rows fails_on_second 200
           (JStr "https://graph/act_1/insights") (JStr "https://graph/p2")
           [([JStr "r1"; JStr "r2"], JStr "https://graph/p2")]
           X_MetaAPIError_after_attempts 0%nat 1%nat 2%nat).
  - split; [reflexivity|]. eexists _, _, _. repeat split; reflexivity.
  - simpl. lia.
  - reflexivity.
  - reflexivity.
Defined.

(* ===================================================================== *)
(** * Properties of the background refresh job *)
(* ===================================================================== *)

(** X24. As long as none of the job's own database calls raises, a job
    that exists is not left RUNNING by a run that returns or raises an
    [Exception]: after [_run_refresh_job] it is OK when the run returned,
    with the refresh recorded on the account, and ERROR when the run
    raised, with no refresh recorded and [str(e)[:1000]], the first 1000
    characters of the message, as its error; it carries both timestamps,
    and no other job is touched.  A run that is cancelled during the
    [await] leaves the job RUNNING, with its start time only. *)
Theorem refresh_job_ends_ok_or_error (e : env) (raises : db_call -> bool)
    (interrupt : option world) (str : exn -> text)
    (t_start t_end job_id fb_account_id tenant_id : string)
    (jobs : gmap string RefreshJob) (w : world) (job : RefreshJob) :
  jobs !! job_id = Some job ->
  (forall c, raises c = false) ->
  (interrupt = None ->
   exists jobs' w' job',
     _run_refresh_job e raises interrupt str t_start t_end job_id fb_account_id tenant_id
       jobs w = Job_returned jobs' w'
     /\ jobs' !! job_id = Some job'
     /\ job_started_at job' = Some t_start
     /\ job_finished_at job' = Some t_end
     /\ ((job_status job' = OK
          /\ (exists out, sync_account_data e fb_account_id tenant_id w = (Ok out, w'))
          /\ last_refresh_at w' = Some (now e)
          /\ job_error job' = job_error job)
         \/ (job_status job' = ERROR
             /\ last_refresh_at w' = last_refresh_at w
             /\ exists err,
                  sync_account_data e fb_account_id tenant_id w = (Raise err, w')
                  /\ job_error job' = Some (firstn 1000 (str err))))
     /\ forall other, other <> job_id -> jobs' !! other = jobs !! other)
  /\ (forall w1, interrupt = Some w1 ->
      _run_refresh_job e raises interrupt str t_start t_end job_id fb_account_id tenant_id
        jobs w
      = Job_interrupted
          (<[job_id := mk_job RUNNING (Some t_start) (job_finished_at job) (job_error job)]>
             jobs) w1).
Proof.
  intros Hjob Hdb. unfold _run_refresh_job. rewrite !Hdb, Hjob. cbv zeta.
  rewrite lookup_insert_eq. split; [intros -> | intros w1 ->; reflexivity].
  destruct (sync_account_data e fb_account_id tenant_id w) as [[out|err] w1] eqn:Erun.
  - eexists _, _, _. split; [reflexivity|]. split; [apply lookup_insert_eq|]. cbn.
    split; [reflexivity|]. split; [reflexivity|]. split.
    + left. split; [reflexivity|]. split; [eauto|]. split; [|reflexivity].
      apply sync_account_data_cases in Erun
        as [(? & [=] & _)|(p & _ & [(? & [=] & _)|[(_ & _ & Hl)|([=] & _)]])]. exact Hl.
    + intros other Hne. now rewrite !lookup_insert_ne by (now apply not_eq_sym).
  - eexists _, _, _. split; [reflexivity|]. split; [apply lookup_insert_eq|]. cbn.
    split; [reflexivity|]. split; [reflexivity|]. split.
    + right. split; [reflexivity|]. split.
      * apply sync_account_data_cases in Erun
          as [(? & _ & _ & Hl & _)
             |(p & _ & [(? & _ & _ & _ & Hl)|[([=] & _)|(_ & _ & Hl)]])]; exact Hl.
      * eexists. split; reflexivity.
    + intros other Hne. now rewrite !lookup_insert_ne by (now apply not_eq_sym).
Qed.

Lemma refresh_job_ends_ok_or_error_witness :
  let e := example_env (fun _ _ => None) [] in
  let jobs : gmap string RefreshJob := {["job-1" := mk_job QUEUED None None None]} in
  let message : text := [77; 101; 116; 97]%N in
  let run :=
    _run_refresh_job e (fun _ => false) None (fun _ => message) "03:00:00" "03:00:05"
      "job-1" "act_1" "t1" jobs world_0 in
  let cancelled :=
    _run_refresh_job e (fun _ => false) (Some world_0) (fun _ => message) "03:00:00"
      "03:00:05" "job-1" "act_1" "t1" jobs world_0 in
  (exists jobs' w' job',
     run = Job_returned jobs' w'
     /\ jobs' !! "job-1" = Some job'
     /\ job_status job' = ERROR
     /\ job_started_at job' = Some "03:00:00"
     /\ job_finished_at job' = Some "03:00:05"
     /\ job_error job' = Some message)
  /\ cancelled
     = Job_interrupted (<["job-1" := mk_job RUNNING (Some "03:00:00") None None]> jobs)
         world_0.
Proof.
  intros e jobs message run cancelled.
  pose proof (refresh_job_ends_ok_or_error e (fun _ => false) None (fun _ => message)
                "03:00:00" "03:00:05" "job-1" "act_1" "t1" jobs world_0
                (mk_job QUEUED None None None) eq_refl (fun _ => eq_refl)) as [Hrun _].
  pose proof (refresh_job_ends_ok_or_error e (fun _ => false) (Some world_0)
                (fun _ => message) "03:00:00" "03:00:05" "job-1" "act_1" "t1" jobs world_0
                (mk_job QUEUED None None None) eq_refl (fun _ => eq_refl)) as [_ Hcancel].
  split; [|exact (Hcancel world_0 eq_refl)].
  destruct (Hrun eq_refl) as (jobs' & w' & job' & Hret & Hjob' & Hstart & Hend & Hcase & _).
  exists jobs', w', job'. split; [exact Hret|]. split; [exact Hjob'|].
  assert (Hfails : fst (sync_account_data e "act_1" "t1" world_0)
                   = Raise (RefreshError MetaApiFailed)) by (vm_compute; reflexivity).
  destruct Hcase as [(_ & (out & Hout) & _)|(Hstatus & _ & err & _ & Herr)].
  - rewrite Hout in Hfails. discriminate Hfails.
  - split; [exact Hstatus|]. split; [exact Hstart|]. split; [exact Hend | exact Herr].
Defined.

(* ===================================================================== *)
(** * Properties of the enrichment with creatives *)
(* ===================================================================== *)

Lemma slices_cons {A} (n : nat) (l : list A) :
  (0 < n)%nat -> l <> [] -> slices n l = firstn n l :: slices n (skipn n l).
Proof.
  intros Hn Hl. unfold slices.
  assert (Hlen : (0 < length l)%nat) by (destruct l; [congruence | simpl; lia]).
  assert (Hdiv : ((length l + n - 1) / n = S ((length (skipn n l) + n - 1) / n))%nat).
  { rewrite List.length_skipn.
    destruct (Nat.le_gt_cases n (length l)) as [Hle|Hgt].
    - replace (length l + n - 1)%nat with ((length l - n + n - 1) + 1 * n)%nat by lia.
      rewrite Nat.div_add by lia. lia.
    - replace (length l + n - 1)%nat with ((length l - 1) + 1 * n)%nat by lia.
      rewrite Nat.div_add by lia.
      replace (length l - n + n - 1)%nat with (n - 1)%nat by lia.
      rewrite !Nat.div_small by lia. reflexivity. }
  rewrite Hdiv. cbn [seq map]. f_equal.
  rewrite <- seq_shift, map_map. apply map_ext. intros j.
  rewrite skipn_skipn. f_equal. f_equal. lia.
Qed.

Lemma slices_nil {A} (n : nat) : (0 < n)%nat -> slices n (@nil A) = [].
Proof.
  intros Hn. unfold slices. simpl. now rewrite Nat.div_small by lia.
Qed.

Lemma concat_slices {A} (n : nat) (l : list A) : (0 < n)%nat -> concat (slices n l) = l.
Proof.
  intros Hn. remember (length l) as len eqn:Hlen. revert l Hlen.
  induction len as [len IH] using lt_wf_ind. intros l Hlen.
  destruct l as [|x l]; [now rewrite slices_nil|].
  rewrite slices_cons by (auto; discriminate). cbn [concat].
  rewrite (IH (length (skipn n (x :: l)))); [apply firstn_skipn | | reflexivity].
  rewrite List.length_skipn. subst len. simpl. lia.
Qed.

Lemma slices_length {A} (n : nat) (l : list A) batch :
  In batch (slices n l) -> (length batch <= n)%nat.
Proof.
  unfold slices. rewrite in_map_iff. intros (j & <- & _). apply firstn_le_length.
Qed.

Lemma slices_nonempty {A} (n : nat) (l : list A) batch :
  (0 < n)%nat -> In batch (slices n l) -> batch <> [].
Proof.
  intros Hn. remember (length l) as len eqn:Hlen. revert l Hlen.
  induction len as [len IH] using lt_wf_ind. intros l Hlen.
  destruct l as [|x l]; [now rewrite slices_nil|].
  rewrite slices_cons by (auto; discriminate). intros [<-|Hin].
  - destruct n; [lia | discriminate].
  - apply (IH (length (skipn n (x :: l)))) in Hin; [assumption | | reflexivity].
    rewrite List.length_skipn. subst len. simpl. lia.
Qed.

Lemma enrich_row_fields data a :
  ad_id (enrich_row data a) = ad_id a
  /\ date_start (enrich_row data a) = date_start a
  /\ date (enrich_row data a) = date a
  /\ account_name (enrich_row data a) = account_name a
  /\ account_id (enrich_row data a) = account_id a.
Proof.
  unfold enrich_row. destruct (ad_id a) as [id|] eqn:E; [|now rewrite <- E].
  destruct (truthy (Some id)); [|now rewrite <- E].
  destruct (data !! id); now rewrite <- E.
Qed.

(** X25. Enrichment keeps the rows: whatever the batch calls return and
    in whatever order the set lists the ids, the result has the same
    number of rows in the same order, each with its ad id, its dates and
    its account fields, hence with the same merge key. *)
Theorem enrichment_keeps_rows_and_keys (set_order : list string -> list string)
    (fetch_creatives_batch : list string -> string -> list (string * creative_info))
    (ads : list ad) (access_token : string) :
  let enriched := enrich_ads set_order fetch_creatives_batch ads access_token in
  length enriched = length ads
  /\ map ad_id enriched = map ad_id ads
  /\ map date_start enriched = map date_start ads
  /\ map date enriched = map date ads
  /\ map key_of enriched = map key_of ads.
Proof.
  cbv zeta. unfold enrich_ads. destruct ads as [|a ads]; [repeat split|].
  set (data := fetch_all_creatives _ _ _).
  rewrite length_map, !map_map. repeat split; apply map_ext; intros x;
    try apply (enrich_row_fields data x).
  unfold key_of. destruct (enrich_row_fields data x) as (-> & -> & -> & _). reflexivity.
Qed.

Lemma setdefault_has_key k v cols : In k (map fst (setdefault k v cols)).
Proof.
  unfold setdefault. destruct (dict_get k cols) eqn:E; [|apply dict_set_has_key].
  induction cols as [|[k' v'] cols IH]; [discriminate|]. simpl in *.
  destruct (decide (k' = k)) as [->|Hne]; [now left | right; auto].
Qed.

Lemma setdefault_keeps_keys k k' v cols :
  In k' (map fst cols) -> In k' (map fst (setdefault k v cols)).
Proof.
  unfold setdefault. destruct (dict_get k cols); [auto | apply dict_set_keeps_keys].
Qed.

Lemma ad_defaults_fields a k : In k display_fields -> In k (map fst (columns (ad_defaults a))).
Proof.
  unfold display_fields, ad_defaults. cbn [columns]. intros [<-|[<-|[<-|[<-|[]]]]].
  - do 3 apply setdefault_keeps_keys. apply setdefault_has_key.
  - do 2 apply setdefault_keeps_keys. apply setdefault_has_key.
  - do 1 apply setdefault_keeps_keys. apply setdefault_has_key.
  - apply setdefault_has_key.
Qed.

Lemma ad_update_fields a c k :
  In k display_fields -> In k (map fst (columns (ad_update a (creative_items c)))).
Proof.
  unfold display_fields, ad_update, creative_items. cbn [columns fold_left fst snd].
  intros [<-|[<-|[<-|[<-|[]]]]].
  - do 4 apply dict_set_keeps_keys. apply dict_set_has_key.
  - do 3 apply dict_set_keeps_keys. apply dict_set_has_key.
  - do 2 apply dict_set_keeps_keys. apply dict_set_has_key.
  - do 1 apply dict_set_keeps_keys. apply dict_set_has_key.
Qed.

(** X26. After enrichment every row carries the fields [status],
    [effective_status], [format] and [media_url], whether a creative was
    found for it or not. *)
Theorem enrichment_fills_display_fields (set_order : list string -> list string)
    (fetch_creatives_batch : list string -> string -> list (string * creative_info))
    (ads : list ad) (access_token : string) (a : ad) (k : string) :
  In a (enrich_ads set_order fetch_creatives_batch ads access_token) ->
  In k display_fields ->
  In k (map fst (columns a)).
Proof.
  unfold enrich_ads. destruct ads as [|a0 ads]; [intros []|].
  set (data := fetch_all_creatives _ _ _). rewrite in_map_iff.
  intros (x & <- & _) Hk. unfold enrich_row.
  destruct (ad_id x) as [id|]; [|now apply ad_defaults_fields].
  destruct (truthy (Some id)); [|now apply ad_defaults_fields].
  destruct (data !! id); [now apply ad_update_fields | now apply ad_defaults_fields].
Qed.

Lemma enrichment_fills_display_fields_witness :
  let a := ad_defaults (row "a1" "2024-04-01" "10") in
  In a (enrich_ads (fun l => l) (fun _ _ => []) [row "a1" "2024-04-01" "10"] "EAAB")
  /\ In "format" (map fst (columns a)).
Proof.
  intros a.
  assert (Ha : In a (enrich_ads (fun l => l) (fun _ _ => [])
                       [row "a1" "2024-04-01" "10"] "EAAB")) by (left; reflexivity).
  split; [exact Ha|].
  apply (enrichment_fills_display_fields (fun l => l) (fun _ _ => [])
           [row "a1" "2024-04-01" "10"] "EAAB" a "format" Ha).
  unfold display_fields. simpl. tauto.
Defined.

Lemma setdefault_get k k' v cols :
  dict_get k (setdefault k' v cols)
  = match dict_get k cols with
    | Some x => Some x
    | None => if decide (k' = k) then Some v else None
    end.
Proof.
  unfold setdefault. destruct (dict_get k' cols) as [x|] eqn:E.
  - destruct (dict_get k cols) eqn:E'; [reflexivity|].
    destruct (decide (k' = k)) as [->|]; [congruence | reflexivity].
  - rewrite dict_get_set. destruct (decide (k' = k)) as [->|Hne].
    + now rewrite E.
    + now destruct (dict_get k cols).
Qed.

Lemma fold_chunks {A} (f : A -> list (string * creative_info)) chunks d :
  fold_left (fun data chunk => fold_left update_all (map f chunk) data) chunks d
  = fold_left update_all (map f (concat chunks)) d.
Proof.
  revert d. induction chunks as [|c chunks IH]; intros d; [reflexivity|].
  cbn [fold_left concat]. now rewrite IH, map_app, fold_left_app.
Qed.

Lemma fetch_all_creatives_flat fetch batches access_token :
  fetch_all_creatives fetch batches access_token
  = fold_left update_all (map (fun batch => fetch batch access_token) batches) ∅.
Proof.
  unfold fetch_all_creatives. cbv zeta. rewrite fold_chunks.
  now rewrite concat_slices by lia.
Qed.

Lemma update_all_lookup d result id :
  update_all d result !! id
  = match update_all ∅ result !! id with
    | Some c => Some c
    | None => d !! id
    end.
Proof.
  unfold update_all. revert d. induction result as [|[k v] result IH]; intros d.
  - simpl. now rewrite lookup_empty.
  - cbn [fold_left fst snd]. rewrite (IH (<[k:=v]> d)), (IH (<[k:=v]> ∅)).
    destruct (fold_left _ result ∅ !! id); [reflexivity|].
    destruct (decide (k = id)) as [->|Hne].
    + now rewrite !lookup_insert_eq.
    + now rewrite !lookup_insert_ne, lookup_empty by assumption.
Qed.

Lemma update_all_absent d result id :
  ~ In id (map fst result) -> update_all d result !! id = d !! id.
Proof.
  unfold update_all. revert d. induction result as [|[k v] result IH]; intros d Hnot;
    [reflexivity|].
  cbn [fold_left fst snd]. rewrite IH by (intros H; apply Hnot; now right).
  apply lookup_insert_ne. intros ->. apply Hnot. now left.
Qed.

Lemma fold_update_absent results d id :
  (forall r, In r results -> ~ In id (map fst r)) ->
  fold_left update_all results d !! id = d !! id.
Proof.
  revert d. induction results as [|r results IH]; intros d Hnot; [reflexivity|].
  cbn [fold_left]. rewrite IH by (intros r' Hr'; apply Hnot; now right).
  apply update_all_absent, Hnot. now left.
Qed.

Lemma NoDup_app_disjoint {A} (l1 l2 : list A) x :
  List.NoDup (l1 ++ l2) -> In x l1 -> In x l2 -> False.
Proof.
  induction l1 as [|a l1 IH]; simpl; [tauto|].
  intros Hnd [->|Hin] Hin2; inversion Hnd as [|? ? Hnot Hnd']; subst.
  - apply Hnot, in_or_app. now right.
  - now apply IH.
Qed.

Lemma failed_fetch_data fetch batches access_token :
  (forall batch, fetch batch access_token = []) ->
  fetch_all_creatives fetch batches access_token = ∅.
Proof.
  intros Hfail. rewrite fetch_all_creatives_flat.
  induction batches as [|b batches IH]; [reflexivity|].
  cbn [map fold_left]. now rewrite Hfail.
Qed.

(** X27. Rows for which no creative comes back are completed, not
    overwritten: when every batch call fails (it then returns an empty
    dict), each row keeps the value of every field it had, and gets
    ["UNKNOWN"] for a missing [status], [effective_status] or [format] and
    the empty string for a missing [media_url]. *)
Theorem failed_fetch_keeps_existing_values (set_order : list string -> list string)
    (fetch_creatives_batch : list string -> string -> list (string * creative_info))
    (ads : list ad) (access_token : string) :
  (forall batch, fetch_creatives_batch batch access_token = []) ->
  enrich_ads set_order fetch_creatives_batch ads access_token = map ad_defaults ads
  /\ forall a k,
       dict_get k (columns (ad_defaults a))
       = match dict_get k (columns a) with
         | Some v => Some v
         | None =>
             if decide (In k display_fields)
             then Some (if String.eqb k "media_url" then "" else "UNKNOWN")
             else None
         end.
Proof.
  intros Hfail. split.
  - unfold enrich_ads. destruct ads as [|a0 ads]; [reflexivity|].
    rewrite (failed_fetch_data _ _ _ Hfail). apply map_ext. intros a.
    unfold enrich_row. destruct (ad_id a) as [id|]; [|reflexivity].
    destruct (truthy (Some id)); [|reflexivity]. now rewrite lookup_empty.
  - intros a k. unfold ad_defaults. cbn [columns]. rewrite !setdefault_get.
    destruct (dict_get k (columns a)) as [v|]; [reflexivity|].
    unfold display_fields.
    destruct (decide ("status" = k)) as [<-|H1]; [reflexivity|].
    destruct (decide ("effective_status" = k)) as [<-|H2]; [reflexivity|].
    destruct (decide ("format" = k)) as [<-|H3]; [reflexivity|].
    destruct (decide ("media_url" = k)) as [<-|H4]; [reflexivity|].
    destruct (decide _) as [Hin|]; [|reflexivity].
    simpl in Hin. intuition congruence.
Qed.

Lemma failed_fetch_keeps_existing_values_witness :
  let a := mk_ad (Some "a1") (Some "2024-04-01") None None None [("format", "VIDEO")] in
  let enriched := enrich_ads (fun l => l) (fun _ _ => []) [a] "EAAB" in
  enriched = [ad_defaults a]
  /\ dict_get "format" (columns (ad_defaults a)) = Some "VIDEO"
  /\ dict_get "status" (columns (ad_defaults a)) = Some "UNKNOWN".
Proof.
  intros a enriched.
  destruct (failed_fetch_keeps_existing_values (fun l => l) (fun _ _ => []) [a] "EAAB")
    as [Hrows Hget]; [reflexivity|].
  split; [exact Hrows|]. split; [exact (Hget a "format") | exact (Hget a "status")].
Defined.

(** X28. A row is enriched from the answer to the batch that holds its
    id: when the set lists each id once and a batch call answers only for
    ids of its batch, a row with an id gets the creative that the call for
    the one batch holding that id returned for it, and the defaults when
    that call returned none; the batch holds at most 50 ids. *)
Theorem row_enriched_from_its_batch (set_order : list string -> list string)
    (fetch_creatives_batch : list string -> string -> list (string * creative_info))
    (ads : list ad) (access_token : string) (a : ad) (id : string) :
  lists_a_set set_order ->
  (forall batch k, In k (map fst (fetch_creatives_batch batch access_token)) ->
                   In k batch) ->
  In a ads ->
  ad_id a = Some id ->
  truthy (Some id) = true ->
  exists batch,
    In batch (creative_batches set_order ads)
    /\ In id batch
    /\ (length batch <= 50)%nat
    /\ In (match update_all ∅ (fetch_creatives_batch batch access_token) !! id with
           | Some creative => ad_update a (creative_items creative)
           | None => ad_defaults a
           end)
          (enrich_ads set_order fetch_creatives_batch ads access_token).
Proof.
  intros Hset Hkeys Ha Hid Htruthy.
  destruct (Hset (omap ad_id ads)) as [Hnd Hmem].
  assert (Hin : In id (concat (creative_batches set_order ads))).
  { unfold creative_batches. cbv zeta. rewrite concat_slices by lia. apply Hmem.
    apply list_elem_of_In, list_elem_of_omap. exists a. split; [|exact Hid].
    now apply list_elem_of_In. }
  apply in_concat in Hin as (batch & Hbatch & Hidb).
  exists batch. split; [exact Hbatch|]. split; [exact Hidb|].
  split; [exact (slices_length 50 _ batch Hbatch)|].
  unfold enrich_ads. destruct ads as [|a0 ads]; [destruct Ha|].
  set (rows := a0 :: ads) in *.
  apply in_map_iff. exists a. split; [|exact Ha].
  unfold enrich_row. rewrite Hid, Htruthy.
  rewrite fetch_all_creatives_flat.
  destruct (in_split _ _ Hbatch) as (pre & post & Hsplit).
  assert (Hnd' : List.NoDup (concat pre ++ batch ++ concat post)).
  { rewrite <- (concat_slices 50 (set_order (omap ad_id rows))) in Hnd by lia.
    unfold creative_batches in Hsplit. cbv zeta in Hsplit. rewrite Hsplit in Hnd.
    now rewrite concat_app in Hnd. }
  rewrite Hsplit, map_app, fold_left_app. cbn [map fold_left].
  rewrite fold_update_absent.
  2:{ intros r Hr Hk. apply in_map_iff in Hr as (b & <- & Hb). apply Hkeys in Hk.
      apply NoDup_app_remove_l in Hnd'.
      apply (NoDup_app_disjoint _ _ id Hnd' Hidb). apply in_concat. eauto. }
  rewrite update_all_lookup, fold_update_absent, lookup_empty.
  2:{ intros r Hr Hk. apply in_map_iff in Hr as (b & <- & Hb). apply Hkeys in Hk.
      apply (NoDup_app_disjoint _ _ id Hnd').
      - apply in_concat. eauto.
      - apply in_or_app. now left. }
  now destruct (update_all ∅ (fetch_creatives_batch batch access_token) !! id).
Qed.

Lemma row_enriched_from_its_batch_witness :
  let a := row "a1" "2024-04-01" "10" in
  let creative :=
    mk_creative "ACTIVE" "ACTIVE" "VIDEO" "https://www.facebook.com/watch/?v=7" "ACTIVE" in
  let fetch := fun (batch : list string) (_ : string) => map (fun k => (k, creative)) batch in
  In (ad_update a (creative_items creative)) (enrich_ads remove_dups fetch [a] "EAAB").
Proof.
  intros a creative fetch.
  destruct (row_enriched_from_its_batch remove_dups fetch [a] "EAAB" a "a1")
    as (batch & Hbatch & Hid & _ & Hrow).
  - intros l. split; [apply NoDup_ListNoDup, NoDup_remove_dups|].
    intros x. rewrite <- !list_elem_of_In. apply elem_of_remove_dups.
  - intros batch k Hk. unfold fetch in Hk. rewrite map_map in Hk. simpl in Hk.
    now rewrite map_id in Hk.
  - now left.
  - reflexivity.
  - reflexivity.
  - vm_compute in Hbatch. destruct Hbatch as [<-|[]]. exact Hrow.
Defined.

(** X29. The ids are requested in batches that respect the limit of the
    batch API: the batches are not empty, none holds more than 50 ids, and
    put end to end they are the list of the ids, so that each id is
    requested once. *)
Theorem creative_batches_partition (set_order : list string -> list string)
    (ads : list ad) :
  let batches := creative_batches set_order ads in
  concat batches = set_order (omap ad_id ads)
  /\ (forall batch, In batch batches -> (0 < length batch <= 50)%nat)
  /\ length batches = ((length (set_order (omap ad_id ads)) + 49) / 50)%nat.
Proof.
  cbv zeta. unfold creative_batches. cbv zeta. split; [apply concat_slices; lia|]. split.
  - intros batch Hin. split; [|exact (slices_length 50 _ batch Hin)].
    pose proof (slices_nonempty 50 _ batch ltac:(lia) Hin).
    destruct batch; [congruence | simpl; lia].
  - unfold slices. rewrite length_map, length_seq. f_equal. lia.
Qed.

(* ===================================================================== *)
(** * Properties of a batch of creatives *)
(* ===================================================================== *)

Lemma batch_loop_keys loads py_str ad_ids batch_responses :
  forall i results results',
    batch_loop loads py_str ad_ids i batch_responses results = Some results' ->
    (forall k, In k (map fst results) -> In k ad_ids) ->
    List.NoDup (map fst results) ->
    (forall k, In k (map fst results') -> In k ad_ids)
    /\ List.NoDup (map fst results').
Proof.
  induction batch_responses as [|resp rest IH]; intros i results results' Hloop Hkeys Hnd.
  - injection Hloop as <-. auto.
  - cbn [batch_loop] in Hloop.
    destruct (py_get resp "code" JNull) as [code|]; [|discriminate]. cbn in Hloop.
    destruct (is_200 code); [|exact (IH _ _ _ Hloop Hkeys Hnd)].
    destruct (py_item resp "body") as [body|]; [|discriminate]. cbn in Hloop.
    destruct (match body with JStr s => loads s | _ => None end) as [ad_data|];
      [|discriminate]. cbn in Hloop.
    destruct (nth_error ad_ids i) as [ad_id|] eqn:Enth; [|discriminate]. cbn in Hloop.
    destruct (py_get ad_data "creative" (JObj [])) as [creative|]; [|discriminate].
    cbn in Hloop.
    destruct (creative_format py_str creative) as [format|]; [|discriminate]. cbn in Hloop.
    destruct (py_get ad_data "status" (JStr "UNKNOWN")) as [status|]; [|discriminate].
    cbn in Hloop.
    destruct (py_get ad_data "effective_status" (JStr "UNKNOWN")) as [effective_status|];
      [|discriminate]. cbn in Hloop.
    destruct (py_get creative "status" (JStr "UNKNOWN")) as [creative_status|];
      [|discriminate]. cbn in Hloop.
    apply (IH _ _ _ Hloop).
    + intros k Hk. apply dict_set_keys_inv in Hk as [->|Hk]; [|auto].
      exact (nth_error_In _ _ Enth).
    + now apply dict_set_NoDup.
Qed.

(** X30. A batch call answers only for the ids it was asked about and
    never raises: the keys of the dict it returns are among the first 50
    ids of the batch, each once, and the dict is empty whenever the
    provider does not answer with status 200 and a body. *)
Theorem creatives_batch_answers_for_its_ids (post : list string -> string -> reply)
    (loads : string -> option json) (py_str : json -> string)
    (ad_ids : list string) (access_token : string) :
  let results := fetch_creatives_batch post loads py_str ad_ids access_token in
  (forall k, In k (map fst results) -> In k (firstn 50 ad_ids))
  /\ List.NoDup (map fst results)
  /\ (length results <= 50)%nat
  /\ ((forall response_headers body,
         post (firstn 50 ad_ids) access_token <> Response 200 response_headers (Some body)) ->
      results = []).
Proof.
  cbv zeta.
  assert (Hmain :
    (forall k, In k (map fst (fetch_creatives_batch post loads py_str ad_ids access_token)) ->
               In k (firstn 50 ad_ids))
    /\ List.NoDup (map fst (fetch_creatives_batch post loads py_str ad_ids access_token))).
  { unfold fetch_creatives_batch. destruct ad_ids as [|x ad_ids]; [split; [intros k []|constructor]|].
    cbv zeta. set (ids := firstn 50 (x :: ad_ids)).
    destruct (post ids access_token) as [status_code hdrs body| | |];
      try (split; [intros k []|constructor]).
    destruct (negb (status_code =? 200)); [split; [intros k []|constructor]|].
    destruct (body ≫= py_iter) as [batch_responses|]; [|split; [intros k []|constructor]].
    destruct (batch_loop loads py_str ids 0 batch_responses []) as [results|] eqn:Eloop;
      [|split; [intros k []|constructor]].
    cbn [default]. apply (batch_loop_keys loads py_str ids batch_responses 0 [] results Eloop).
    - intros k [].
    - constructor. }
  destruct Hmain as [Hkeys Hnd]. split; [exact Hkeys|]. split; [exact Hnd|]. split.
  - rewrite <- (length_map fst).
    apply Nat.le_trans with (length (firstn 50 ad_ids)); [|apply firstn_le_length].
    apply NoDup_incl_length; [exact Hnd | exact Hkeys].
  - intros Hpost. unfold fetch_creatives_batch. destruct ad_ids as [|x ad_ids]; [reflexivity|].
    cbv zeta. destruct (post (firstn 50 (x :: ad_ids)) access_token)
      as [status_code hdrs body| | |] eqn:Epost; try reflexivity.
    destruct (Z.eqb_spec status_code 200) as [->|Hne]; [|reflexivity]. cbn [negb].
    destruct body as [body|]; [|reflexivity].
    now destruct (Hpost hdrs body).
Qed.

Lemma creatives_batch_answers_for_its_ids_witness :
  let results :=
    fetch_creatives_batch two_answers loads_example str_example ["a1"; "a2"] "EAAB" in
  results
  = [("a1", mk_creative_entry (JStr "ACTIVE") (JStr "UNKNOWN") "VIDEO"
             (JStr "https://www.facebook.com/watch/?v=7") (JStr "UNKNOWN"))]
  /\ In "a1" (firstn 50 ["a1"; "a2"])
  /\ fetch_creatives_batch (fun _ _ => Raises_ReadTimeout) loads_example str_example
       ["a1"; "a2"] "EAAB" = [].
Proof.
  intros results. split; [reflexivity|]. split.
  - apply (proj1 (creatives_batch_answers_for_its_ids two_answers loads_example str_example
                    ["a1"; "a2"] "EAAB")). left. reflexivity.
  - apply (proj2 (proj2 (proj2 (creatives_batch_answers_for_its_ids
                                  (fun _ _ => Raises_ReadTimeout) loads_example str_example
                                  ["a1"; "a2"] "EAAB")))).
    intros response_headers body. discriminate.
Defined.
